(** * RTSP Control Deck: a shallow embedding of [server.js]

    The server keeps two process-wide stores, [activeStreams] (a [Map] from
    stream id to the running session) and [savedStreams] (an array of saved
    source records mirrored in [saved-streams.json]), and reacts to HTTP
    requests, timer callbacks and events of the transcoding processes, all
    on one thread.  Every handler and callback of [server.js] is a function
    on an explicit [Server] state here; the start request's closure
    ([responded], [pollTimer], [timeoutTimer] and the response object) is a
    record of its own, and the JavaScript runtime's table of live timers is
    part of the state. *)

From Stdlib Require Import NArith Ascii String.
From stdpp Require Import gmap list sets.

Set Default Proof Using "Type".
Set Warnings "-register-all".

(** ** JavaScript values *)

(** A JavaScript string is a sequence of UTF-16 code units: [length],
    [slice] and [trim] all work on code units. *)
Abbreviation jsstring := (list N).

(** The code units of an ASCII literal. *)
Definition js (s : string) : jsstring :=
  map N_of_ascii (list_ascii_of_string s).

(** The values a JSON request body or [saved-streams.json] can hold, and
    [undefined] for an absent property.  A number is its IEEE 754 binary64
    bit pattern; an object or array carries the identity of its heap cell,
    which is what [===] compares. *)
Inductive JsValue : Type :=
| JUndefined
| JNull
| JBool (b : bool)
| JNumber (bits : N)
| JString (s : jsstring)
| JObject (addr : N) (props : list (jsstring * JsValue))
| JArray (addr : N) (elems : list JsValue).

Definition num_is_zero (bits : N) : bool :=
  (N.land bits 9223372036854775807 =? 0)%N.

Definition num_is_nan (bits : N) : bool :=
  ((N.land (N.shiftr bits 52) 2047 =? 2047)
   && negb (N.land bits 4503599627370495 =? 0))%N.

(** [ToBoolean]: what [!v], [if (v)] and [v || w] test. *)
Definition truthy (v : JsValue) : bool :=
  match v with
  | JUndefined | JNull => false
  | JBool b => b
  | JNumber bits => negb (num_is_zero bits) && negb (num_is_nan bits)
  | JString s => negb (bool_decide (s = []))
  | JObject _ _ | JArray _ _ => true
  end.

(** [a === b]. *)
Definition strict_eq (a b : JsValue) : bool :=
  match a, b with
  | JUndefined, JUndefined => true
  | JNull, JNull => true
  | JBool x, JBool y => bool_decide (x = y)
  | JNumber x, JNumber y =>
      negb (num_is_nan x) && negb (num_is_nan y)
      && (bool_decide (x = y) || (num_is_zero x && num_is_zero y))
  | JString x, JString y => bool_decide (x = y)
  | JObject x _, JObject y _ => bool_decide (x = y)
  | JArray x _, JArray y _ => bool_decide (x = y)
  | _, _ => false
  end.

(** [a || b]. *)
Definition js_or (a b : JsValue) : JsValue := if truthy a then a else b.

(** ECMAScript [WhiteSpace] and [LineTerminator] code points, the ones
    [String.prototype.trim] strips; all of them are single code units. *)
Definition is_whitespace (c : N) : bool :=
  ((c =? 9) || (c =? 10) || (c =? 11) || (c =? 12) || (c =? 13) || (c =? 32)
   || (c =? 160) || (c =? 5760) || ((8192 <=? c) && (c <=? 8202))
   || (c =? 8232) || (c =? 8233) || (c =? 8239) || (c =? 8287)
   || (c =? 12288) || (c =? 65279))%N.

Fixpoint trimStart (s : jsstring) : jsstring :=
  match s with
  | [] => []
  | c :: s' => if is_whitespace c then trimStart s' else s
  end.

Definition trimEnd (s : jsstring) : jsstring := rev (trimStart (rev s)).

(** [s.trim()]. *)
Definition trim (s : jsstring) : jsstring := trimEnd (trimStart s).

(** [s.slice(0, n)] for a non-negative [n]. *)
Definition slice0 (s : jsstring) (n : nat) : jsstring := take n s.

(** ** [sanitizeText] *)

Definition sanitizeText (value : JsValue) (maxLength : nat) : jsstring :=
  match value with
  | JString s =>
      let trimmed := trim s in
      if (maxLength <? length trimmed)%nat
      then slice0 trimmed maxLength
      else trimmed
  | _ => []
  end.

(** A value [sanitizeText] turns into the empty string: anything that is
    not a string, and a string of whitespace only. *)
Definition blank (v : JsValue) : bool :=
  match v with
  | JString s => forallb is_whitespace s
  | _ => true
  end.

(** ** Completions: a call returns or throws *)

Inductive Exn : Type := SyntaxError | TypeError | IOError.

Inductive Completion (A : Type) : Type :=
| Return (a : A)
| Throw (e : Exn).
Arguments Return {A} a.
Arguments Throw {A} e.

#[export] Instance completion_bind : MBind Completion :=
  fun A B (k : A -> Completion B) (c : Completion A) =>
    match c with
    | Return a => k a
    | Throw e => Throw e
    end.

(** [try { body } catch (error) { handler }]. *)
Definition try_catch {A} (body : Completion A) (handler : Exn -> Completion A)
  : Completion A :=
  match body with
  | Return a => Return a
  | Throw e => handler e
  end.

Fixpoint map_completion {A B} (f : A -> Completion B) (l : list A)
  : Completion (list B) :=
  match l with
  | [] => Return []
  | a :: l' => b ← f a; bs ← map_completion f l'; Return (b :: bs)
  end.

(** ** Data model *)

(** An entry of a [screenshots] array: the [{ fileName, capturedAt }]
    object [addScreenshotRecord] builds, or whatever element the array read
    from [saved-streams.json] held. *)
Inductive Screenshot : Type :=
| Shot (fileName capturedAt : jsstring)
| LoadedShot (v : JsValue).

(** An element of [savedStreams]. *)
Record SavedStream : Type := {
  rtspUrl : JsValue;
  lastStreamId : JsValue;
  lastStartedAt : JsValue;
  label : JsValue;
  notes : JsValue;
  screenshots : list Screenshot
}.

(** A path below [__dirname], as its components. *)
Abbreviation path := (list (list N)).

Definition SAVED_STREAMS_FILE : path := [js "saved-streams.json"].
Definition CAPTURES_DIR : path := [js "captures"].
Definition streams_root : path := [js "streams"].

(** [saved-streams.json] as [loadSavedStreams] can find it: absent, present
    but [readFileSync] throws, or readable with some text. *)
Inductive FileState : Type :=
| Missing
| Unreadable
| Content (text : jsstring).

(** The child process of one start request, once fluent-ffmpeg has
    spawned it.  [procs] has no entry for a command whose child has not
    been spawned. *)
Inductive ProcState : Type := Running | Terminating | Exited.

(** A value of [activeStreams].  [ffmpegProcess] is the command object of
    the request: the number under which [procs] holds its child once it
    is spawned. *)
Record StreamInfo : Type := {
  info_rtspUrl : JsValue;
  info_label : jsstring;
  info_notes : jsstring;
  ffmpegProcess : nat;
  streamDir : path;
  playlistPath : path;
  startTime : Z
}.

(** Response bodies of the handlers.  [BUncaught] is the page Express
    sends, with status 500, when a handler throws. *)
Inductive Body : Type :=
| BError (error : jsstring)
| BStarted (streamId label notes : jsstring)
| BStopped
| BSaved (stream : SavedStream)
| BCaptured (fileName fileUrl : jsstring)
| BUncaught.

(** [res.status(status).json(body)]; [res.json(body)] sends status 200. *)
Record Response : Type := { status : nat; body : Body }.

(** The variables the closures of one [/start-stream] request share, and
    what has been sent on its [res]. *)
Record StartRequest : Type := {
  rq_rtspUrl : JsValue;
  rq_label : JsValue;
  rq_notes : JsValue;
  rq_streamId : jsstring;
  rq_playlistPath : path;
  responded : bool;
  pollTimer : option nat;
  timeoutTimer : option nat;
  res : list Response
}.

(** What the runtime calls when a timer elapses: the poll or the deadline
    callback of start request [k]. *)
Inductive TimerCallback : Type :=
| PollOf (k : nat)
| DeadlineOf (k : nat).

(** The state of the server process and of what it acts on. *)
Record Server : Type := {
  activeStreams : gmap (list N) StreamInfo;
  savedStreams : list SavedStream;
  paths : gset (list (list N));
  savedFile : FileState;
  diskWritable : bool;
  procs : gmap nat ProcState;
  timers : gmap nat TimerCallback;
  nextTimer : nat;
  requests : list StartRequest
}.

Definition set_activeStreams (f : gmap (list N) StreamInfo -> gmap (list N) StreamInfo)
  (s : Server) : Server :=
  {| activeStreams := f (activeStreams s); savedStreams := savedStreams s;
     paths := paths s; savedFile := savedFile s; diskWritable := diskWritable s;
     procs := procs s; timers := timers s; nextTimer := nextTimer s;
     requests := requests s |}.

Definition set_savedStreams (f : list SavedStream -> list SavedStream)
  (s : Server) : Server :=
  {| activeStreams := activeStreams s; savedStreams := f (savedStreams s);
     paths := paths s; savedFile := savedFile s; diskWritable := diskWritable s;
     procs := procs s; timers := timers s; nextTimer := nextTimer s;
     requests := requests s |}.

Definition set_paths (f : gset (list (list N)) -> gset (list (list N)))
  (s : Server) : Server :=
  {| activeStreams := activeStreams s; savedStreams := savedStreams s;
     paths := f (paths s); savedFile := savedFile s; diskWritable := diskWritable s;
     procs := procs s; timers := timers s; nextTimer := nextTimer s;
     requests := requests s |}.

Definition set_savedFile (f : FileState) (s : Server) : Server :=
  {| activeStreams := activeStreams s; savedStreams := savedStreams s;
     paths := paths s; savedFile := f; diskWritable := diskWritable s;
     procs := procs s; timers := timers s; nextTimer := nextTimer s;
     requests := requests s |}.

Definition set_procs (f : gmap nat ProcState -> gmap nat ProcState)
  (s : Server) : Server :=
  {| activeStreams := activeStreams s; savedStreams := savedStreams s;
     paths := paths s; savedFile := savedFile s; diskWritable := diskWritable s;
     procs := f (procs s); timers := timers s; nextTimer := nextTimer s;
     requests := requests s |}.

Definition set_timers (f : gmap nat TimerCallback -> gmap nat TimerCallback)
  (s : Server) : Server :=
  {| activeStreams := activeStreams s; savedStreams := savedStreams s;
     paths := paths s; savedFile := savedFile s; diskWritable := diskWritable s;
     procs := procs s; timers := f (timers s); nextTimer := nextTimer s;
     requests := requests s |}.

Definition set_nextTimer (n : nat) (s : Server) : Server :=
  {| activeStreams := activeStreams s; savedStreams := savedStreams s;
     paths := paths s; savedFile := savedFile s; diskWritable := diskWritable s;
     procs := procs s; timers := timers s; nextTimer := n;
     requests := requests s |}.

Definition set_requests (f : list StartRequest -> list StartRequest)
  (s : Server) : Server :=
  {| activeStreams := activeStreams s; savedStreams := savedStreams s;
     paths := paths s; savedFile := savedFile s; diskWritable := diskWritable s;
     procs := procs s; timers := timers s; nextTimer := nextTimer s;
     requests := f (requests s) |}.

Definition with_start (streamId now : JsValue) (r : SavedStream) : SavedStream :=
  {| rtspUrl := rtspUrl r; lastStreamId := streamId; lastStartedAt := now;
     label := label r; notes := notes r; screenshots := screenshots r |}.

Definition with_label (l : JsValue) (r : SavedStream) : SavedStream :=
  {| rtspUrl := rtspUrl r; lastStreamId := lastStreamId r;
     lastStartedAt := lastStartedAt r;
     label := l; notes := notes r; screenshots := screenshots r |}.

Definition with_notes (n : JsValue) (r : SavedStream) : SavedStream :=
  {| rtspUrl := rtspUrl r; lastStreamId := lastStreamId r;
     lastStartedAt := lastStartedAt r;
     label := label r; notes := n; screenshots := screenshots r |}.

Definition with_screenshots (l : list Screenshot) (r : SavedStream) : SavedStream :=
  {| rtspUrl := rtspUrl r; lastStreamId := lastStreamId r;
     lastStartedAt := lastStartedAt r;
     label := label r; notes := notes r; screenshots := l |}.

(** ** The file system *)

(** [fs.existsSync(p)] for a path below [__dirname]. *)
Definition existsSync (p : path) (s : Server) : bool :=
  bool_decide (p ∈ paths s).

(** The directory itself and every directory above it. *)
Definition ancestors (p : path) : list path :=
  (fun n => take n p) <$> seq 1 (length p).

(** [fs.mkdirSync(p, { recursive: true })]. *)
Definition mkdirSync (p : path) (s : Server) : Server :=
  set_paths (fun ps => ps ∪ list_to_set (ancestors p)) s.

(** [fs.rmSync(p, { recursive: true, force: true })]. *)
Definition rmSync (p : path) (s : Server) : Server :=
  set_paths (filter (fun q => ¬ p `prefix_of` q)) s.

Definition ensureDirectoryExists (dirPath : path) (s : Server) : Server :=
  if negb (existsSync dirPath s) then mkdirSync dirPath s else s.

(** ** The process supervisor *)

(** Modelled from the spec: [ffmpegProcess.kill('SIGTERM')] is fluent-ffmpeg's,
    not this repository's.  The spec's [terminate(handle)] sends a graceful
    termination signal and is a no-op on a handle that has already exited
    or has already been terminated. *)
Definition kill (p : ProcState) : ProcState :=
  match p with
  | Running => Terminating
  | Terminating => Terminating
  | Exited => Exited
  end.

(** ** Fields of a parsed record *)

Inductive Field : Type :=
| F_rtspUrl | F_lastStreamId | F_lastStartedAt | F_label | F_notes | F_screenshots.

Definition field_name (f : Field) : jsstring :=
  match f with
  | F_rtspUrl => js "rtspUrl"
  | F_lastStreamId => js "lastStreamId"
  | F_lastStartedAt => js "lastStartedAt"
  | F_label => js "label"
  | F_notes => js "notes"
  | F_screenshots => js "screenshots"
  end.

Fixpoint lookup_prop (k : jsstring) (props : list (jsstring * JsValue)) : JsValue :=
  match props with
  | [] => JUndefined
  | (k', v) :: props' => if bool_decide (k = k') then v else lookup_prop k props'
  end.

(** [stream.f] for one of the six field names.  No prototype defines any
    of them, so the access yields an own property of an object and
    [undefined] on every other value, except that it throws a [TypeError]
    on [null] and [undefined]. *)
Definition get_field (stream : JsValue) (f : Field) : Completion JsValue :=
  match stream with
  | JUndefined | JNull => Throw TypeError
  | JObject _ props => Return (lookup_prop (field_name f) props)
  | _ => Return JUndefined
  end.

(** [Array.isArray(v) ? v : []], as the elements. *)
Definition array_or_empty (v : JsValue) : list Screenshot :=
  match v with
  | JArray _ elems => LoadedShot <$> elems
  | _ => []
  end.

(** The callback of [parsed.map] in [loadSavedStreams]. *)
Definition load_record (stream : JsValue) : Completion SavedStream :=
  u ← get_field stream F_rtspUrl;
  i ← get_field stream F_lastStreamId;
  t ← get_field stream F_lastStartedAt;
  l ← get_field stream F_label;
  n ← get_field stream F_notes;
  sh ← get_field stream F_screenshots;
  Return {| rtspUrl := u; lastStreamId := i; lastStartedAt := t;
            label := js_or l (JString []); notes := js_or n (JString []);
            screenshots := array_or_empty sh |}.

Definition readFileSync (f : FileState) : Completion jsstring :=
  match f with
  | Content text => Return text
  | Missing | Unreadable => Throw IOError
  end.

Definition file_exists (f : FileState) : bool :=
  match f with
  | Missing => false
  | _ => true
  end.

(** [savedStreams.find((stream) => stream.rtspUrl === rtspUrl)]: the first
    match, with its index, through which the caller mutates it. *)
Definition find_saved (url : JsValue) (l : list SavedStream)
  : option (nat * SavedStream) :=
  list_find (fun stream => Is_true (strict_eq (rtspUrl stream) url)) l.

(** The screenshots [savedStreams] holds for a URL: those of the record
    [find] yields, none when it yields nothing. *)
Definition saved_screenshots (url : JsValue) (s : Server) : list Screenshot :=
  match find_saved url (savedStreams s) with
  | Some (_, r) => screenshots r
  | None => []
  end.

(** The part of the state the start requests' closures and the runtime's
    timers live in. *)
Definition ctl (s : Server)
  : list StartRequest * gmap nat TimerCallback * nat :=
  (requests s, timers s, nextTimer s).

(** Whitespace at either end of a string. *)
Definition surrounding_whitespace (t : jsstring) : bool :=
  match head t, last t with
  | Some a, Some b => is_whitespace a || is_whitespace b
  | _, _ => false
  end.

(** The Metadata Store: the records in memory and their file. *)
Definition store (s : Server) : list SavedStream * FileState * bool :=
  (savedStreams s, savedFile s, diskWritable s).

(** The Session Registry and what its sessions own. *)
Definition sessions (s : Server)
  : gmap (list N) StreamInfo * gset (list (list N)) * gmap nat ProcState :=
  (activeStreams s, paths s, procs s).

(** A label or notes value as the handlers write it: a string within the
    bound. *)
Definition bounded (n : nat) (v : JsValue) : Prop :=
  exists t, v = JString t /\ (length t <= n)%nat.

Definition record_bounded (r : SavedStream) : Prop :=
  bounded 60 (label r) /\ bounded 280 (notes r).

Definition store_bounded (s : Server) : Prop :=
  Forall record_bounded (savedStreams s)
  /\ (forall id info,
        activeStreams s !! id = Some info ->
        (length (info_label info) <= 60)%nat
        /\ (length (info_notes info) <= 280)%nat).

(** Every registered session keeps its files where [cleanupStream] looks
    for them. *)
Definition registry_inv (s : Server) : Prop :=
  forall id info,
    activeStreams s !! id = Some info ->
    streamDir info = [js "streams"; id]
    /\ playlistPath info = [js "streams"; id; js "playlist.m3u8"].

(** The start request a timer callback belongs to. *)
Definition owner (cb : TimerCallback) : nat :=
  match cb with
  | PollOf k => k
  | DeadlineOf k => k
  end.

(** A start request has sent nothing while it is unanswered, and one
    response once it is answered. *)
Definition settled (rq : StartRequest) : Prop :=
  if responded rq then length (res rq) = 1%nat else res rq = [].

(** While start request [k] is unanswered, both of its timers are live and
    call its callbacks. *)
Definition armed (s : Server) (k : nat) (rq : StartRequest) : Prop :=
  responded rq = false ->
  exists h1 h2,
    pollTimer rq = Some h1 /\ timeoutTimer rq = Some h2
    /\ timers s !! h1 = Some (PollOf k) /\ timers s !! h2 = Some (DeadlineOf k).

Definition timers_inv (s : Server) : Prop :=
  (forall k rq, requests s !! k = Some rq -> armed s k rq)
  /\ (forall h cb, timers s !! h = Some cb -> (h < nextTimer s)%nat).

(** A server with nothing registered, nothing saved and an empty disk. *)
Definition empty_server : Server :=
  {| activeStreams := ∅; savedStreams := []; paths := ∅; savedFile := Missing;
     diskWritable := true; procs := ∅; timers := ∅; nextTimer := 0;
     requests := [] |}.

(** ** Sample inputs *)

Definition cam1 : JsValue := JString (js "rtsp://test/cam1").
Definition id1 : jsstring := js "3f2a-0001".
Definition t0 : jsstring := js "2025-01-01T00:00:00.000Z".
Definition t1 : jsstring := js "2025-01-01T00:00:01.000Z".

(** Sixty-one code units with a space in the sixtieth place. *)
Definition long_label : JsValue :=
  JString (replicate 59 97%N ++ [32%N; 98%N]).

(** A stand-in for [JSON.stringify] and one for [JSON.parse]. *)
Definition no_stringify (l : list SavedStream) : jsstring := [].
Definition no_parse (text : jsstring) : option JsValue := None.

Section Runtime.

(** [JSON.parse] ([None] when it throws a [SyntaxError]) and
    [JSON.stringify(savedStreams, null, 2)] belong to the runtime. *)
Variable JSON_parse : jsstring -> option JsValue.
Variable JSON_stringify : list SavedStream -> jsstring.

Definition parse (text : jsstring) : Completion JsValue :=
  match JSON_parse text with
  | Some v => Return v
  | None => Throw SyntaxError
  end.

Definition loadSavedStreams (file : FileState) : Completion (list SavedStream) :=
  if negb (file_exists file) then Return []
  else
    try_catch
      (content ← readFileSync file;
       parsed ← parse content;
       match parsed with
       | JArray _ elems => map_completion load_record elems
       | _ => Return []
       end)
      (fun error => Return []).

(** [writeFileSync] throws when the disk refuses the write; the [catch]
    logs and goes on.  What a refused write leaves of the file is the
    disk's doing: here the file is as it was. *)
Definition persistSavedStreams (s : Server) : Server :=
  if diskWritable s
  then set_savedFile (Content (JSON_stringify (savedStreams s))) s
  else s.

Definition upsertSavedStream (url : JsValue) (streamId : jsstring)
  (metadata_label metadata_notes : JsValue) (now : jsstring) (s : Server) : Server :=
  let existing := find_saved url (savedStreams s) in
  let label := sanitizeText metadata_label 60 in
  let notes := sanitizeText metadata_notes 280 in
  let s1 :=
    match existing with
    | Some (i, existing) =>
        let e1 := with_start (JString streamId) (JString now) existing in
        let e2 := if truthy (JString label) then with_label (JString label) e1 else e1 in
        let e3 := if truthy (JString notes) then with_notes (JString notes) e2 else e2 in
        set_savedStreams (fun l => <[i := e3]> l) s
    | None =>
        set_savedStreams
          (fun l => l ++ [ {| rtspUrl := url; lastStreamId := JString streamId;
                              lastStartedAt := JString now;
                              label := JString label; notes := JString notes;
                              screenshots := [] |} ]) s
    end in
  persistSavedStreams s1.

Definition addScreenshotRecord (url : JsValue) (streamId fileName now : jsstring)
  (s : Server) : Server :=
  let '(i, existing, s1) :=
    match find_saved url (savedStreams s) with
    | Some (i, existing) => (i, existing, s)
    | None =>
        let existing :=
          {| rtspUrl := url; lastStreamId := JString streamId;
             lastStartedAt := JString now;
             label := JString []; notes := JString []; screenshots := [] |} in
        (length (savedStreams s), existing,
         set_savedStreams (fun l => l ++ [existing]) s)
    end in
  let unshifted := Shot fileName now :: screenshots existing in
  let capped :=
    if (20 <? length unshifted)%nat then take 20 unshifted else unshifted in
  let s2 := set_savedStreams (fun l => <[i := with_screenshots capped existing]> l) s1 in
  persistSavedStreams s2.

(** Successive captures for one URL, oldest first, each with its session
    id, file name and time. *)
Definition capture_all (url : JsValue)
  (calls : list (jsstring * jsstring * jsstring)) (s : Server) : Server :=
  fold_left (fun s c => addScreenshotRecord url c.1.1 c.1.2 c.2 s) calls s.

(** [path.join(__dirname, 'streams', streamId)]. *)
Definition stream_dir (streamId : jsstring) : path := streams_root ++ [streamId].

(** Every value of [activeStreams] is an object holding a process object,
    so both [if (streamInfo)] and [if (streamInfo.ffmpegProcess)] succeed
    exactly when the id is registered.  The signal reaches the child of
    the command when it has one. *)
Definition cleanupStream (streamId : jsstring) (s : Server) : Server :=
  match activeStreams s !! streamId with
  | Some streamInfo =>
      let s1 := set_procs (alter kill (ffmpegProcess streamInfo)) s in
      let streamDir := stream_dir streamId in
      let s2 := if existsSync streamDir s1 then rmSync streamDir s1 else s1 in
      set_activeStreams (delete streamId) s2
  | None => s
  end.

(** ** [POST /start-stream] *)

Definition mark_responded (rq : StartRequest) : StartRequest :=
  {| rq_rtspUrl := rq_rtspUrl rq; rq_label := rq_label rq; rq_notes := rq_notes rq;
     rq_streamId := rq_streamId rq; rq_playlistPath := rq_playlistPath rq;
     responded := true; pollTimer := pollTimer rq; timeoutTimer := timeoutTimer rq;
     res := res rq |}.

(** [res.status(status).json(payload)] on the request's response object. *)
Definition send (r : Response) (rq : StartRequest) : StartRequest :=
  {| rq_rtspUrl := rq_rtspUrl rq; rq_label := rq_label rq; rq_notes := rq_notes rq;
     rq_streamId := rq_streamId rq; rq_playlistPath := rq_playlistPath rq;
     responded := responded rq; pollTimer := pollTimer rq;
     timeoutTimer := timeoutTimer rq;
     res := res rq ++ [r] |}.

(** [if (t) clearInterval(t)] and [if (t) clearTimeout(t)]: a timer object
    is truthy, [null] is not. *)
Definition clearTimer (t : option nat) (s : Server) : Server :=
  match t with
  | Some h => set_timers (delete h) s
  | None => s
  end.

(** [finalize] of start request [k]. *)
Definition finalize (k : nat) (st : nat) (payload : Body) (s : Server) : Server :=
  match requests s !! k with
  | Some rq =>
      if responded rq then s
      else
        let s1 := set_requests (alter mark_responded k) s in
        let s2 := clearTimer (pollTimer rq) s1 in
        let s3 := clearTimer (timeoutTimer rq) s2 in
        set_requests (alter (send {| status := st; body := payload |}) k) s3
  | None => s
  end.

(** Whether [ffmpeg(rtspUrl).inputOptions(...)] returns, for a truthy
    [rtspUrl]; it throws when it does not.  fluent-ffmpeg takes a string
    as the input.  It takes an object as its options, which name an input
    only when they hold a non-empty string under [source]; whether it goes
    through with such an object is not the handler's doing and comes as
    [accepted].  On every other value, a number, a boolean, an array, an
    object without such a source, the constructor or [inputOptions]
    throws. *)
Definition takes_input (rtspUrl : JsValue) (accepted : bool) : bool :=
  match rtspUrl with
  | JString _ => true
  | JObject _ props =>
      match lookup_prop (js "source") props with
      | JString (_ :: _) => accepted
      | _ => false
      end
  | _ => false
  end.

(** The handler up to its return.  [streamId] is what [uuidv4()] gave and
    [nowMs] what [Date.now()] gave.  When fluent-ffmpeg does not take
    [rtspUrl], see [takes_input], the handler throws after the directory
    has been made and before anything is registered or any timer is set;
    it does not catch, so Express answers.  A request that gets past both
    checks is number [k] among those; its command and its closure carry
    that number.  The handler spawns nothing itself: fluent-ffmpeg spawns
    the child of the command, see [spawn].  fluent-ffmpeg emits no event
    before [run()] returns, so no callback runs before both timers are
    set. *)
Definition start_stream (url label notes : JsValue) (streamId : jsstring)
  (nowMs : Z) (accepted : bool) (s : Server) : Server * option Response :=
  if negb (truthy url)
  then (s, Some {| status := 400; body := BError (js "RTSP URL is required") |})
  else
    let streamDir := stream_dir streamId in
    let s1 := ensureDirectoryExists streamDir s in
    if negb (takes_input url accepted)
    then (s1, Some {| status := 500; body := BUncaught |})
    else
    let playlist := streamDir ++ [js "playlist.m3u8"] in
    let k := length (requests s1) in
    let s3 :=
      set_activeStreams
        (fun m => <[streamId :=
                     {| info_rtspUrl := url;
                        info_label := sanitizeText label 60;
                        info_notes := sanitizeText notes 280;
                        ffmpegProcess := k;
                        streamDir := streamDir;
                        playlistPath := playlist;
                        startTime := nowMs |}]> m) s1 in
    let poll := nextTimer s3 in
    let s4 := set_nextTimer (S poll) (set_timers (fun t => <[poll := PollOf k]> t) s3) in
    let deadline := nextTimer s4 in
    let s5 :=
      set_nextTimer (S deadline)
        (set_timers (fun t => <[deadline := DeadlineOf k]> t) s4) in
    (set_requests
       (fun l => l ++ [ {| rq_rtspUrl := url; rq_label := label; rq_notes := notes;
                           rq_streamId := streamId; rq_playlistPath := playlist;
                           responded := false;
                           pollTimer := Some poll; timeoutTimer := Some deadline;
                           res := [] |} ]) s5,
     None).

(** The callback of [setInterval]. *)
Definition on_poll (k : nat) (now : jsstring) (s : Server) : Server :=
  match requests s !! k with
  | Some rq =>
      if existsSync (rq_playlistPath rq) s
      then
        let s1 :=
          upsertSavedStream (rq_rtspUrl rq) (rq_streamId rq)
            (rq_label rq) (rq_notes rq) now s in
        finalize k 200
          (BStarted (rq_streamId rq) (sanitizeText (rq_label rq) 60)
             (sanitizeText (rq_notes rq) 280)) s1
      else s
  | None => s
  end.

(** The callback of [setTimeout]. *)
Definition on_deadline (k : nat) (s : Server) : Server :=
  match requests s !! k with
  | Some rq =>
      finalize k 500 (BError (js "Stream startup timed out"))
        (cleanupStream (rq_streamId rq) s)
  | None => s
  end.

(** The handler of the process's ['error'] event. *)
Definition on_error (k : nat) (s : Server) : Server :=
  match requests s !! k with
  | Some rq =>
      finalize k 500
        (BError (js "Failed to start stream - check RTSP URL and credentials"))
        (cleanupStream (rq_streamId rq) s)
  | None => s
  end.

(** The handler of the process's ['end'] event. *)
Definition on_end (k : nat) (s : Server) : Server :=
  match requests s !! k with
  | Some rq =>
      finalize k 500 (BError (js "Stream ended before startup completed"))
        (cleanupStream (rq_streamId rq) s)
  | None => s
  end.

(** ** Module initialisation *)

(** What the module does when it is loaded: nothing is registered, the
    saved records are read from the file, and the streams and captures
    directories are created when they are not there. *)
Definition boot (file : FileState) (writable : bool)
  (disk : gset (list (list N))) : Completion Server :=
  saved ← loadSavedStreams file;
  Return
    (ensureDirectoryExists CAPTURES_DIR
       (ensureDirectoryExists streams_root
          {| activeStreams := ∅; savedStreams := saved; paths := disk;
             savedFile := file; diskWritable := writable; procs := ∅;
             timers := ∅; nextTimer := 0; requests := [] |})).

(** ** [POST /stop-stream/:streamId] *)

Definition stop_stream (streamId : jsstring) (s : Server) : Server * Response :=
  match activeStreams s !! streamId with
  | Some _ =>
      (cleanupStream streamId s, {| status := 200; body := BStopped |})
  | None =>
      (s, {| status := 404; body := BError (js "Stream not found") |})
  end.

(** ** [POST /saved-streams/update] *)

Definition update_saved_stream (url label notes : JsValue) (s : Server)
  : Server * Response :=
  if negb (truthy url)
  then (s, {| status := 400; body := BError (js "RTSP URL is required") |})
  else
    let safeLabel := sanitizeText label 60 in
    let safeNotes := sanitizeText notes 280 in
    let '(existing, s1) :=
      match find_saved url (savedStreams s) with
      | None =>
          let existing :=
            {| rtspUrl := url; lastStreamId := JNull; lastStartedAt := JNull;
               label := JString safeLabel; notes := JString safeNotes;
               screenshots := [] |} in
          (existing, set_savedStreams (fun l => l ++ [existing]) s)
      | Some (i, existing) =>
          let existing :=
            with_notes (JString safeNotes) (with_label (JString safeLabel) existing) in
          (existing, set_savedStreams (fun l => <[i := existing]> l) s)
      end in
    (persistSavedStreams s1, {| status := 200; body := BSaved existing |}).

(** ** [POST /screenshot/:streamId] *)

(** What the callbacks of the extraction process close over. *)
Record CaptureJob : Type := {
  cap_streamInfo : StreamInfo;
  cap_streamId : jsstring;
  cap_fileName : jsstring
}.

(** [iso.replace(/[:.]/g, '-')]. *)
Definition fs_safe (iso : jsstring) : jsstring :=
  (fun c => if ((c =? 58) || (c =? 46))%N then 45%N else c) <$> iso.

(** The handler up to its return: a response at once, or the extraction
    process started.  [iso] is what [new Date().toISOString()] gave. *)
Definition screenshot (streamId iso : jsstring) (s : Server)
  : Server * (Response + CaptureJob) :=
  match activeStreams s !! streamId with
  | None => (s, inl {| status := 404; body := BError (js "Stream not found") |})
  | Some streamInfo =>
      if negb (existsSync (playlistPath streamInfo) s)
      then (s, inl {| status := 400;
                      body := BError (js "Stream playlist not ready") |})
      else
        let timestamp := fs_safe iso in
        let fileName := streamId ++ js "-" ++ timestamp ++ js ".jpg" in
        (s, inr {| cap_streamInfo := streamInfo; cap_streamId := streamId;
                   cap_fileName := fileName |})
  end.

(** The handler of the extraction process's ['end'] event. *)
Definition capture_on_end (job : CaptureJob) (now : jsstring) (s : Server)
  : Server * Response :=
  (addScreenshotRecord (info_rtspUrl (cap_streamInfo job)) (cap_streamId job)
     (cap_fileName job) now s,
   {| status := 200;
      body := BCaptured (cap_fileName job) (js "/captures/" ++ cap_fileName job) |}).

(** The handler of the extraction process's ['error'] event. *)
Definition capture_on_error (job : CaptureJob) (s : Server) : Server * Response :=
  (s, {| status := 500; body := BError (js "Failed to capture screenshot") |}).

(** ** [GET /streams] *)

(** The ids [GET /streams] lists. *)
Definition active_listing (s : Server) : list jsstring :=
  (map_to_list (activeStreams s)).*1.

(** ** The event loop *)

(** What can happen next: a request arrives, a timer elapses, a
    transcoding process writes its playlist or emits an event, an
    extraction process ends, the disk changes its mind, the child of a
    command is spawned. *)
Inductive Event : Type :=
| EvStart (url label notes : JsValue) (streamId : jsstring) (nowMs : Z)
    (accepted : bool)
| EvTimer (h : nat) (now : jsstring)
| EvManifest (k : nat)
| EvProcError (k : nat)
| EvProcEnd (k : nat)
| EvStop (streamId : jsstring)
| EvUpdate (url label notes : JsValue)
| EvScreenshot (streamId iso : jsstring)
| EvCaptureEnd (job : CaptureJob) (now : jsstring)
| EvCaptureError (job : CaptureJob)
| EvDisk (writable : bool)
| EvSpawn (k : nat).

(** The runtime calls the callback of a live timer; a timeout is gone once
    it has fired, an interval stays. *)
Definition fire_timer (h : nat) (now : jsstring) (s : Server) : Server :=
  match timers s !! h with
  | Some (PollOf k) => on_poll k now s
  | Some (DeadlineOf k) => on_deadline k (set_timers (delete h) s)
  | None => s
  end.

(** Process [k] writes its playlist, if its directory is still there. *)
Definition write_manifest (k : nat) (s : Server) : Server :=
  match requests s !! k with
  | Some rq =>
      if existsSync (stream_dir (rq_streamId rq)) s
      then set_paths (fun ps => ps ∪ {[ rq_playlistPath rq ]}) s
      else s
  | None => s
  end.

Definition set_diskWritable (b : bool) (s : Server) : Server :=
  {| activeStreams := activeStreams s; savedStreams := savedStreams s;
     paths := paths s; savedFile := savedFile s; diskWritable := b;
     procs := procs s; timers := timers s; nextTimer := nextTimer s;
     requests := requests s |}.

(** fluent-ffmpeg spawns the child of command [k]: a step of its own,
    which the handler does not wait for.  A command has one child. *)
Definition spawn (k : nat) (s : Server) : Server :=
  match requests s !! k, procs s !! k with
  | Some _, None => set_procs (fun ps => <[k := Running]> ps) s
  | _, _ => s
  end.

Definition step (e : Event) (s : Server) : Server :=
  match e with
  | EvStart url label notes streamId nowMs accepted =>
      fst (start_stream url label notes streamId nowMs accepted s)
  | EvTimer h now => fire_timer h now s
  | EvManifest k => write_manifest k s
  | EvProcError k => on_error k (set_procs (alter (fun _ => Exited) k) s)
  | EvProcEnd k => on_end k (set_procs (alter (fun _ => Exited) k) s)
  | EvStop streamId => fst (stop_stream streamId s)
  | EvUpdate url label notes => fst (update_saved_stream url label notes s)
  | EvScreenshot streamId iso => fst (screenshot streamId iso s)
  | EvCaptureEnd job now => fst (capture_on_end job now s)
  | EvCaptureError job => fst (capture_on_error job s)
  | EvDisk writable => set_diskWritable writable s
  | EvSpawn k => spawn k s
  end.

Definition run (es : list Event) (s : Server) : Server :=
  fold_left (fun s e => step e s) es s.

(** The three outcomes of a start request. *)
Inductive Outcome : Type := Ready | Failed | TimedOut.

Definition outcome (r : Response) : option Outcome :=
  match body r with
  | BStarted _ _ _ => if bool_decide (status r = 200) then Some Ready else None
  | BError msg =>
      if bool_decide (status r = 500)
      then Some (if bool_decide (msg = js "Stream startup timed out")
                 then TimedOut else Failed)
      else None
  | _ => None
  end.

(** Start request [k] has not been answered yet. *)
Definition pending (k : nat) (s : Server) : bool :=
  match requests s !! k with
  | Some rq => negb (responded rq)
  | None => false
  end.

(** Event [e], arriving in state [s], is one of the four triggers of start
    request [k]: its poll elapsing while the playlist exists, its deadline
    elapsing, or its process emitting ['error'] or ['end']. *)
Definition trigger (k : nat) (e : Event) (s : Server) : option Outcome :=
  match e with
  | EvTimer h _ =>
      match timers s !! h with
      | Some (PollOf k') =>
          match requests s !! k with
          | Some rq =>
              if bool_decide (k' = k) && existsSync (rq_playlistPath rq) s
              then Some Ready else None
          | None => None
          end
      | Some (DeadlineOf k') => if bool_decide (k' = k) then Some TimedOut else None
      | None => None
      end
  | EvProcError k' => if bool_decide (k' = k) then Some Failed else None
  | EvProcEnd k' => if bool_decide (k' = k) then Some Failed else None
  | _ => None
  end.

End Runtime.

(** ** [process.on('SIGINT')] *)

(** The loop [for (const [streamId] of activeStreams) cleanupStream(streamId)],
    with [ids] the keys in the order the [Map] yields them. *)
Definition cleanup_all (ids : list jsstring) (s : Server) : Server :=
  fold_left (fun s id => cleanupStream id s) ids s.

(** The handler up to [process.exit(0)]. *)
Definition on_sigint (ids : list jsstring) (s : Server) : Server :=
  let s1 := cleanup_all ids s in
  if existsSync streams_root s1 then rmSync streams_root s1 else s1.

(** ** [GET /streams], the entries *)

Record StreamEntry : Type := {
  entry_streamId : jsstring;
  entry_rtspUrl : JsValue;
  entry_startTime : Z;
  entry_uptime : Z
}.

(** The entries of the response; [nowMs] is what [Date.now()] gave.  The
    [Map] yields its entries in insertion order, which the registry here
    does not keep: the list has the entries of the response, in the
    registry's own order. *)
Definition list_streams (nowMs : Z) (s : Server) : list StreamEntry :=
  (fun p : list N * StreamInfo =>
     {| entry_streamId := p.1; entry_rtspUrl := info_rtspUrl p.2;
        entry_startTime := startTime p.2;
        entry_uptime := nowMs - startTime p.2 |})
    <$> map_to_list (activeStreams s).

(** ** What the stores hold, continued *)

(** No two of the URLs are [===]. *)
Definition distinct_urls (us : list JsValue) : Prop :=
  forall i j a b,
    us !! i = Some a -> us !! j = Some b -> strict_eq a b = true -> i = j.

(** What a call may do to the URLs of the saved records: nothing, or add
    at the end a URL that [find] did not find. *)
Definition urls_grow (l l' : list SavedStream) : Prop :=
  exists us,
    rtspUrl <$> l' = (rtspUrl <$> l) ++ us
    /\ (us = [] \/ exists u, us = [u] /\ find_saved u l = None).

(** [saved-streams.json] holds what [JSON.stringify] makes of the records
    in memory. *)
Definition synced (stringify : list SavedStream -> jsstring) (s : Server) : Prop :=
  savedFile s = Content (stringify (savedStreams s)).

(** A call that ends in [persistSavedStreams] leaves the file holding the
    records it leaves in memory when the disk takes the write, and leaves
    the file alone when it does not. *)
Definition persisted (stringify : list SavedStream -> jsstring)
  (s s' : Server) : Prop :=
  diskWritable s' = diskWritable s
  /\ savedFile s'
     = (if diskWritable s then Content (stringify (savedStreams s'))
        else savedFile s).

(** The events that can write the saved records or change what the disk
    accepts: a poll that finds the playlist, a metadata update with a URL,
    the end of an extraction, and the disk itself. *)
Definition may_write_store (e : Event) (s : Server) : bool :=
  match e with
  | EvTimer h _ =>
      match timers s !! h with
      | Some (PollOf k) =>
          match requests s !! k with
          | Some rq => existsSync (rq_playlistPath rq) s
          | None => false
          end
      | _ => false
      end
  | EvUpdate url _ _ => truthy url
  | EvCaptureEnd _ _ => true
  | EvDisk _ => true
  | _ => false
  end.

(** [null] or [undefined]: the values a property access throws on. *)
Definition is_nullish (v : JsValue) : bool :=
  match v with
  | JUndefined | JNull => true
  | _ => false
  end.

(** Every live timer is the poll or the deadline timer of the start
    request whose callback it calls. *)
Definition timers_owned (s : Server) : Prop :=
  forall h cb,
    timers s !! h = Some cb ->
    exists rq,
      requests s !! owner cb = Some rq
      /\ match cb with
         | PollOf _ => pollTimer rq = Some h
         | DeadlineOf _ => timeoutTimer rq = Some h
         end.

(** [v.f] for a value that is neither [null] nor [undefined]. *)
Definition own_field (v : JsValue) (f : Field) : JsValue :=
  match v with
  | JObject _ props => lookup_prop (field_name f) props
  | _ => JUndefined
  end.

(** A label or notes value as [loadSavedStreams] leaves it: truthy, or the
    empty string. *)
Definition defaulted (v : JsValue) : Prop :=
  truthy v = true \/ v = JString [].

(** A stand-in for [JSON.parse] that knows two texts. *)
Definition sample_parse (text : jsstring) : option JsValue :=
  if bool_decide (text = js "[{},null]")
  then Some (JArray 1 [JObject 2 []; JNull])
  else if bool_decide (text = js "[{},7]")
       then Some (JArray 1 [JObject 2 [(js "rtspUrl", cam1); (js "label", JNumber 0)];
                            JNumber 7])
       else None.

(** Every registered session holds the process of a start request that
    was made for its id and its URL. *)
Definition owns_process (s : Server) : Prop :=
  forall id info,
    activeStreams s !! id = Some info ->
    exists rq,
      requests s !! ffmpegProcess info = Some rq
      /\ rq_streamId rq = id /\ rq_rtspUrl rq = info_rtspUrl info.

(** Every start request has its two timer handles, both handed out
    already, and none of them is live once the request is answered. *)
Definition timers_released (s : Server) : Prop :=
  forall k rq,
    requests s !! k = Some rq ->
    exists h1 h2,
      pollTimer rq = Some h1 /\ timeoutTimer rq = Some h2
      /\ (h1 < nextTimer s)%nat /\ (h2 < nextTimer s)%nat
      /\ (responded rq = true ->
          timers s !! h1 = None /\ timers s !! h2 = None).

(** ** Sample runs *)

(** A start request for [cam1] with a label to trim and no notes. *)
Definition sample_start : Event :=
  EvStart cam1 (JString (js " Front ")) JUndefined id1 0 true.

Definition sample_started : Server := step no_stringify sample_start empty_server.

Definition sample_info : StreamInfo :=
  {| info_rtspUrl := cam1; info_label := js "Front"; info_notes := [];
     ffmpegProcess := 0;
     streamDir := [js "streams"; id1];
     playlistPath := [js "streams"; id1; js "playlist.m3u8"];
     startTime := 0 |}.

Definition sample_request : StartRequest :=
  {| rq_rtspUrl := cam1; rq_label := JString (js " Front "); rq_notes := JUndefined;
     rq_streamId := id1;
     rq_playlistPath := [js "streams"; id1; js "playlist.m3u8"];
     responded := false; pollTimer := Some 0%nat; timeoutTimer := Some 1%nat;
     res := [] |}.

(** The playlist appears, the poll sees it, then the process ends and the
    deadline's handle elapses. *)
Definition sample_trace : list Event :=
  [sample_start; EvManifest 0; EvTimer 0 t0; EvProcEnd 0; EvTimer 1 t1].

Definition sample_answered : StartRequest :=
  {| rq_rtspUrl := cam1; rq_label := JString (js " Front "); rq_notes := JUndefined;
     rq_streamId := id1;
     rq_playlistPath := [js "streams"; id1; js "playlist.m3u8"];
     responded := true; pollTimer := Some 0%nat; timeoutTimer := Some 1%nat;
     res := [ {| status := 200; body := BStarted id1 (js "Front") [] |} ] |}.

(** A saved record with a label and notes. *)
Definition sample_record : SavedStream :=
  {| rtspUrl := cam1; lastStreamId := JNull; lastStartedAt := JNull;
     label := JString (js "Front door"); notes := JString (js "north side");
     screenshots := [] |}.

Definition sample_saved : Server :=
  set_savedStreams (fun _ => [sample_record]) empty_server.

(** Twenty-five captures, numbered 1 to 25. *)
Definition sample_calls : list (jsstring * jsstring * jsstring) :=
  (fun n => (id1, [N.of_nat n], t0)) <$> seq 1 25.

Definition sample_job : CaptureJob :=
  {| cap_streamInfo := sample_info; cap_streamId := id1;
     cap_fileName := id1 ++ js "-" ++ fs_safe t0 ++ js ".jpg" |}.

(** The sample session with its playlist written, and the sample session
    become ready and then stopped. *)
Definition sample_written : Server := step no_stringify (EvManifest 0) sample_started.

Definition sample_stopped : Server :=
  run no_stringify [sample_start; EvManifest 0; EvTimer 0 t0; EvStop id1]
    empty_server.

Definition other_cam : JsValue := JString (js "rtsp://test/cam2").

Definition third_cam : JsValue := JString (js "rtsp://test/cam3").

(** The number 5, by its bits, and an object that names no source. *)
Definition five : JsValue := JNumber 4617315517961601024.
Definition bare_object : JsValue := JObject 7 [(js "a", five)].

Definition id2 : jsstring := js "3f2a-0002".

(** A second start request, for [other_cam], with notes and no label. *)
Definition other_start : Event :=
  EvStart other_cam JUndefined (JString (js "yard")) id2 5 true.

Definition other_info : StreamInfo :=
  {| info_rtspUrl := other_cam; info_label := []; info_notes := js "yard";
     ffmpegProcess := 1;
     streamDir := [js "streams"; id2];
     playlistPath := [js "streams"; id2; js "playlist.m3u8"];
     startTime := 5 |}.

(** Two sessions starting, the children of both spawned. *)
Definition sample_two_sessions : Server :=
  run no_stringify [sample_start; other_start; EvSpawn 0; EvSpawn 1] empty_server.

Definition other_record : SavedStream :=
  {| rtspUrl := other_cam; lastStreamId := JNull; lastStartedAt := JNull;
     label := JString (js "Yard"); notes := JString [];
     screenshots := [] |}.

(** Two saved records, for [cam1] and for [other_cam]. *)
Definition sample_two_saved : Server :=
  set_savedStreams (fun _ => [sample_record; other_record]) empty_server.

(** An update for the second record, one for a URL without a record, a
    start for the first record that becomes ready, and a capture for the
    second. *)
Definition sample_store_trace : list Event :=
  [EvUpdate other_cam (JString (js "Back yard")) JUndefined;
   EvUpdate third_cam long_label JUndefined;
   sample_start; EvManifest 0; EvTimer 0 t0;
   EvCaptureEnd {| cap_streamInfo := other_info; cap_streamId := id2;
                   cap_fileName := js "a.jpg" |} t1].

(** A string between double quotes. *)
Definition quoted (t : jsstring) : jsstring := [34%N] ++ t ++ [34%N].

(** The text of a file with one record, whose label has 61 code units,
    and a stand-in for [JSON.parse] that knows this text. *)
Definition long_file_text : jsstring :=
  js "[{" ++ quoted (js "rtspUrl") ++ js ":" ++ quoted (js "rtsp://test/cam1")
    ++ js "," ++ quoted (js "label") ++ js ":" ++ quoted (replicate 61 97%N)
    ++ js "}]".

Definition long_file_parse (text : jsstring) : option JsValue :=
  if bool_decide (text = long_file_text)
  then Some (JArray 1 [JObject 2 [(js "rtspUrl", cam1);
                                  (js "label", JString (replicate 61 97%N))]])
  else None.

(** ** What is stored of label and notes *)

(** A text as [sanitizeText] leaves it for the bound [n]: within the
    bound, not starting with whitespace, and ending with whitespace only
    where it was cut, at [n] code units. *)
Definition tidy (n : nat) (t : jsstring) : Prop :=
  (length t <= n)%nat
  /\ (forall c, head t = Some c -> is_whitespace c = false)
  /\ ((forall c, last t = Some c -> is_whitespace c = false) \/ length t = n).

Definition tidy_value (n : nat) (v : JsValue) : Prop :=
  exists t, v = JString t /\ tidy n t.

(** A record whose label has the property [L] and whose notes have the
    property [N]. *)
Definition record_has (L N : JsValue -> Prop) (r : SavedStream) : Prop :=
  L (label r) /\ N (notes r).

Definition record_tidy : SavedStream -> Prop :=
  record_has (tidy_value 60) (tidy_value 280).

Definition store_tidy (s : Server) : Prop :=
  Forall record_tidy (savedStreams s)
  /\ (forall id info,
        activeStreams s !! id = Some info ->
        tidy 60 (info_label info) /\ tidy 280 (info_notes info)).

(** * Properties *)

(** ** Strings *)

Example sanitizeText_trims :
  sanitizeText (JString (js "  front door  ")) 60 = js "front door".
Proof. reflexivity. Qed.

Example sanitizeText_cuts : sanitizeText (JString (js " abcdef")) 3 = js "abc".
Proof. reflexivity. Qed.

Example sanitizeText_number : sanitizeText (JNumber 0) 60 = [].
Proof. reflexivity. Qed.

Lemma trimStart_app_last (l : jsstring) (c : N) :
  trimStart (l ++ [c]) =
  if forallb is_whitespace l
  then (if is_whitespace c then [] else [c])
  else trimStart l ++ [c].
Proof.
  induction l as [|a l IH]; simpl.
  - destruct (is_whitespace c); reflexivity.
  - destruct (is_whitespace a); simpl; [exact IH | reflexivity].
Qed.

Lemma forallb_reverse {A} (f : A -> bool) (l : list A) :
  forallb f (rev l) = forallb f l.
Proof.
  induction l as [|a l IH]; simpl; [reflexivity |].
  rewrite forallb_app, IH. simpl. rewrite andb_true_r. apply andb_comm.
Qed.

Lemma trimEnd_cons (c : N) (l : jsstring) :
  trimEnd (c :: l) =
  if forallb is_whitespace l
  then (if is_whitespace c then [] else [c])
  else c :: trimEnd l.
Proof.
  unfold trimEnd. simpl. rewrite trimStart_app_last.
  rewrite forallb_reverse.
  destruct (forallb is_whitespace l).
  - destruct (is_whitespace c); reflexivity.
  - rewrite rev_app_distr. reflexivity.
Qed.

Lemma trimEnd_nil : trimEnd [] = [].
Proof. reflexivity. Qed.

Lemma trimStart_blank (s : jsstring) :
  forallb is_whitespace s = true -> trimStart s = [].
Proof.
  induction s as [|c s IH]; simpl; [reflexivity |].
  intros H. apply andb_prop in H as [Hc Hs]. rewrite Hc. auto.
Qed.

Lemma trim_blank (s : jsstring) :
  forallb is_whitespace s = true -> trim s = [].
Proof. intros H. unfold trim. rewrite trimStart_blank by assumption. reflexivity. Qed.

(** What is left of a string after [trimStart] does not start with
    whitespace. *)
Lemma trimStart_head (s : jsstring) (c : N) :
  head (trimStart s) = Some c -> is_whitespace c = false.
Proof.
  induction s as [|a s IH]; simpl; [discriminate |].
  destruct (is_whitespace a) eqn:Ha; [exact IH |].
  simpl. intros [= <-]. exact Ha.
Qed.

Lemma trimEnd_head (s : jsstring) (c : N) :
  head s = Some c -> is_whitespace c = false -> head (trimEnd s) = Some c.
Proof.
  destruct s as [|a s]; simpl; [discriminate |].
  intros [= ->] Hc. rewrite trimEnd_cons, Hc.
  destruct (forallb is_whitespace s); reflexivity.
Qed.

Lemma trimEnd_head_inv (s : jsstring) (c : N) :
  head (trimEnd s) = Some c -> head s = Some c.
Proof.
  destruct s as [|a s]; [discriminate |].
  rewrite trimEnd_cons.
  destruct (forallb is_whitespace s); [destruct (is_whitespace a) |];
    simpl; congruence.
Qed.

Lemma trim_head (s : jsstring) (c : N) :
  head (trim s) = Some c -> is_whitespace c = false.
Proof.
  unfold trim. intros H. apply trimEnd_head_inv in H.
  eapply trimStart_head; eassumption.
Qed.

Lemma last_rev_head {A} (l : list A) : last (rev l) = head l.
Proof. destruct l as [|a l]; simpl; [reflexivity | apply last_snoc]. Qed.

Lemma trimEnd_last (s : jsstring) (c : N) :
  last (trimEnd s) = Some c -> is_whitespace c = false.
Proof.
  unfold trimEnd. rewrite last_rev_head. apply trimStart_head.
Qed.

Lemma trim_last (s : jsstring) (c : N) :
  last (trim s) = Some c -> is_whitespace c = false.
Proof. apply trimEnd_last. Qed.

Lemma sanitizeText_string (s : jsstring) (n : nat) :
  sanitizeText (JString s) n = take n (trim s).
Proof.
  unfold sanitizeText, slice0.
  destruct (n <? length (trim s))%nat eqn:E; [reflexivity |].
  apply Nat.ltb_ge in E. symmetry. apply take_ge. exact E.
Qed.

Lemma sanitizeText_length (v : JsValue) (n : nat) :
  (length (sanitizeText v n) <= n)%nat.
Proof.
  destruct v; try (simpl; lia).
  rewrite sanitizeText_string, length_take. lia.
Qed.

Lemma sanitizeText_blank (v : JsValue) (n : nat) :
  blank v = true -> sanitizeText v n = [].
Proof.
  destruct v; try reflexivity.
  simpl blank. intros H. rewrite sanitizeText_string, trim_blank by assumption.
  apply take_nil.
Qed.

(** ** JavaScript equality *)

(** A value that passes [if (!rtspUrl)] is equal to itself: the guard
    excludes [NaN], the one value that is not. *)
Lemma truthy_strict_eq_refl (v : JsValue) :
  truthy v = true -> strict_eq v v = true.
Proof.
  destruct v; cbn [truthy strict_eq]; try reflexivity; try discriminate.
  - intros _. apply bool_decide_eq_true. reflexivity.
  - intros H. apply andb_prop in H as [_ Hn]. rewrite Hn.
    rewrite bool_decide_eq_true_2 by reflexivity. reflexivity.
  - intros _. apply bool_decide_eq_true. reflexivity.
  - intros _. apply bool_decide_eq_true. reflexivity.
  - intros _. apply bool_decide_eq_true. reflexivity.
Qed.

(** ** [find] on the saved records *)

Lemma find_saved_Some (url : JsValue) (l : list SavedStream) i r :
  find_saved url l = Some (i, r) ->
  l !! i = Some r /\ strict_eq (rtspUrl r) url = true.
Proof.
  unfold find_saved. intros H. apply list_find_Some in H as (Hl & HP & _).
  split; [exact Hl |]. apply Is_true_true. exact HP.
Qed.

Lemma find_saved_insert (url : JsValue) (l : list SavedStream) i r r' :
  find_saved url l = Some (i, r) ->
  rtspUrl r' = rtspUrl r ->
  find_saved url (<[i := r']> l) = Some (i, r').
Proof.
  unfold find_saved. intros H Hu.
  apply list_find_Some in H as (Hl & HP & Hleast).
  apply list_find_insert_Some. right; left.
  split_and!; [reflexivity | reflexivity | | | ].
  - eapply lookup_lt_Some; eassumption.
  - rewrite Hu. exact HP.
  - exact Hleast.
Qed.

Lemma find_saved_snoc (url : JsValue) (l : list SavedStream) r :
  find_saved url l = None ->
  strict_eq (rtspUrl r) url = true ->
  find_saved url (l ++ [r]) = Some (length l, r).
Proof.
  unfold find_saved. intros H Hr.
  apply list_find_app_Some. right.
  split_and!; [lia | exact H |].
  rewrite Nat.sub_diag. simpl.
  rewrite decide_True; [reflexivity |]. apply Is_true_true. exact Hr.
Qed.

Section Store.

Variable JSON_parse : jsstring -> option JsValue.
Variable JSON_stringify : list SavedStream -> jsstring.

Lemma savedStreams_persist (s : Server) :
  savedStreams (persistSavedStreams JSON_stringify s) = savedStreams s.
Proof. unfold persistSavedStreams. destruct (diskWritable s); reflexivity. Qed.

Lemma savedStreams_upsert_found url id ml mn now s i r :
  find_saved url (savedStreams s) = Some (i, r) ->
  savedStreams (upsertSavedStream JSON_stringify url id ml mn now s) =
  <[i :=
     let e1 := with_start (JString id) (JString now) r in
     let e2 := if truthy (JString (sanitizeText ml 60))
               then with_label (JString (sanitizeText ml 60)) e1 else e1 in
     if truthy (JString (sanitizeText mn 280))
     then with_notes (JString (sanitizeText mn 280)) e2 else e2]> (savedStreams s).
Proof.
  intros H. unfold upsertSavedStream. rewrite savedStreams_persist, H. reflexivity.
Qed.

Lemma savedStreams_upsert_new url id ml mn now s :
  find_saved url (savedStreams s) = None ->
  savedStreams (upsertSavedStream JSON_stringify url id ml mn now s) =
  savedStreams s ++
  [ {| rtspUrl := url; lastStreamId := JString id; lastStartedAt := JString now;
       label := JString (sanitizeText ml 60);
       notes := JString (sanitizeText mn 280); screenshots := [] |} ].
Proof.
  intros H. unfold upsertSavedStream. rewrite savedStreams_persist, H. reflexivity.
Qed.

Lemma savedStreams_update_found url l n s i r :
  truthy url = true ->
  find_saved url (savedStreams s) = Some (i, r) ->
  savedStreams (fst (update_saved_stream JSON_stringify url l n s)) =
  <[i := with_notes (JString (sanitizeText n 280))
           (with_label (JString (sanitizeText l 60)) r)]> (savedStreams s).
Proof.
  intros Hu H. unfold update_saved_stream. rewrite Hu, H. simpl.
  apply savedStreams_persist.
Qed.

Lemma savedStreams_update_new url l n s :
  truthy url = true ->
  find_saved url (savedStreams s) = None ->
  savedStreams (fst (update_saved_stream JSON_stringify url l n s)) =
  savedStreams s ++
  [ {| rtspUrl := url; lastStreamId := JNull; lastStartedAt := JNull;
       label := JString (sanitizeText l 60);
       notes := JString (sanitizeText n 280); screenshots := [] |} ].
Proof.
  intros Hu H. unfold update_saved_stream. rewrite Hu, H. simpl.
  apply savedStreams_persist.
Qed.

(** C3.  On a saved record that exists for the URL, [upsertSavedStream]
    (the spec's upsertOnStart) called with label and notes that are not
    strings, are empty or hold whitespace only leaves the record's label
    and notes (and screenshots) as they were and sets [lastStreamId] and
    [lastStartedAt] to the new session's; the handler of
    [/saved-streams/update] (the spec's updateMetadataOnly) called with
    empty strings sets the same record's label and notes to the empty
    string.  Nothing else in the store changes in either call. *)
Theorem upsert_keeps_metadata_update_overwrites
  (s : Server) (url : JsValue) (id now : jsstring) (ml mn : JsValue)
  (i : nat) (r : SavedStream) :
  find_saved url (savedStreams s) = Some (i, r) ->
  blank ml = true ->
  blank mn = true ->
  truthy url = true ->
  (exists r',
      savedStreams (upsertSavedStream JSON_stringify url id ml mn now s)
      = <[i := r']> (savedStreams s)
      /\ find_saved url
           (savedStreams (upsertSavedStream JSON_stringify url id ml mn now s))
         = Some (i, r')
      /\ label r' = label r /\ notes r' = notes r
      /\ screenshots r' = screenshots r /\ rtspUrl r' = rtspUrl r
      /\ lastStreamId r' = JString id /\ lastStartedAt r' = JString now)
  /\
  (exists r',
      savedStreams
        (fst (update_saved_stream JSON_stringify url (JString []) (JString []) s))
      = <[i := r']> (savedStreams s)
      /\ find_saved url
           (savedStreams
              (fst (update_saved_stream JSON_stringify url
                      (JString []) (JString []) s)))
         = Some (i, r')
      /\ label r' = JString [] /\ notes r' = JString []
      /\ screenshots r' = screenshots r /\ rtspUrl r' = rtspUrl r
      /\ lastStreamId r' = lastStreamId r /\ lastStartedAt r' = lastStartedAt r).
Proof.
  intros Hfind Hl Hn Hu. split.
  - exists (with_start (JString id) (JString now) r).
    rewrite (savedStreams_upsert_found _ _ _ _ _ _ _ _ Hfind).
    rewrite (sanitizeText_blank ml 60 Hl), (sanitizeText_blank mn 280 Hn).
    simpl. split_and!; try reflexivity.
    apply find_saved_insert with (r := r); [exact Hfind | reflexivity].
  - exists (with_notes (JString []) (with_label (JString []) r)).
    rewrite (savedStreams_update_found _ _ _ _ _ _ Hu Hfind).
    change (sanitizeText (JString []) 280) with (@nil N).
    change (sanitizeText (JString []) 60) with (@nil N).
    split_and!; try reflexivity.
    apply find_saved_insert with (r := r); [exact Hfind | reflexivity].
Qed.

End Store.

Section Screenshots.

Variable JSON_stringify : list SavedStream -> jsstring.

Lemma cap_20 (l : list Screenshot) :
  (if (20 <? length l)%nat then take 20 l else l) = take 20 l.
Proof.
  destruct (20 <? length l)%nat eqn:E; [reflexivity |].
  apply Nat.ltb_ge in E. symmetry. apply take_ge. exact E.
Qed.

Lemma savedStreams_addScreenshot_found url id f now s i r :
  find_saved url (savedStreams s) = Some (i, r) ->
  savedStreams (addScreenshotRecord JSON_stringify url id f now s) =
  <[i := with_screenshots (take 20 (Shot f now :: screenshots r)) r]>
    (savedStreams s).
Proof.
  intros H. unfold addScreenshotRecord. rewrite H.
  rewrite savedStreams_persist. cbn [savedStreams set_savedStreams].
  rewrite cap_20. reflexivity.
Qed.

Lemma savedStreams_addScreenshot_new url id f now s :
  find_saved url (savedStreams s) = None ->
  savedStreams (addScreenshotRecord JSON_stringify url id f now s) =
  savedStreams s ++
  [ {| rtspUrl := url; lastStreamId := JString id; lastStartedAt := JString now;
       label := JString []; notes := JString [];
       screenshots := [Shot f now] |} ].
Proof.
  intros H. unfold addScreenshotRecord. rewrite H.
  rewrite savedStreams_persist. cbn [savedStreams set_savedStreams].
  rewrite insert_app_r_alt by lia. rewrite Nat.sub_diag. reflexivity.
Qed.

(** One call: the new record goes first and the sequence is cut to 20. *)
Lemma saved_screenshots_add url id f now s :
  strict_eq url url = true ->
  saved_screenshots url (addScreenshotRecord JSON_stringify url id f now s) =
  take 20 (Shot f now :: saved_screenshots url s).
Proof.
  intros Hu. unfold saved_screenshots at 2.
  destruct (find_saved url (savedStreams s)) as [[i r]|] eqn:H.
  - unfold saved_screenshots.
    rewrite (savedStreams_addScreenshot_found _ _ _ _ _ _ _ H).
    erewrite find_saved_insert; [| exact H | reflexivity]. reflexivity.
  - unfold saved_screenshots.
    rewrite (savedStreams_addScreenshot_new _ _ _ _ _ H).
    erewrite find_saved_snoc; [| exact H | exact Hu]. reflexivity.
Qed.

Lemma take_app_take {A} (n : nat) (l k : list A) :
  take n (l ++ take n k) = take n (l ++ k).
Proof.
  rewrite !take_app, take_take. f_equal. f_equal. lia.
Qed.

Lemma saved_screenshots_capture_all url calls s :
  strict_eq url url = true ->
  saved_screenshots url (capture_all JSON_stringify url calls s) =
  take 20 (rev ((fun c => Shot c.1.2 c.2) <$> calls) ++ saved_screenshots url s)
  \/ calls = [].
Proof.
  intros Hu. revert s. induction calls as [|c calls IH]; intros s; [right; reflexivity |].
  left. cbn [capture_all fold_left].
  destruct (IH (addScreenshotRecord JSON_stringify url c.1.1 c.1.2 c.2 s))
    as [E | ->].
  - unfold capture_all in E. rewrite E.
    rewrite saved_screenshots_add by exact Hu.
    rewrite take_app_take. cbn [fmap list_fmap rev].
    rewrite <- app_assoc. reflexivity.
  - cbn [fold_left fmap list_fmap rev app].
    apply saved_screenshots_add. exact Hu.
Qed.

(** C4.  For a URL that passed the handlers' check, [addScreenshotRecord]
    (the spec's appendScreenshot) puts the new record in front of the
    URL's screenshots and keeps the first 20; after every call the URL has
    at most 20 screenshots, whatever it had before; and 25 successive calls
    on a URL without screenshots leave exactly 20, the last call's first:
    the records of calls 6 to 25 in reverse order, those of calls 1 to 5
    gone. *)
Theorem appendScreenshot_newest_first_capped
  (s : Server) (url : JsValue) (calls : list (jsstring * jsstring * jsstring)) :
  truthy url = true ->
  (forall id f now,
      saved_screenshots url (addScreenshotRecord JSON_stringify url id f now s)
      = take 20 (Shot f now :: saved_screenshots url s)
      /\ (length (saved_screenshots url
                    (addScreenshotRecord JSON_stringify url id f now s)) <= 20)%nat)
  /\ (calls <> [] ->
      (length (saved_screenshots url (capture_all JSON_stringify url calls s))
       <= 20)%nat)
  /\ (saved_screenshots url s = [] ->
      length calls = 25%nat ->
      saved_screenshots url (capture_all JSON_stringify url calls s)
      = rev ((fun c => Shot c.1.2 c.2) <$> drop 5 calls)
      /\ length (saved_screenshots url (capture_all JSON_stringify url calls s))
         = 20%nat).
Proof.
  intros Ht. pose proof (truthy_strict_eq_refl url Ht) as Hu.
  split_and!.
  - intros id f now. rewrite saved_screenshots_add by exact Hu.
    split; [reflexivity |]. rewrite length_take. lia.
  - intros Hne.
    destruct (saved_screenshots_capture_all url calls s Hu) as [E | E];
      [| contradiction].
    rewrite E, length_take. lia.
  - intros Hempty Hlen.
    destruct (saved_screenshots_capture_all url calls s Hu) as [E | E];
      [| subst calls; discriminate].
    rewrite E, Hempty, app_nil_r.
    assert (take 20 (rev ((fun c => Shot c.1.2 c.2) <$> calls))
            = rev ((fun c => Shot c.1.2 c.2) <$> drop 5 calls)) as ->.
    { rewrite firstn_rev, length_fmap, Hlen. cbn [Nat.sub].
      rewrite <- fmap_drop. reflexivity. }
    split; [reflexivity |].
    rewrite length_rev, length_fmap, length_drop, Hlen. reflexivity.
Qed.

End Screenshots.

(** ** What each operation leaves alone *)

Section Frames.

Variable JSON_stringify : list SavedStream -> jsstring.

Lemma ctl_persist s : ctl (persistSavedStreams JSON_stringify s) = ctl s.
Proof. unfold persistSavedStreams. destruct (diskWritable s); reflexivity. Qed.

Lemma ctl_upsert url id ml mn now s :
  ctl (upsertSavedStream JSON_stringify url id ml mn now s) = ctl s.
Proof.
  unfold upsertSavedStream. rewrite ctl_persist.
  destruct (find_saved url (savedStreams s)) as [[i r]|]; reflexivity.
Qed.

Lemma ctl_addScreenshot url id f now s :
  ctl (addScreenshotRecord JSON_stringify url id f now s) = ctl s.
Proof.
  unfold addScreenshotRecord.
  destruct (find_saved url (savedStreams s)) as [[i r]|];
    rewrite ctl_persist; reflexivity.
Qed.

Lemma ctl_update url l n s :
  ctl (fst (update_saved_stream JSON_stringify url l n s)) = ctl s.
Proof.
  unfold update_saved_stream. destruct (truthy url); [| reflexivity].
  destruct (find_saved url (savedStreams s)) as [[i r]|]; simpl;
    rewrite ctl_persist; reflexivity.
Qed.

Lemma ctl_cleanup id s : ctl (cleanupStream id s) = ctl s.
Proof.
  unfold cleanupStream. destruct (activeStreams s !! id); [| reflexivity].
  match goal with |- context [if ?b then _ else _] => destruct b end; reflexivity.
Qed.

Lemma ctl_stop id s : ctl (fst (stop_stream id s)) = ctl s.
Proof.
  unfold stop_stream. destruct (activeStreams s !! id) eqn:E; [| reflexivity].
  apply ctl_cleanup.
Qed.

Lemma ctl_screenshot id iso s : fst (screenshot id iso s) = s.
Proof.
  unfold screenshot. destruct (activeStreams s !! id); [| reflexivity].
  match goal with |- context [if ?b then _ else _] => destruct b end; reflexivity.
Qed.

Lemma ctl_write_manifest k s : ctl (write_manifest k s) = ctl s.
Proof.
  unfold write_manifest. destruct (requests s !! k); [| reflexivity].
  match goal with |- context [if ?b then _ else _] => destruct b end; reflexivity.
Qed.

Lemma ctl_requests s s' : ctl s' = ctl s -> requests s' = requests s.
Proof. unfold ctl. congruence. Qed.

Lemma ctl_timers s s' : ctl s' = ctl s -> timers s' = timers s.
Proof. unfold ctl. congruence. Qed.

Lemma ctl_nextTimer s s' : ctl s' = ctl s -> nextTimer s' = nextTimer s.
Proof. unfold ctl. congruence. Qed.

(** ** [finalize] *)

Lemma finalize_absent k st b s :
  requests s !! k = None -> finalize k st b s = s.
Proof. intros H. unfold finalize. rewrite H. reflexivity. Qed.

Lemma finalize_responded k st b s rq :
  requests s !! k = Some rq -> responded rq = true -> finalize k st b s = s.
Proof. intros H Hr. unfold finalize. rewrite H, Hr. reflexivity. Qed.

Lemma requests_clearTimer t s : requests (clearTimer t s) = requests s.
Proof. destruct t; reflexivity. Qed.

Lemma nextTimer_clearTimer t s : nextTimer (clearTimer t s) = nextTimer s.
Proof. destruct t; reflexivity. Qed.

Lemma timers_clearTimer_lookup t s h cb :
  timers (clearTimer t s) !! h = Some cb <->
  timers s !! h = Some cb /\ t <> Some h.
Proof.
  destruct t as [h'|]; cbn [clearTimer timers set_timers].
  - rewrite lookup_delete_Some. split.
    + intros [Hne H]. split; [exact H | congruence].
    + intros [H Hne]. split; [congruence | exact H].
  - split; [intros H; split; [exact H | discriminate] | tauto].
Qed.

Lemma finalize_pending k st b s rq :
  requests s !! k = Some rq -> responded rq = false ->
  requests (finalize k st b s)
  = <[k := send {| status := st; body := b |} (mark_responded rq)]> (requests s)
  /\ nextTimer (finalize k st b s) = nextTimer s
  /\ (forall h cb,
         timers (finalize k st b s) !! h = Some cb <->
         timers s !! h = Some cb /\ pollTimer rq <> Some h /\ timeoutTimer rq <> Some h).
Proof.
  intros H Hr. unfold finalize. rewrite H, Hr.
  cbn [requests set_requests nextTimer timers].
  rewrite !requests_clearTimer, !nextTimer_clearTimer.
  cbn [requests set_requests nextTimer].
  split_and!.
  - apply list_eq. intros j. destruct (decide (j = k)) as [->|Hne].
    + rewrite !list_lookup_alter_eq, H.
      rewrite list_lookup_insert_eq; [reflexivity |].
      eapply lookup_lt_Some; eassumption.
    + rewrite !list_lookup_alter_ne, list_lookup_insert_ne by congruence.
      reflexivity.
  - reflexivity.
  - intros h cb. rewrite !timers_clearTimer_lookup.
    cbn [timers set_requests]. tauto.
Qed.

(** What [finalize] of request [k'] does to request [k]. *)
Lemma finalize_lookup k' st b s k rq :
  requests s !! k = Some rq ->
  requests (finalize k' st b s) !! k
  = Some (if bool_decide (k' = k) && negb (responded rq)
          then send {| status := st; body := b |} (mark_responded rq)
          else rq).
Proof.
  intros H. destruct (decide (k' = k)) as [->|Hne].
  - rewrite bool_decide_eq_true_2 by reflexivity. cbn [andb].
    destruct (responded rq) eqn:Hr; cbn [negb].
    + rewrite (finalize_responded _ _ _ _ _ H Hr). exact H.
    + destruct (finalize_pending k st b s rq H Hr) as (-> & _).
      apply list_lookup_insert_eq. eapply lookup_lt_Some; eassumption.
  - rewrite bool_decide_eq_false_2 by exact Hne. cbn [andb].
    destruct (requests s !! k') as [rq'|] eqn:H'.
    + destruct (responded rq') eqn:Hr.
      * rewrite (finalize_responded _ _ _ _ _ H' Hr). exact H.
      * destruct (finalize_pending k' st b s rq' H' Hr) as (-> & _).
        rewrite list_lookup_insert_ne by exact Hne. exact H.
    + rewrite (finalize_absent _ _ _ _ H'). exact H.
Qed.

Lemma finalize_nextTimer k st b s : nextTimer (finalize k st b s) = nextTimer s.
Proof.
  destruct (requests s !! k) as [rq|] eqn:H.
  - destruct (responded rq) eqn:Hr.
    + rewrite (finalize_responded _ _ _ _ _ H Hr). reflexivity.
    + apply (finalize_pending k st b s rq H Hr).
  - rewrite (finalize_absent _ _ _ _ H). reflexivity.
Qed.

Lemma finalize_length k st b s :
  length (requests (finalize k st b s)) = length (requests s).
Proof.
  destruct (requests s !! k) as [rq|] eqn:H.
  - destruct (responded rq) eqn:Hr.
    + rewrite (finalize_responded _ _ _ _ _ H Hr). reflexivity.
    + destruct (finalize_pending k st b s rq H Hr) as (-> & _).
      apply length_insert.
  - rewrite (finalize_absent _ _ _ _ H). reflexivity.
Qed.

End Frames.

(** ** One step of the event loop, seen from one start request *)

(** A start request adds a closure when its URL is truthy and
    fluent-ffmpeg takes it, and none otherwise. *)
Ltac start_cases url acc Hu Hs :=
  destruct (truthy url && takes_input url acc) eqn:Hs;
  [pose proof (proj1 (proj1 (andb_true_iff _ _) Hs)) as Hu |].

Section Steps.

Variable JSON_stringify : list SavedStream -> jsstring.

Lemma ctl_ensureDirectoryExists p s : ctl (ensureDirectoryExists p s) = ctl s.
Proof.
  unfold ensureDirectoryExists. destruct (negb (existsSync p s)); reflexivity.
Qed.

(** The closure and the timers a start request that got past both checks
    adds. *)
Lemma ctl_start url l n id now acc s :
  truthy url && takes_input url acc = true ->
  ctl (fst (start_stream url l n id now acc s)) =
  (requests s ++
     [ {| rq_rtspUrl := url; rq_label := l; rq_notes := n; rq_streamId := id;
          rq_playlistPath := stream_dir id ++ [js "playlist.m3u8"];
          responded := false;
          pollTimer := Some (nextTimer s);
          timeoutTimer := Some (S (nextTimer s));
          res := [] |} ],
   <[S (nextTimer s) := DeadlineOf (length (requests s))]>
     (<[nextTimer s := PollOf (length (requests s))]> (timers s)),
   S (S (nextTimer s))).
Proof.
  intros Hs. apply andb_true_iff in Hs as [Hu Ht].
  unfold start_stream. rewrite Hu, Ht. cbn [negb fst].
  pose proof (ctl_ensureDirectoryExists (stream_dir id) s) as E.
  unfold ctl in *. injection E as E1 E2 E3.
  cbn [requests timers nextTimer set_requests set_nextTimer set_timers
       set_activeStreams set_procs].
  rewrite E1, E2, E3. reflexivity.
Qed.

Lemma requests_start url l n id now acc s :
  truthy url && takes_input url acc = true ->
  requests (fst (start_stream url l n id now acc s)) =
  requests s ++
     [ {| rq_rtspUrl := url; rq_label := l; rq_notes := n; rq_streamId := id;
          rq_playlistPath := stream_dir id ++ [js "playlist.m3u8"];
          responded := false;
          pollTimer := Some (nextTimer s);
          timeoutTimer := Some (S (nextTimer s));
          res := [] |} ].
Proof.
  intros Hs. pose proof (ctl_start url l n id now acc s Hs) as E.
  unfold ctl in E. congruence.
Qed.

Lemma timers_start url l n id now acc s :
  truthy url && takes_input url acc = true ->
  timers (fst (start_stream url l n id now acc s)) =
  <[S (nextTimer s) := DeadlineOf (length (requests s))]>
     (<[nextTimer s := PollOf (length (requests s))]> (timers s)).
Proof.
  intros Hs. pose proof (ctl_start url l n id now acc s Hs) as E.
  unfold ctl in E. congruence.
Qed.

Lemma nextTimer_start url l n id now acc s :
  truthy url && takes_input url acc = true ->
  nextTimer (fst (start_stream url l n id now acc s)) = S (S (nextTimer s)).
Proof.
  intros Hs. pose proof (ctl_start url l n id now acc s Hs) as E.
  unfold ctl in E. congruence.
Qed.

Lemma start_rejected url l n id now acc s :
  truthy url = false ->
  start_stream url l n id now acc s
  = (s, Some {| status := 400; body := BError (js "RTSP URL is required") |}).
Proof. intros Hu. unfold start_stream. rewrite Hu. reflexivity. Qed.

(** A start request whose URL fluent-ffmpeg does not take: the directory
    has been made, the handler throws. *)
Lemma start_thrown url l n id now acc s :
  truthy url = true -> takes_input url acc = false ->
  start_stream url l n id now acc s
  = (ensureDirectoryExists (stream_dir id) s,
     Some {| status := 500; body := BUncaught |}).
Proof. intros Hu Ht. unfold start_stream. rewrite Hu, Ht. reflexivity. Qed.

Lemma ctl_start_thrown url l n id now acc s :
  truthy url = true -> takes_input url acc = false ->
  ctl (fst (start_stream url l n id now acc s)) = ctl s.
Proof.
  intros Hu Ht. rewrite (start_thrown _ _ _ _ _ _ _ Hu Ht). cbn [fst].
  apply ctl_ensureDirectoryExists.
Qed.

Lemma ctl_spawn k s : ctl (spawn k s) = ctl s.
Proof.
  unfold spawn. destruct (requests s !! k), (procs s !! k); reflexivity.
Qed.

Lemma store_spawn k s : store (spawn k s) = store s.
Proof.
  unfold spawn. destruct (requests s !! k), (procs s !! k); reflexivity.
Qed.

Lemma activeStreams_spawn k s : activeStreams (spawn k s) = activeStreams s.
Proof.
  unfold spawn. destruct (requests s !! k), (procs s !! k); reflexivity.
Qed.

(** What a start request leaves of the closures and the timers when it
    adds none. *)
Lemma ctl_start_none url l n id now acc s :
  truthy url && takes_input url acc = false ->
  ctl (fst (start_stream url l n id now acc s)) = ctl s.
Proof.
  intros H. destruct (truthy url) eqn:Hu.
  - apply ctl_start_thrown; [exact Hu | exact H].
  - rewrite start_rejected by exact Hu. reflexivity.
Qed.

Lemma on_fail_lookup msg k' s k rq :
  requests s !! k = Some rq ->
  requests
    (match requests s !! k' with
     | Some rq' => finalize k' 500 (BError msg) (cleanupStream (rq_streamId rq') s)
     | None => s
     end) !! k
  = Some (if bool_decide (k' = k) && negb (responded rq)
          then send {| status := 500; body := BError msg |} (mark_responded rq)
          else rq).
Proof.
  intros H. destruct (requests s !! k') as [rq'|] eqn:H'.
  - apply finalize_lookup.
    rewrite (ctl_requests _ _ (ctl_cleanup (rq_streamId rq') s)). exact H.
  - rewrite bool_decide_eq_false_2 by congruence. exact H.
Qed.

Lemma on_deadline_lookup k' s k rq :
  requests s !! k = Some rq ->
  requests (on_deadline k' s) !! k
  = Some (if bool_decide (k' = k) && negb (responded rq)
          then send {| status := 500;
                       body := BError (js "Stream startup timed out") |}
                 (mark_responded rq)
          else rq).
Proof. apply on_fail_lookup. Qed.

Lemma on_error_lookup k' s k rq :
  requests s !! k = Some rq ->
  requests (on_error k' s) !! k
  = Some (if bool_decide (k' = k) && negb (responded rq)
          then send {| status := 500;
                       body := BError
                         (js "Failed to start stream - check RTSP URL and credentials") |}
                 (mark_responded rq)
          else rq).
Proof. apply on_fail_lookup. Qed.

Lemma on_end_lookup k' s k rq :
  requests s !! k = Some rq ->
  requests (on_end k' s) !! k
  = Some (if bool_decide (k' = k) && negb (responded rq)
          then send {| status := 500;
                       body := BError (js "Stream ended before startup completed") |}
                 (mark_responded rq)
          else rq).
Proof. apply on_fail_lookup. Qed.

Lemma on_poll_lookup k' now s k rq :
  requests s !! k = Some rq ->
  requests (on_poll JSON_stringify k' now s) !! k
  = Some (if bool_decide (k' = k) && existsSync (rq_playlistPath rq) s
             && negb (responded rq)
          then send {| status := 200;
                       body := BStarted (rq_streamId rq)
                                 (sanitizeText (rq_label rq) 60)
                                 (sanitizeText (rq_notes rq) 280) |}
                 (mark_responded rq)
          else rq).
Proof.
  intros H. unfold on_poll. destruct (decide (k' = k)) as [->|Hne].
  - rewrite H, bool_decide_eq_true_2 by reflexivity. cbn [andb].
    destruct (existsSync (rq_playlistPath rq) s); [| exact H].
    erewrite finalize_lookup.
    + rewrite bool_decide_eq_true_2 by reflexivity. reflexivity.
    + rewrite (ctl_requests _ _ (ctl_upsert _ _ _ _ _ _ s)). exact H.
  - rewrite bool_decide_eq_false_2 by exact Hne. cbn [andb].
    destruct (requests s !! k') as [rq'|] eqn:H'; [| exact H].
    destruct (existsSync (rq_playlistPath rq') s); [| exact H].
    erewrite finalize_lookup.
    + rewrite bool_decide_eq_false_2 by exact Hne. reflexivity.
    + rewrite (ctl_requests _ _ (ctl_upsert _ _ _ _ _ _ s)). exact H.
Qed.

(** A request that exists keeps its place, whatever happens. *)
Lemma step_lookup k e s rq :
  requests s !! k = Some rq ->
  match trigger k e s with
  | Some o =>
      exists r, outcome r = Some o
        /\ requests (step JSON_stringify e s) !! k
           = Some (if responded rq then rq else send r (mark_responded rq))
  | None => requests (step JSON_stringify e s) !! k = Some rq
  end.
Proof.
  intros H. destruct e as [url l n id nowMs acc | h now | k' | k' | k' | id
                          | url l n | id iso | job now | job | w | k'];
    cbn [trigger step].
  - start_cases url acc Hu Hs.
    + rewrite (requests_start url l n id nowMs acc s Hs).
      apply lookup_app_l_Some. exact H.
    + rewrite (ctl_requests _ _ (ctl_start_none _ l n id nowMs _ s Hs)). exact H.
  - unfold fire_timer. destruct (timers s !! h) as [[k'|k']|] eqn:Ht.
    + rewrite H. rewrite (on_poll_lookup k' now s k rq H).
      destruct (bool_decide (k' = k) && existsSync (rq_playlistPath rq) s) eqn:E.
      * exists {| status := 200;
                  body := BStarted (rq_streamId rq) (sanitizeText (rq_label rq) 60)
                            (sanitizeText (rq_notes rq) 280) |}.
        split; [reflexivity |]. cbn [andb].
        destruct (responded rq); reflexivity.
      * reflexivity.
    + rewrite (on_deadline_lookup k' _ k rq) by exact H.
      destruct (bool_decide (k' = k)); cbn [andb]; [| reflexivity].
      exists {| status := 500; body := BError (js "Stream startup timed out") |}.
      split; [vm_compute; reflexivity |]. destruct (responded rq); reflexivity.
    + exact H.
  - rewrite (ctl_requests _ _ (ctl_write_manifest k' s)). exact H.
  - rewrite (on_error_lookup k' _ k rq) by exact H.
    destruct (bool_decide (k' = k)); cbn [andb]; [| reflexivity].
    exists {| status := 500;
              body := BError
                (js "Failed to start stream - check RTSP URL and credentials") |}.
    split; [vm_compute; reflexivity |]. destruct (responded rq); reflexivity.
  - rewrite (on_end_lookup k' _ k rq) by exact H.
    destruct (bool_decide (k' = k)); cbn [andb]; [| reflexivity].
    exists {| status := 500;
              body := BError (js "Stream ended before startup completed") |}.
    split; [vm_compute; reflexivity |]. destruct (responded rq); reflexivity.
  - rewrite (ctl_requests _ _ (ctl_stop id s)). exact H.
  - rewrite (ctl_requests _ _ (ctl_update JSON_stringify url l n s)). exact H.
  - rewrite ctl_screenshot. exact H.
  - cbn [capture_on_end fst].
    rewrite (ctl_requests _ _ (ctl_addScreenshot JSON_stringify _ _ _ _ s)).
    exact H.
  - exact H.
  - exact H.
  - rewrite (ctl_requests _ _ (ctl_spawn k' s)). exact H.
Qed.

End Steps.

(** ** The timers of an unanswered start request stay armed *)

Section Timers.

Variable JSON_stringify : list SavedStream -> jsstring.

Lemma timers_inv_ctl s s' : ctl s' = ctl s -> timers_inv s -> timers_inv s'.
Proof.
  intros E [Ha Hb]. unfold timers_inv, armed.
  rewrite (ctl_requests _ _ E), (ctl_timers _ _ E), (ctl_nextTimer _ _ E).
  split; assumption.
Qed.

(** Request [k] gets answered, and only timers of request [k] go. *)
Lemma timers_inv_resolve s s' k :
  timers_inv s ->
  nextTimer s' = nextTimer s ->
  (forall h cb, timers s' !! h = Some cb -> timers s !! h = Some cb) ->
  (forall h cb, timers s !! h = Some cb -> owner cb <> k -> timers s' !! h = Some cb) ->
  (forall k', k' <> k -> requests s' !! k' = requests s !! k') ->
  (forall rq', requests s' !! k = Some rq' -> responded rq' = true) ->
  timers_inv s'.
Proof.
  intros [Ha Hb] Hn Hsub Hkeep Hother Hk. split.
  - intros k' rq' H' Hr. destruct (decide (k' = k)) as [->|Hne].
    + rewrite (Hk rq' H') in Hr. discriminate.
    + rewrite (Hother k' Hne) in H'.
      destruct (Ha k' rq' H' Hr) as (h1 & h2 & Hp & Ht & H1 & H2).
      exists h1, h2. split_and!; try assumption.
      * apply Hkeep; [exact H1 | exact Hne].
      * apply Hkeep; [exact H2 | exact Hne].
  - intros h cb H. rewrite Hn. eapply Hb. apply Hsub. exact H.
Qed.

Lemma timers_inv_finalize s s1 k st b :
  timers_inv s ->
  requests s1 = requests s ->
  nextTimer s1 = nextTimer s ->
  (forall h cb, timers s1 !! h = Some cb -> timers s !! h = Some cb) ->
  (forall h cb, timers s !! h = Some cb -> owner cb <> k -> timers s1 !! h = Some cb) ->
  timers_inv (finalize k st b s1).
Proof.
  intros Hinv Hrq Hn Hsub Hkeep.
  destruct (requests s1 !! k) as [rq|] eqn:H1.
  - destruct (responded rq) eqn:Hr.
    + rewrite (finalize_responded _ _ _ _ _ H1 Hr).
      apply (timers_inv_resolve s s1 k); try assumption.
      * intros k' _. rewrite Hrq. reflexivity.
      * intros rq' H'. congruence.
    + destruct (finalize_pending k st b s1 rq H1 Hr) as (Erq & En & Et).
      apply (timers_inv_resolve s _ k); try assumption.
      * congruence.
      * intros h cb H. apply Et in H as (H & _). apply Hsub. exact H.
      * intros h cb H Ho. apply Et. split; [apply Hkeep; assumption |].
        destruct Hinv as [Ha _]. rewrite Hrq in H1.
        destruct (Ha k rq H1 Hr) as (h1 & h2 & Hp & Htm & Hl1 & Hl2).
        rewrite Hp, Htm. split; intros [= ->].
        -- rewrite Hl1 in H. injection H as <-. apply Ho. reflexivity.
        -- rewrite Hl2 in H. injection H as <-. apply Ho. reflexivity.
      * intros k' Hne. rewrite Erq, list_lookup_insert_ne by congruence.
        rewrite Hrq. reflexivity.
      * intros rq'. rewrite Erq.
        rewrite list_lookup_insert_eq by (eapply lookup_lt_Some; eassumption).
        intros [= <-]. reflexivity.
  - rewrite (finalize_absent _ _ _ _ H1).
    apply (timers_inv_resolve s s1 k); try assumption.
    + intros k' _. rewrite Hrq. reflexivity.
    + intros rq' H'. congruence.
Qed.

Lemma timers_inv_finalize_ctl s s1 k st b :
  timers_inv s -> ctl s1 = ctl s -> timers_inv (finalize k st b s1).
Proof.
  intros Hinv E.
  apply (timers_inv_finalize s s1 k); try assumption.
  - apply (ctl_requests _ _ E).
  - apply (ctl_nextTimer _ _ E).
  - intros h cb. rewrite (ctl_timers _ _ E). tauto.
  - intros h cb H _. rewrite (ctl_timers _ _ E). exact H.
Qed.

Lemma timers_inv_start url l n id now acc s :
  timers_inv s -> timers_inv (fst (start_stream url l n id now acc s)).
Proof.
  intros Hinv. destruct (truthy url && takes_input url acc) eqn:Hs.
  2:{ apply (timers_inv_ctl s); [| exact Hinv].
      apply ctl_start_none. exact Hs. }
  destruct Hinv as [Ha Hb].
  unfold timers_inv, armed.
  rewrite (requests_start _ _ _ _ _ _ _ Hs), (timers_start _ _ _ _ _ _ _ Hs),
    (nextTimer_start _ _ _ _ _ _ _ Hs).
  split.
  - intros k rq H Hr. apply lookup_app_Some in H as [H | [Hlen H]].
    + destruct (Ha k rq H Hr) as (h1 & h2 & Hp & Ht & H1 & H2).
      exists h1, h2. split_and!; try assumption.
      * pose proof (Hb _ _ H1).
        rewrite !lookup_insert_ne by lia. exact H1.
      * pose proof (Hb _ _ H2).
        rewrite !lookup_insert_ne by lia. exact H2.
    + assert (k = length (requests s)) as ->.
      { apply lookup_lt_Some in H. simpl in H. lia. }
      rewrite Nat.sub_diag in H. injection H as <-.
      exists (nextTimer s), (S (nextTimer s)). split_and!; try reflexivity.
      * rewrite lookup_insert_ne by lia. apply lookup_insert_eq.
      * apply lookup_insert_eq.
  - intros h cb H.
    apply lookup_insert_Some in H as [[<- _] | [_ H]]; [lia |].
    apply lookup_insert_Some in H as [[<- _] | [_ H]]; [lia |].
    pose proof (Hb _ _ H). lia.
Qed.

Lemma timers_inv_on_fail msg k s s1 :
  timers_inv s -> ctl s1 = ctl s ->
  timers_inv
    (match requests s1 !! k with
     | Some rq => finalize k 500 (BError msg) (cleanupStream (rq_streamId rq) s1)
     | None => s1
     end).
Proof.
  intros Hinv E. destruct (requests s1 !! k) as [rq|].
  - apply (timers_inv_finalize_ctl s); [exact Hinv |].
    rewrite ctl_cleanup. exact E.
  - apply (timers_inv_ctl s); assumption.
Qed.

Lemma timers_inv_fire h now s :
  timers_inv s -> timers_inv (fire_timer JSON_stringify h now s).
Proof.
  intros Hinv. unfold fire_timer.
  destruct (timers s !! h) as [[k|k]|] eqn:Hh; [| | exact Hinv].
  - unfold on_poll. destruct (requests s !! k) as [rq|]; [| exact Hinv].
    destruct (existsSync (rq_playlistPath rq) s); [| exact Hinv].
    apply (timers_inv_finalize_ctl s); [exact Hinv |]. apply ctl_upsert.
  - unfold on_deadline. cbn [requests set_timers].
    destruct (requests s !! k) as [rq|] eqn:Hk.
    + apply (timers_inv_finalize s); try exact Hinv.
      * rewrite (ctl_requests _ _ (ctl_cleanup _ _)). reflexivity.
      * rewrite (ctl_nextTimer _ _ (ctl_cleanup _ _)). reflexivity.
      * intros h' cb. rewrite (ctl_timers _ _ (ctl_cleanup _ _)).
        cbn [timers set_timers]. rewrite lookup_delete_Some. tauto.
      * intros h' cb H Ho. rewrite (ctl_timers _ _ (ctl_cleanup _ _)).
        cbn [timers set_timers]. apply lookup_delete_Some.
        split; [| exact H]. intros <-. rewrite Hh in H. injection H as <-.
        apply Ho. reflexivity.
    + apply (timers_inv_resolve s _ k); try exact Hinv.
      * reflexivity.
      * intros h' cb. cbn [timers set_timers]. rewrite lookup_delete_Some. tauto.
      * intros h' cb H Ho. cbn [timers set_timers]. apply lookup_delete_Some.
        split; [| exact H]. intros <-. rewrite Hh in H. injection H as <-.
        apply Ho. reflexivity.
      * reflexivity.
      * intros rq'. cbn [requests set_timers]. congruence.
Qed.

Lemma timers_inv_step e s :
  timers_inv s -> timers_inv (step JSON_stringify e s).
Proof.
  intros Hinv. destruct e as [url l n id nowMs acc | h now | k' | k' | k' | id
                             | url l n | id iso | job now | job | w | k'];
    cbn [step].
  - apply timers_inv_start. exact Hinv.
  - apply timers_inv_fire. exact Hinv.
  - apply (timers_inv_ctl s); [apply ctl_write_manifest | exact Hinv].
  - apply (timers_inv_on_fail _ k' s); [exact Hinv | reflexivity].
  - apply (timers_inv_on_fail _ k' s); [exact Hinv | reflexivity].
  - apply (timers_inv_ctl s); [apply ctl_stop | exact Hinv].
  - apply (timers_inv_ctl s); [apply ctl_update | exact Hinv].
  - rewrite ctl_screenshot. exact Hinv.
  - apply (timers_inv_ctl s); [apply ctl_addScreenshot | exact Hinv].
  - exact Hinv.
  - exact Hinv.
  - apply (timers_inv_ctl s); [apply ctl_spawn | exact Hinv].
Qed.

Lemma run_snoc es e s :
  run JSON_stringify (es ++ [e]) s
  = step JSON_stringify e (run JSON_stringify es s).
Proof. unfold run. rewrite fold_left_app. reflexivity. Qed.

Lemma run_app es es' s :
  run JSON_stringify (es ++ es') s
  = run JSON_stringify es' (run JSON_stringify es s).
Proof. unfold run. apply fold_left_app. Qed.

Lemma timers_inv_run es s :
  timers_inv s -> timers_inv (run JSON_stringify es s).
Proof.
  intros Hinv. induction es as [|e es IH] using rev_ind; [exact Hinv |].
  rewrite run_snoc. apply timers_inv_step. exact IH.
Qed.

(** The server starts with no start request and no timer. *)
Lemma boot_initial JSON_parse file writable disk s :
  boot JSON_parse file writable disk = Return s ->
  requests s = [] /\ timers s = ∅ /\ activeStreams s = ∅.
Proof.
  unfold boot. destruct (loadSavedStreams JSON_parse file) as [saved|e];
    [| discriminate].
  cbn. intros [= <-].
  match goal with
  | |- context [ensureDirectoryExists streams_root ?b] => set (base := b)
  end.
  assert (ctl (ensureDirectoryExists CAPTURES_DIR
                 (ensureDirectoryExists streams_root base)) = ctl base) as E
      by (rewrite !ctl_ensureDirectoryExists; reflexivity).
  split_and!.
  - apply (ctl_requests _ _ E).
  - apply (ctl_timers _ _ E).
  - unfold ensureDirectoryExists.
    repeat match goal with |- context [if ?b then _ else _] => destruct b end;
      reflexivity.
Qed.

Lemma timers_inv_initial s :
  requests s = [] -> timers s = ∅ -> timers_inv s.
Proof.
  intros Hr Ht. split.
  - intros k rq. rewrite Hr, lookup_nil. discriminate.
  - intros h cb. rewrite Ht, lookup_empty. discriminate.
Qed.

End Timers.

(** ** Exactly one response to a start request *)

Section ExactlyOnce.

Variable JSON_stringify : list SavedStream -> jsstring.

Lemma on_fail_length msg k s :
  length (requests
            (match requests s !! k with
             | Some rq =>
                 finalize k 500 (BError msg) (cleanupStream (rq_streamId rq) s)
             | None => s
             end))
  = length (requests s).
Proof.
  destruct (requests s !! k) as [rq|]; [| reflexivity].
  rewrite finalize_length, (ctl_requests _ _ (ctl_cleanup _ _)). reflexivity.
Qed.

Lemma fire_timer_length h now s :
  length (requests (fire_timer JSON_stringify h now s)) = length (requests s).
Proof.
  unfold fire_timer. destruct (timers s !! h) as [[k|k]|]; [| | reflexivity].
  - unfold on_poll. destruct (requests s !! k) as [rq|]; [| reflexivity].
    destruct (existsSync (rq_playlistPath rq) s); [| reflexivity].
    rewrite finalize_length, (ctl_requests _ _ (ctl_upsert _ _ _ _ _ _ _)).
    reflexivity.
  - apply (on_fail_length _ k (set_timers (delete h) s)).
Qed.

(** Only a start request that got past both checks adds a closure, and
    the closure starts unanswered with nothing sent. *)
Lemma step_requests_shape e s :
  length (requests (step JSON_stringify e s)) = length (requests s)
  \/ exists rq0,
      requests (step JSON_stringify e s) = requests s ++ [rq0]
      /\ responded rq0 = false /\ res rq0 = [].
Proof.
  destruct e as [url l n id nowMs acc | h now | k' | k' | k' | id
                | url l n | id iso | job now | job | w | k'];
    cbn [step].
  - start_cases url acc Hu Hs.
    + right. eexists. split; [apply (requests_start _ _ _ _ _ _ _ Hs) |].
      split; reflexivity.
    + left. rewrite (ctl_requests _ _ (ctl_start_none _ l n id nowMs _ s Hs)).
      reflexivity.
  - left. apply fire_timer_length.
  - left. rewrite (ctl_requests _ _ (ctl_write_manifest k' s)). reflexivity.
  - left. apply (on_fail_length _ k' (set_procs _ s)).
  - left. apply (on_fail_length _ k' (set_procs _ s)).
  - left. rewrite (ctl_requests _ _ (ctl_stop id s)). reflexivity.
  - left. rewrite (ctl_requests _ _ (ctl_update JSON_stringify url l n s)).
    reflexivity.
  - left. rewrite ctl_screenshot. reflexivity.
  - left. cbn [capture_on_end fst].
    rewrite (ctl_requests _ _ (ctl_addScreenshot JSON_stringify _ _ _ _ s)).
    reflexivity.
  - left. reflexivity.
  - left. reflexivity.
  - left. rewrite (ctl_requests _ _ (ctl_spawn k' s)). reflexivity.
Qed.

Lemma step_new k e s rq :
  requests s !! k = None ->
  requests (step JSON_stringify e s) !! k = Some rq ->
  responded rq = false /\ res rq = [].
Proof.
  intros Hnone H. apply lookup_ge_None in Hnone.
  destruct (step_requests_shape e s) as [Hlen | (rq0 & E & Hr & Hres)].
  - apply lookup_lt_Some in H. lia.
  - rewrite E in H. apply lookup_app_Some in H as [H | [_ H]].
    + apply lookup_lt_Some in H. lia.
    + apply list_lookup_singleton_Some in H as [_ <-]. split; assumption.
Qed.

Lemma settled_answer r rq :
  settled rq -> responded rq = false -> settled (send r (mark_responded rq)).
Proof.
  unfold settled. intros H Hr. rewrite Hr in H. cbn. rewrite H. reflexivity.
Qed.

Lemma settled_step e s :
  (forall k rq, requests s !! k = Some rq -> settled rq) ->
  forall k rq, requests (step JSON_stringify e s) !! k = Some rq -> settled rq.
Proof.
  intros Hs k rq H. destruct (requests s !! k) as [rq1|] eqn:H1.
  - pose proof (step_lookup JSON_stringify k e s rq1 H1) as L.
    destruct (trigger k e s) as [o|].
    + destruct L as (r & _ & L). rewrite L in H. injection H as <-.
      destruct (responded rq1) eqn:Hr; [apply (Hs k); exact H1 |].
      apply settled_answer; [apply (Hs k); exact H1 | exact Hr].
    + rewrite L in H. injection H as <-. apply (Hs k). exact H1.
  - destruct (step_new k e s rq H1 H) as [Hr Hres].
    unfold settled. rewrite Hr. exact Hres.
Qed.

Lemma settled_run es s :
  (forall k rq, requests s !! k = Some rq -> settled rq) ->
  forall k rq, requests (run JSON_stringify es s) !! k = Some rq -> settled rq.
Proof.
  intros Hs. induction es as [|e es IH] using rev_ind; [exact Hs |].
  rewrite run_snoc. apply settled_step. exact IH.
Qed.

(** An answered request is left alone by everything that follows. *)
Lemma answered_step e s k rq :
  requests s !! k = Some rq -> responded rq = true ->
  requests (step JSON_stringify e s) !! k = Some rq.
Proof.
  intros H Hr. pose proof (step_lookup JSON_stringify k e s rq H) as L.
  destruct (trigger k e s) as [o|]; [| exact L].
  destruct L as (r & _ & L). rewrite Hr in L. exact L.
Qed.

Lemma answered_run es s k rq :
  requests s !! k = Some rq -> responded rq = true ->
  requests (run JSON_stringify es s) !! k = Some rq.
Proof.
  intros H Hr. induction es as [|e es IH] using rev_ind; [exact H |].
  rewrite run_snoc. apply answered_step; assumption.
Qed.

(** The first trigger of an unanswered request answers it. *)
Lemma trigger_answers e s k o :
  (forall k rq, requests s !! k = Some rq -> settled rq) ->
  pending k s = true ->
  trigger k e s = Some o ->
  exists rq r,
    requests (step JSON_stringify e s) !! k = Some rq
    /\ responded rq = true /\ res rq = [r] /\ outcome r = Some o.
Proof.
  intros Hs Hp Ht. unfold pending in Hp.
  destruct (requests s !! k) as [rq1|] eqn:H1; [| discriminate].
  apply negb_true_iff in Hp.
  pose proof (step_lookup JSON_stringify k e s rq1 H1) as L.
  rewrite Ht in L. destruct L as (r & Ho & L). rewrite Hp in L.
  exists (send r (mark_responded rq1)), r. split_and!; try assumption.
  - reflexivity.
  - pose proof (Hs k rq1 H1) as S1. unfold settled in S1. rewrite Hp in S1.
    cbn. rewrite S1. reflexivity.
Qed.

(** Every response that was sent came from a trigger that found the
    request unanswered. *)
Lemma response_from_trigger es s0 k rq r :
  requests s0 = [] ->
  requests (run JSON_stringify es s0) !! k = Some rq ->
  r ∈ res rq ->
  exists pre e post o,
    es = pre ++ e :: post
    /\ pending k (run JSON_stringify pre s0) = true
    /\ trigger k e (run JSON_stringify pre s0) = Some o
    /\ outcome r = Some o.
Proof.
  intros H0. revert rq. induction es as [|e es IH] using rev_ind; intros rq H Hin.
  - cbn in H. rewrite H0 in H. discriminate.
  - rewrite run_snoc in H.
    set (s := run JSON_stringify es s0) in *.
    assert (forall rq1, requests s !! k = Some rq1 -> r ∈ res rq1 ->
            exists pre e0 post o,
              es ++ [e] = pre ++ e0 :: post
              /\ pending k (run JSON_stringify pre s0) = true
              /\ trigger k e0 (run JSON_stringify pre s0) = Some o
              /\ outcome r = Some o) as Hold.
    { intros rq1 H1 Hin1.
      destruct (IH rq1 H1 Hin1) as (pre & e0 & post & o & -> & Hp & Ht & Ho).
      exists pre, e0, (post ++ [e]), o. rewrite <- app_assoc. auto. }
    destruct (requests s !! k) as [rq1|] eqn:H1.
    + pose proof (step_lookup JSON_stringify k e s rq1 H1) as L.
      destruct (trigger k e s) as [o|] eqn:Ht.
      * destruct L as (r' & Ho & L). rewrite L in H. injection H as <-.
        destruct (responded rq1) eqn:Hr; [apply (Hold rq1); auto |].
        assert (settled rq1) as S1.
        { apply (settled_run es s0) with (k := k); [| exact H1].
          intros k' rq'. rewrite H0. discriminate. }
        unfold settled in S1. rewrite Hr in S1.
        cbn in Hin. rewrite S1 in Hin. apply list_elem_of_singleton in Hin as ->.
        exists es, e, [], o. split_and!; try assumption; [reflexivity |].
        unfold pending. fold s. rewrite H1, Hr. reflexivity.
      * rewrite L in H. injection H as <-. apply (Hold rq1); auto.
    + destruct (step_new k e s rq H1 H) as [_ Hres].
      rewrite Hres in Hin. apply elem_of_nil in Hin. contradiction.
Qed.

(** C1.  From a server with no start request yet, after any sequence of
    events, every start request has sent at most one response; if one of
    its four triggers (its poll finding the playlist, its process's error
    event, its process's end event, its deadline) arrived while it was
    unanswered, it has sent exactly one response, the one of that trigger,
    whatever arrived later; every response it has sent is the one of such a
    trigger, so is one of ready, failed and timed out; and while it has
    sent none its deadline timer is live, so a trigger is still to come. *)
Theorem start_request_answered_exactly_once
  (s0 : Server) (es : list Event) (k : nat) (rq : StartRequest) :
  requests s0 = [] ->
  timers s0 = ∅ ->
  requests (run JSON_stringify es s0) !! k = Some rq ->
  (length (res rq) <= 1)%nat
  /\ (forall pre e post o,
         es = pre ++ e :: post ->
         pending k (run JSON_stringify pre s0) = true ->
         trigger k e (run JSON_stringify pre s0) = Some o ->
         exists r, res rq = [r] /\ outcome r = Some o)
  /\ (forall r, r ∈ res rq ->
         exists pre e post o,
           es = pre ++ e :: post
           /\ pending k (run JSON_stringify pre s0) = true
           /\ trigger k e (run JSON_stringify pre s0) = Some o
           /\ outcome r = Some o)
  /\ (res rq = [] ->
      exists h,
        timeoutTimer rq = Some h
        /\ forall now,
             trigger k (EvTimer h now) (run JSON_stringify es s0) = Some TimedOut).
Proof.
  intros H0 T0 H.
  assert (forall es' k' rq',
             requests (run JSON_stringify es' s0) !! k' = Some rq' -> settled rq')
    as Hset.
  { intros es'. apply settled_run. intros k' rq'. rewrite H0. discriminate. }
  pose proof (Hset es k rq H) as S.
  split_and!.
  - unfold settled in S. destruct (responded rq); [lia | rewrite S; simpl; lia].
  - intros pre e post o -> Hp Ht.
    destruct (trigger_answers e (run JSON_stringify pre s0) k o (Hset pre) Hp Ht)
      as (rq1 & r & H1 & Hr & Hres & Ho).
    exists r. split; [| exact Ho].
    change (pre ++ e :: post) with (pre ++ [e] ++ post) in H.
    rewrite app_assoc, run_app, run_snoc in H.
    rewrite (answered_run post _ k rq1 H1 Hr) in H. injection H as <-. exact Hres.
  - intros r Hin. eapply response_from_trigger; eassumption.
  - intros Hres. unfold settled in S.
    destruct (responded rq) eqn:Hr; [rewrite Hres in S; discriminate |].
    destruct (timers_inv_run JSON_stringify es s0 (timers_inv_initial s0 H0 T0))
      as [Ha _].
    destruct (Ha k rq H Hr) as (h1 & h2 & _ & Ht & _ & H2).
    exists h2. split; [exact Ht |]. intros now. cbn [trigger].
    rewrite H2, bool_decide_eq_true_2 by reflexivity. reflexivity.
Qed.

End ExactlyOnce.

(** ** The stores each operation leaves alone *)

Section MoreFrames.

Variable JSON_stringify : list SavedStream -> jsstring.

Lemma sessions_persist s : sessions (persistSavedStreams JSON_stringify s) = sessions s.
Proof. unfold persistSavedStreams. destruct (diskWritable s); reflexivity. Qed.

Lemma sessions_upsert url id ml mn now s :
  sessions (upsertSavedStream JSON_stringify url id ml mn now s) = sessions s.
Proof.
  unfold upsertSavedStream. rewrite sessions_persist.
  destruct (find_saved url (savedStreams s)) as [[i r]|]; reflexivity.
Qed.

Lemma sessions_addScreenshot url id f now s :
  sessions (addScreenshotRecord JSON_stringify url id f now s) = sessions s.
Proof.
  unfold addScreenshotRecord.
  destruct (find_saved url (savedStreams s)) as [[i r]|];
    rewrite sessions_persist; reflexivity.
Qed.

Lemma sessions_update url l n s :
  sessions (fst (update_saved_stream JSON_stringify url l n s)) = sessions s.
Proof.
  unfold update_saved_stream. destruct (truthy url); [| reflexivity].
  destruct (find_saved url (savedStreams s)) as [[i r]|]; simpl;
    rewrite sessions_persist; reflexivity.
Qed.

Lemma sessions_finalize k st b s : sessions (finalize k st b s) = sessions s.
Proof.
  unfold finalize. destruct (requests s !! k) as [rq|]; [| reflexivity].
  destruct (responded rq); [reflexivity |].
  destruct (pollTimer rq), (timeoutTimer rq); reflexivity.
Qed.

Lemma store_finalize k st b s : store (finalize k st b s) = store s.
Proof.
  unfold finalize. destruct (requests s !! k) as [rq|]; [| reflexivity].
  destruct (responded rq); [reflexivity |].
  destruct (pollTimer rq), (timeoutTimer rq); reflexivity.
Qed.

Lemma store_cleanup id s : store (cleanupStream id s) = store s.
Proof.
  unfold cleanupStream. destruct (activeStreams s !! id); [| reflexivity].
  match goal with |- context [if ?b then _ else _] => destruct b end; reflexivity.
Qed.

Lemma store_stop id s : store (fst (stop_stream id s)) = store s.
Proof.
  unfold stop_stream. destruct (activeStreams s !! id); [| reflexivity].
  apply store_cleanup.
Qed.

Lemma store_start url l n id now acc s :
  store (fst (start_stream url l n id now acc s)) = store s.
Proof.
  unfold start_stream, ensureDirectoryExists.
  destruct (truthy url); [| reflexivity]. cbn [negb fst].
  destruct (takes_input url acc), (negb (existsSync (stream_dir id) s));
    reflexivity.
Qed.

Lemma store_write_manifest k s : store (write_manifest k s) = store s.
Proof.
  unfold write_manifest. destruct (requests s !! k); [| reflexivity].
  match goal with |- context [if ?b then _ else _] => destruct b end; reflexivity.
Qed.

Lemma store_on_fail msg k s :
  store (match requests s !! k with
         | Some rq => finalize k 500 (BError msg) (cleanupStream (rq_streamId rq) s)
         | None => s
         end) = store s.
Proof.
  destruct (requests s !! k); [| reflexivity].
  rewrite store_finalize. apply store_cleanup.
Qed.

Lemma store_savedStreams s s' : store s' = store s -> savedStreams s' = savedStreams s.
Proof. unfold store. congruence. Qed.

Lemma sessions_activeStreams s s' :
  sessions s' = sessions s -> activeStreams s' = activeStreams s.
Proof. unfold sessions. congruence. Qed.



(** ** [cleanupStream] *)

Lemma cleanup_absent id s :
  activeStreams s !! id = None -> cleanupStream id s = s.
Proof. intros H. unfold cleanupStream. rewrite H. reflexivity. Qed.

Lemma activeStreams_cleanup id s :
  activeStreams (cleanupStream id s) = delete id (activeStreams s).
Proof.
  unfold cleanupStream. destruct (activeStreams s !! id) eqn:H.
  - match goal with |- context [if ?b then _ else _] => destruct b end; reflexivity.
  - symmetry. apply delete_id. exact H.
Qed.

Lemma rmSync_gone (p q : path) s :
  p `prefix_of` q -> existsSync q (rmSync p s) = false.
Proof.
  intros Hp. unfold existsSync, rmSync. cbn [paths set_paths].
  apply bool_decide_eq_false. rewrite elem_of_filter. tauto.
Qed.

Lemma paths_cleanup_registered id info s :
  activeStreams s !! id = Some info ->
  paths (cleanupStream id s)
  = if existsSync (stream_dir id) s
    then filter (fun q => ¬ stream_dir id `prefix_of` q) (paths s)
    else paths s.
Proof.
  intros H. unfold cleanupStream. rewrite H.
  change (existsSync (stream_dir id) (set_procs (alter kill (ffmpegProcess info)) s))
    with (existsSync (stream_dir id) s).
  destruct (existsSync (stream_dir id) s); reflexivity.
Qed.

Lemma procs_cleanup_registered id info s :
  activeStreams s !! id = Some info ->
  procs (cleanupStream id s) = alter kill (ffmpegProcess info) (procs s).
Proof.
  intros H. unfold cleanupStream. rewrite H.
  match goal with |- context [if ?b then _ else _] => destruct b end; reflexivity.
Qed.

Lemma cleanup_removes_dir id info s :
  activeStreams s !! id = Some info ->
  existsSync (stream_dir id) (cleanupStream id s) = false.
Proof.
  intros H. unfold existsSync at 1.
  rewrite (paths_cleanup_registered id info s H).
  destruct (existsSync (stream_dir id) s) eqn:E.
  - apply bool_decide_eq_false. rewrite elem_of_filter.
    intros [Hn _]. apply Hn. reflexivity.
  - exact E.
Qed.

Lemma cleanup_idempotent id s :
  cleanupStream id (cleanupStream id s) = cleanupStream id s.
Proof.
  apply cleanup_absent. rewrite activeStreams_cleanup. apply lookup_delete_eq.
Qed.

End MoreFrames.

(** ** Stopping, cleaning up, capturing, loading *)

Section Handlers.

Variable JSON_parse : jsstring -> option JsValue.
Variable JSON_stringify : list SavedStream -> jsstring.

Lemma active_listing_elem id s :
  id ∈ active_listing s <-> is_Some (activeStreams s !! id).
Proof.
  unfold active_listing. rewrite list_elem_of_fmap. split.
  - intros ([id' info] & -> & H). apply elem_of_map_to_list in H. eauto.
  - intros [info H]. exists (id, info). split; [reflexivity |].
    apply elem_of_map_to_list. exact H.
Qed.

(** C5.  Stopping an id that is not registered answers 404 "Stream not
    found" and leaves the whole state as it was; stopping a registered id
    answers success, takes the id out of the registry and of the listing
    of [GET /streams] and removes the session's directory, and stopping the
    same id again answers 404 and changes nothing. *)
Theorem stop_unknown_is_not_found_stop_registered_removes
  (s : Server) (id : jsstring) :
  (activeStreams s !! id = None ->
   stop_stream id s
   = (s, {| status := 404; body := BError (js "Stream not found") |}))
  /\ (forall info,
         activeStreams s !! id = Some info ->
         streamDir info = stream_dir id ->
         exists s',
           stop_stream id s = (s', {| status := 200; body := BStopped |})
           /\ activeStreams s' = delete id (activeStreams s)
           /\ (id ∉ active_listing s')
           /\ existsSync (streamDir info) s' = false
           /\ store s' = store s
           /\ stop_stream id s'
              = (s', {| status := 404; body := BError (js "Stream not found") |})).
Proof.
  split.
  - intros H. unfold stop_stream. rewrite H. reflexivity.
  - intros info H Hdir. exists (cleanupStream id s).
    assert (activeStreams (cleanupStream id s) !! id = None) as Hgone.
    { rewrite activeStreams_cleanup. apply lookup_delete_eq. }
    split_and!.
    + unfold stop_stream. rewrite H. reflexivity.
    + apply activeStreams_cleanup.
    + rewrite active_listing_elem, Hgone. intros [x Hx]. discriminate.
    + rewrite Hdir. eapply cleanup_removes_dir. exact H.
    + apply store_cleanup.
    + unfold stop_stream. rewrite Hgone. reflexivity.
Qed.

(** C6.  A capture for an id that is not registered answers 404 "Stream
    not found"; for a registered session whose playlist does not exist it
    answers 400 "Stream playlist not ready"; when the extraction process
    fails the answer is 500 "Failed to capture screenshot".  In all three
    cases the state, so the saved records and their file, is what it was.
    The handler itself never changes the state; a screenshot record is
    added by the extraction's end event only. *)
Theorem capture_failures_leave_store_alone
  (s : Server) (id iso : jsstring) (job : CaptureJob) :
  (activeStreams s !! id = None ->
   screenshot id iso s
   = (s, inl {| status := 404; body := BError (js "Stream not found") |}))
  /\ (forall info,
         activeStreams s !! id = Some info ->
         existsSync (playlistPath info) s = false ->
         screenshot id iso s
         = (s, inl {| status := 400;
                      body := BError (js "Stream playlist not ready") |}))
  /\ capture_on_error job s
     = (s, {| status := 500; body := BError (js "Failed to capture screenshot") |})
  /\ fst (screenshot id iso s) = s
  /\ (forall now,
         truthy (info_rtspUrl (cap_streamInfo job)) = true ->
         snd (capture_on_end JSON_stringify job now s)
         = {| status := 200;
              body := BCaptured (cap_fileName job)
                        (js "/captures/" ++ cap_fileName job) |}
         /\ saved_screenshots (info_rtspUrl (cap_streamInfo job))
              (fst (capture_on_end JSON_stringify job now s))
            = take 20 (Shot (cap_fileName job) now
                         :: saved_screenshots (info_rtspUrl (cap_streamInfo job)) s)).
Proof.
  split_and!.
  - intros H. unfold screenshot. rewrite H. reflexivity.
  - intros info H Hp. unfold screenshot. rewrite H, Hp. reflexivity.
  - reflexivity.
  - apply ctl_screenshot.
  - intros now Hu. split; [reflexivity |].
    cbn [capture_on_end fst]. apply saved_screenshots_add.
    apply truthy_strict_eq_refl. exact Hu.
Qed.

(** C7.  [cleanupStream] on an id that is not registered, which is what an
    id is once it has been cleaned up, changes nothing, so cleaning up
    twice is cleaning up once; it is a total function, with no error to
    raise.  Terminating a process that has been terminated or has exited
    leaves it as it is. *)
Theorem cleanup_is_idempotent (s : Server) (id : jsstring) (p : ProcState) :
  cleanupStream id (cleanupStream id s) = cleanupStream id s
  /\ (activeStreams s !! id = None -> cleanupStream id s = s)
  /\ activeStreams (cleanupStream id s) !! id = None
  /\ kill (kill p) = kill p
  /\ (p <> Running -> kill p = p).
Proof.
  split_and!.
  - apply cleanup_idempotent.
  - apply cleanup_absent.
  - rewrite activeStreams_cleanup. apply lookup_delete_eq.
  - destruct p; reflexivity.
  - destruct p; [congruence | reflexivity | reflexivity].
Qed.

(** C9.  [loadSavedStreams] returns the empty array when the file is
    missing, when it cannot be read, when its text does not parse and when
    it parses to something that is not an array; and whatever the file
    holds it returns and does not throw. *)
Theorem load_never_throws (file : FileState) :
  loadSavedStreams JSON_parse Missing = Return []
  /\ loadSavedStreams JSON_parse Unreadable = Return []
  /\ (forall text,
         JSON_parse text = None ->
         loadSavedStreams JSON_parse (Content text) = Return [])
  /\ (forall text v,
         JSON_parse text = Some v ->
         (forall a elems, v <> JArray a elems) ->
         loadSavedStreams JSON_parse (Content text) = Return [])
  /\ (exists l, loadSavedStreams JSON_parse file = Return l).
Proof.
  split_and!.
  - reflexivity.
  - reflexivity.
  - intros text H. unfold loadSavedStreams, parse. cbn. rewrite H. reflexivity.
  - intros text v H Hv. unfold loadSavedStreams, parse. cbn. rewrite H. cbn.
    destruct v; try reflexivity. exfalso. eapply Hv. reflexivity.
  - unfold loadSavedStreams. destruct (negb (file_exists file)); [eauto |].
    unfold try_catch.
    match goal with |- context [match ?c with Return _ => _ | Throw _ => _ end] =>
      destruct c end; eauto.
Qed.

End Handlers.

(** ** What the registry and the saved records hold *)

Section Invariants.

Variable JSON_stringify : list SavedStream -> jsstring.

Lemma activeStreams_start url l n id now acc s :
  truthy url && takes_input url acc = true ->
  activeStreams (fst (start_stream url l n id now acc s))
  = <[id := {| info_rtspUrl := url;
               info_label := sanitizeText l 60;
               info_notes := sanitizeText n 280;
               ffmpegProcess := length (requests s);
               streamDir := stream_dir id;
               playlistPath := stream_dir id ++ [js "playlist.m3u8"];
               startTime := now |}]> (activeStreams s).
Proof.
  intros Hs. apply andb_true_iff in Hs as [Hu Ht].
  unfold start_stream, ensureDirectoryExists. rewrite Hu, Ht.
  cbn [negb fst].
  destruct (negb (existsSync (stream_dir id) s)); reflexivity.
Qed.

Lemma activeStreams_start_none url l n id now acc s :
  truthy url && takes_input url acc = false ->
  activeStreams (fst (start_stream url l n id now acc s)) = activeStreams s.
Proof.
  intros H. unfold start_stream, ensureDirectoryExists.
  destruct (truthy url); [| reflexivity].
  cbn [andb] in H. rewrite H. cbn [negb fst].
  destruct (negb (existsSync (stream_dir id) s)); reflexivity.
Qed.

Lemma activeStreams_on_fail msg k s id info :
  activeStreams
    (match requests s !! k with
     | Some rq => finalize k 500 (BError msg) (cleanupStream (rq_streamId rq) s)
     | None => s
     end) !! id = Some info ->
  activeStreams s !! id = Some info.
Proof.
  destruct (requests s !! k) as [rq|]; [| tauto].
  rewrite (sessions_activeStreams _ _ (sessions_finalize _ _ _ _)).
  rewrite activeStreams_cleanup, lookup_delete_Some. tauto.
Qed.

(** A session is in the registry after a step because it was there before
    or because the step is its start request. *)
Lemma step_activeStreams e s id info :
  activeStreams (step JSON_stringify e s) !! id = Some info ->
  activeStreams s !! id = Some info
  \/ exists url l n now acc,
      e = EvStart url l n id now acc
      /\ truthy url && takes_input url acc = true
      /\ info = {| info_rtspUrl := url;
                   info_label := sanitizeText l 60;
                   info_notes := sanitizeText n 280;
                   ffmpegProcess := length (requests s);
                   streamDir := stream_dir id;
                   playlistPath := stream_dir id ++ [js "playlist.m3u8"];
                   startTime := now |}.
Proof.
  destruct e as [url l n id' nowMs acc | h now | k' | k' | k' | id'
                | url l n | id' iso | job now | job | w | k'];
    cbn [step].
  - start_cases url acc Hu Hs.
    + rewrite (activeStreams_start _ _ _ _ _ _ _ Hs).
      rewrite lookup_insert_Some. intros [[<- <-] | [_ H]]; [| left; exact H].
      right. exists url, l, n, nowMs, acc. auto.
    + rewrite (activeStreams_start_none _ _ _ _ _ _ _ Hs). auto.
  - unfold fire_timer. destruct (timers s !! h) as [[k|k]|]; [| | auto].
    + unfold on_poll. destruct (requests s !! k) as [rq|]; [| auto].
      destruct (existsSync (rq_playlistPath rq) s); [| auto].
      rewrite (sessions_activeStreams _ _ (sessions_finalize _ _ _ _)).
      rewrite (sessions_activeStreams _ _
                 (sessions_upsert JSON_stringify _ _ _ _ _ _)).
      auto.
    + intros H. left.
      apply (activeStreams_on_fail _ k (set_timers (delete h) s)) in H. exact H.
  - unfold write_manifest. destruct (requests s !! k'); [| auto].
    match goal with |- context [if ?b then _ else _] => destruct b end; auto.
  - intros H. left.
    apply (activeStreams_on_fail _ k' (set_procs _ s)) in H. exact H.
  - intros H. left.
    apply (activeStreams_on_fail _ k' (set_procs _ s)) in H. exact H.
  - unfold stop_stream. destruct (activeStreams s !! id') eqn:E; [| auto].
    cbn [fst]. rewrite activeStreams_cleanup, lookup_delete_Some. tauto.
  - rewrite (sessions_activeStreams _ _
               (sessions_update JSON_stringify _ _ _ _)). auto.
  - rewrite ctl_screenshot. auto.
  - cbn [capture_on_end fst].
    rewrite (sessions_activeStreams _ _
               (sessions_addScreenshot JSON_stringify _ _ _ _ _)). auto.
  - auto.
  - auto.
  - rewrite activeStreams_spawn. auto.
Qed.

Lemma registry_inv_step e s :
  registry_inv s -> registry_inv (step JSON_stringify e s).
Proof.
  intros Hinv id info H.
  apply step_activeStreams in H as [H | (url & l & n & now & acc & _ & _ & ->)].
  - apply Hinv. exact H.
  - split; reflexivity.
Qed.

Lemma registry_inv_run es s :
  registry_inv s -> registry_inv (run JSON_stringify es s).
Proof.
  intros Hinv. induction es as [|e es IH] using rev_ind; [exact Hinv |].
  rewrite run_snoc. apply registry_inv_step. exact IH.
Qed.

Lemma bounded_sanitize v n : bounded n (JString (sanitizeText v n)).
Proof. eexists. split; [reflexivity | apply sanitizeText_length]. Qed.

Lemma bounded_upsert url id ml mn now s :
  Forall record_bounded (savedStreams s) ->
  Forall record_bounded
    (savedStreams (upsertSavedStream JSON_stringify url id ml mn now s)).
Proof.
  intros Hb. destruct (find_saved url (savedStreams s)) as [[i r]|] eqn:H.
  - rewrite (savedStreams_upsert_found _ _ _ _ _ _ _ _ _ H).
    apply Forall_insert; [exact Hb |].
    apply find_saved_Some in H as [Hl _].
    pose proof (Forall_lookup_1 _ _ _ _ Hb Hl) as [Bl Bn].
    cbn zeta.
    destruct (truthy (JString (sanitizeText ml 60)));
      destruct (truthy (JString (sanitizeText mn 280)));
      split; cbn [label notes with_start with_label with_notes];
      try assumption; apply bounded_sanitize.
  - rewrite (savedStreams_upsert_new _ _ _ _ _ _ _ H).
    apply Forall_app. split; [exact Hb |].
    apply Forall_singleton. split; apply bounded_sanitize.
Qed.

Lemma bounded_update url l n s :
  Forall record_bounded (savedStreams s) ->
  Forall record_bounded
    (savedStreams (fst (update_saved_stream JSON_stringify url l n s))).
Proof.
  intros Hb. destruct (truthy url) eqn:Hu.
  2:{ unfold update_saved_stream. rewrite Hu. exact Hb. }
  destruct (find_saved url (savedStreams s)) as [[i r]|] eqn:H.
  - rewrite (savedStreams_update_found _ _ _ _ _ _ _ Hu H).
    apply Forall_insert; [exact Hb |]. split; apply bounded_sanitize.
  - rewrite (savedStreams_update_new _ _ _ _ _ Hu H).
    apply Forall_app. split; [exact Hb |].
    apply Forall_singleton. split; apply bounded_sanitize.
Qed.

Lemma bounded_addScreenshot url id f now s :
  Forall record_bounded (savedStreams s) ->
  Forall record_bounded
    (savedStreams (addScreenshotRecord JSON_stringify url id f now s)).
Proof.
  intros Hb. destruct (find_saved url (savedStreams s)) as [[i r]|] eqn:H.
  - rewrite (savedStreams_addScreenshot_found _ _ _ _ _ _ _ _ H).
    apply Forall_insert; [exact Hb |].
    apply find_saved_Some in H as [Hl _].
    exact (Forall_lookup_1 _ _ _ _ Hb Hl).
  - rewrite (savedStreams_addScreenshot_new _ _ _ _ _ _ H).
    apply Forall_app. split; [exact Hb |].
    apply Forall_singleton. split; exists []; split; try reflexivity; simpl; lia.
Qed.

Lemma bounded_records_step e s :
  Forall record_bounded (savedStreams s) ->
  Forall record_bounded (savedStreams (step JSON_stringify e s)).
Proof.
  intros Hb.
  destruct e as [url l n id' nowMs acc | h now | k' | k' | k' | id'
                | url l n | id' iso | job now | job | w | k'];
    cbn [step].
  - rewrite (store_savedStreams _ _ (store_start _ _ _ _ _ _ _)). exact Hb.
  - unfold fire_timer. destruct (timers s !! h) as [[k|k]|]; [| | exact Hb].
    + unfold on_poll. destruct (requests s !! k) as [rq|]; [| exact Hb].
      destruct (existsSync (rq_playlistPath rq) s); [| exact Hb].
      rewrite (store_savedStreams _ _ (store_finalize _ _ _ _)).
      apply bounded_upsert. exact Hb.
    + unfold on_deadline.
      rewrite (store_savedStreams _ _
                 (store_on_fail _ k (set_timers (delete h) s))). exact Hb.
  - rewrite (store_savedStreams _ _ (store_write_manifest _ _)). exact Hb.
  - unfold on_error.
    rewrite (store_savedStreams _ _ (store_on_fail _ k' (set_procs _ s))).
    exact Hb.
  - unfold on_end.
    rewrite (store_savedStreams _ _ (store_on_fail _ k' (set_procs _ s))).
    exact Hb.
  - rewrite (store_savedStreams _ _ (store_stop _ _)). exact Hb.
  - apply bounded_update. exact Hb.
  - rewrite ctl_screenshot. exact Hb.
  - apply bounded_addScreenshot. exact Hb.
  - exact Hb.
  - exact Hb.
  - rewrite (store_savedStreams _ _ (store_spawn _ _)). exact Hb.
Qed.

Lemma store_bounded_step e s :
  store_bounded s -> store_bounded (step JSON_stringify e s).
Proof.
  intros [Hb Hr]. split; [apply bounded_records_step; exact Hb |].
  intros id info H.
  apply step_activeStreams in H as [H | (url & l & n & now & acc & _ & _ & ->)].
  - apply (Hr id). exact H.
  - split; apply sanitizeText_length.
Qed.

Lemma store_bounded_run es s :
  store_bounded s -> store_bounded (run JSON_stringify es s).
Proof.
  intros Hinv. induction es as [|e es IH] using rev_ind; [exact Hinv |].
  rewrite run_snoc. apply store_bounded_step. exact IH.
Qed.

End Invariants.

(** ** Sanitized text *)

Section Text.

Variable JSON_stringify : list SavedStream -> jsstring.

Lemma head_take {A} (m : nat) (l : list A) (c : A) :
  head (take m l) = Some c -> head l = Some c.
Proof. destruct m, l; simpl; congruence. Qed.

Lemma find_saved_after_update url l n s :
  truthy url = true ->
  exists i r,
    find_saved url
      (savedStreams (fst (update_saved_stream JSON_stringify url l n s)))
    = Some (i, r)
    /\ label r = JString (sanitizeText l 60)
    /\ notes r = JString (sanitizeText n 280).
Proof.
  intros Hu. destruct (find_saved url (savedStreams s)) as [[i r]|] eqn:H.
  - exists i. eexists. rewrite (savedStreams_update_found _ _ _ _ _ _ _ Hu H).
    split; [apply find_saved_insert with (r := r); [exact H | reflexivity] |].
    split; reflexivity.
  - eexists. eexists. rewrite (savedStreams_update_new _ _ _ _ _ Hu H).
    split; [apply find_saved_snoc; [exact H |] |].
    + apply truthy_strict_eq_refl. exact Hu.
    + split; reflexivity.
Qed.

End Text.

(** C10, as the claim has it, fails: a label of 61 code units whose
    sixtieth is a space is stored with that space at its end. *)
Lemma stored_label_can_end_in_whitespace :
  label <$> savedStreams
              (fst (update_saved_stream no_stringify cam1 long_label JUndefined
                      empty_server))
  = [JString (sanitizeText long_label 60)]
  /\ sanitizeText long_label 60 = replicate 59 97%N ++ [32%N]
  /\ is_whitespace 32 = true
  /\ surrounding_whitespace (sanitizeText long_label 60) = true.
Proof. split_and!; vm_compute; reflexivity. Qed.

(** ** Stopping a session that is still starting *)

Section Stop.

Variable JSON_stringify : list SavedStream -> jsstring.

Lemma finalize_pending_clears k st b s rq h :
  requests s !! k = Some rq -> responded rq = false ->
  pollTimer rq = Some h \/ timeoutTimer rq = Some h ->
  timers (finalize k st b s) !! h = None.
Proof.
  intros H Hr Hh. destruct (finalize_pending k st b s rq H Hr) as (_ & _ & Et).
  destruct (timers (finalize k st b s) !! h) as [cb|] eqn:E; [| reflexivity].
  apply Et in E as (_ & Hp & Ht). destruct Hh; contradiction.
Qed.



End Stop.


(** ** The theorems at sample inputs *)

Lemma store_bounded_empty : store_bounded empty_server.
Proof.
  split; [constructor |]. intros id info. cbn. rewrite lookup_empty. discriminate.
Qed.

Lemma start_request_answered_exactly_once_witness :
  requests empty_server = []
  /\ timers empty_server = ∅
  /\ requests (run no_stringify sample_trace empty_server) !! 0%nat
     = Some sample_answered
  /\ (length (res sample_answered) <= 1)%nat
  /\ (exists r, res sample_answered = [r] /\ outcome r = Some Ready).
Proof.
  assert (requests (run no_stringify sample_trace empty_server) !! 0%nat
          = Some sample_answered) as H by (vm_compute; reflexivity).
  pose proof (start_request_answered_exactly_once no_stringify empty_server
                sample_trace 0 sample_answered eq_refl eq_refl H)
    as (Hle & Hfirst & _ & _).
  split_and!; [reflexivity | reflexivity | exact H | exact Hle |].
  apply (Hfirst [sample_start; EvManifest 0] (EvTimer 0 t0)
           [EvProcEnd 0; EvTimer 1 t1] Ready);
    [reflexivity | vm_compute; reflexivity | vm_compute; reflexivity].
Defined.


Lemma upsert_keeps_metadata_update_overwrites_witness :
  find_saved cam1 (savedStreams sample_saved) = Some (0%nat, sample_record)
  /\ blank (JString (js "   ")) = true
  /\ blank (JNumber 0) = true
  /\ truthy cam1 = true
  /\ (exists r',
         savedStreams
           (upsertSavedStream no_stringify cam1 id1 (JString (js "   "))
              (JNumber 0) t1 sample_saved)
         = <[0%nat := r']> (savedStreams sample_saved)
         /\ label r' = JString (js "Front door")
         /\ notes r' = JString (js "north side")
         /\ lastStreamId r' = JString id1 /\ lastStartedAt r' = JString t1)
  /\ (exists r',
         savedStreams
           (fst (update_saved_stream no_stringify cam1 (JString []) (JString [])
                   sample_saved))
         = <[0%nat := r']> (savedStreams sample_saved)
         /\ label r' = JString [] /\ notes r' = JString []).
Proof.
  assert (find_saved cam1 (savedStreams sample_saved) = Some (0%nat, sample_record))
    as Hf by (vm_compute; reflexivity).
  destruct (upsert_keeps_metadata_update_overwrites no_stringify sample_saved cam1
              id1 t1 (JString (js "   ")) (JNumber 0) 0 sample_record
              Hf eq_refl eq_refl eq_refl)
    as [(r1 & E1 & _ & L1 & N1 & _ & _ & I1 & T1) (r2 & E2 & _ & L2 & N2 & _)].
  split_and!; try reflexivity; try exact Hf.
  - exists r1. split_and!; assumption.
  - exists r2. split_and!; assumption.
Defined.

Lemma appendScreenshot_newest_first_capped_witness :
  truthy cam1 = true
  /\ saved_screenshots cam1 empty_server = []
  /\ length sample_calls = 25%nat
  /\ saved_screenshots cam1 (capture_all no_stringify cam1 sample_calls empty_server)
     = rev ((fun c => Shot c.1.2 c.2) <$> drop 5 sample_calls)
  /\ length (saved_screenshots cam1
               (capture_all no_stringify cam1 sample_calls empty_server)) = 20%nat.
Proof.
  destruct (appendScreenshot_newest_first_capped no_stringify empty_server cam1
              sample_calls eq_refl) as (_ & _ & H25).
  destruct (H25 eq_refl eq_refl) as [E L].
  split_and!; try reflexivity; assumption.
Defined.

Lemma stop_unknown_is_not_found_stop_registered_removes_witness :
  activeStreams empty_server !! id1 = None
  /\ stop_stream id1 empty_server
     = (empty_server, {| status := 404; body := BError (js "Stream not found") |})
  /\ activeStreams sample_started !! id1 = Some sample_info
  /\ streamDir sample_info = stream_dir id1
  /\ existsSync (streamDir sample_info) sample_started = true
  /\ (exists s',
         stop_stream id1 sample_started = (s', {| status := 200; body := BStopped |})
         /\ (id1 ∉ active_listing s')
         /\ existsSync (streamDir sample_info) s' = false
         /\ stop_stream id1 s'
            = (s', {| status := 404; body := BError (js "Stream not found") |})).
Proof.
  assert (activeStreams sample_started !! id1 = Some sample_info) as Ha
      by (vm_compute; reflexivity).
  destruct (stop_unknown_is_not_found_stop_registered_removes sample_started id1)
    as [_ Hreg].
  destruct (Hreg sample_info Ha eq_refl) as (s' & E & _ & Hl & Hd & _ & E2).
  split_and!;
    [reflexivity | | exact Ha | reflexivity | vm_compute; reflexivity |].
  - apply (stop_unknown_is_not_found_stop_registered_removes empty_server id1).
    reflexivity.
  - exists s'. split_and!; assumption.
Defined.

Lemma capture_failures_leave_store_alone_witness :
  activeStreams empty_server !! id1 = None
  /\ screenshot id1 t0 empty_server
     = (empty_server, inl {| status := 404; body := BError (js "Stream not found") |})
  /\ activeStreams sample_started !! id1 = Some sample_info
  /\ existsSync (playlistPath sample_info) sample_started = false
  /\ screenshot id1 t0 sample_started
     = (sample_started,
        inl {| status := 400; body := BError (js "Stream playlist not ready") |})
  /\ capture_on_error sample_job sample_started
     = (sample_started,
        {| status := 500; body := BError (js "Failed to capture screenshot") |}).
Proof.
  assert (activeStreams sample_started !! id1 = Some sample_info) as Ha
      by (vm_compute; reflexivity).
  assert (existsSync (playlistPath sample_info) sample_started = false) as Hp
      by (vm_compute; reflexivity).
  destruct (capture_failures_leave_store_alone no_stringify empty_server id1 t0
              sample_job) as (Hnf & _).
  destruct (capture_failures_leave_store_alone no_stringify sample_started id1 t0
              sample_job) as (_ & Hnr & Hcf & _).
  split_and!;
    [reflexivity | exact (Hnf eq_refl) | exact Ha | exact Hp
    | exact (Hnr sample_info Ha Hp) | exact Hcf].
Defined.

Lemma cleanup_is_idempotent_witness :
  activeStreams (cleanupStream id1 sample_started) !! id1 = None
  /\ cleanupStream id1 (cleanupStream id1 sample_started)
     = cleanupStream id1 sample_started
  /\ activeStreams empty_server !! id1 = None
  /\ cleanupStream id1 empty_server = empty_server
  /\ kill (kill Running) = kill Running
  /\ Exited <> Running
  /\ kill Exited = Exited.
Proof.
  destruct (cleanup_is_idempotent sample_started id1 Running)
    as (Hidem & _ & Hgone & Hkill & _).
  destruct (cleanup_is_idempotent empty_server id1 Exited)
    as (_ & Habsent & _ & _ & Hexited).
  split_and!;
    [exact Hgone | exact Hidem | reflexivity | exact (Habsent eq_refl)
    | exact Hkill | discriminate | exact (Hexited ltac:(discriminate))].
Defined.

Lemma load_never_throws_witness :
  no_parse (js "not json") = None
  /\ loadSavedStreams no_parse (Content (js "not json")) = Return []
  /\ loadSavedStreams no_parse Missing = Return [].
Proof.
  destruct (load_never_throws no_parse Missing) as (Hm & _ & Hp & _).
  split_and!; [reflexivity | exact (Hp (js "not json") eq_refl) | exact Hm].
Defined.

(** * Further properties of the handlers *)

(** ** The saved records keep their URLs *)

Lemma strict_eq_sym (a b : JsValue) : strict_eq a b = strict_eq b a.
Proof.
  destruct a, b; cbn [strict_eq]; try reflexivity;
    try (apply bool_decide_ext; split; congruence).
  rewrite (bool_decide_ext (bits = bits0) (bits0 = bits)) by (split; congruence).
  destruct (num_is_nan bits), (num_is_nan bits0), (num_is_zero bits),
    (num_is_zero bits0), (bool_decide (bits0 = bits)); reflexivity.
Qed.

Lemma urls_insert_same (l : list SavedStream) i r r' :
  l !! i = Some r -> rtspUrl r' = rtspUrl r ->
  rtspUrl <$> <[i := r']> l = rtspUrl <$> l.
Proof.
  intros H E. rewrite list_fmap_insert, E. apply list_insert_id.
  rewrite list_lookup_fmap, H. reflexivity.
Qed.

Lemma find_saved_None (url : JsValue) (l : list SavedStream) :
  find_saved url l = None ->
  forall a, a ∈ rtspUrl <$> l -> strict_eq a url = false.
Proof.
  unfold find_saved. intros H a Ha.
  apply list_find_None in H.
  apply list_elem_of_fmap in Ha as (r & -> & Hr).
  rewrite Forall_forall in H. specialize (H r Hr).
  destruct (strict_eq (rtspUrl r) url); [| reflexivity].
  exfalso. apply H. exact I.
Qed.

Lemma distinct_urls_nil : distinct_urls [].
Proof. intros i j a b H. rewrite lookup_nil in H. discriminate. Qed.

Lemma distinct_urls_snoc (us : list JsValue) (u : JsValue) :
  distinct_urls us ->
  (forall a, a ∈ us -> strict_eq a u = false) ->
  distinct_urls (us ++ [u]).
Proof.
  intros Hd Hn i j a b Hi Hj E.
  apply lookup_app_Some in Hi as [Hi | [Hli Hi]];
    apply lookup_app_Some in Hj as [Hj | [Hlj Hj]].
  - eapply Hd; eassumption.
  - apply list_lookup_singleton_Some in Hj as [_ <-].
    rewrite (Hn a) in E; [discriminate |].
    eapply list_elem_of_lookup_2. exact Hi.
  - apply list_lookup_singleton_Some in Hi as [_ <-].
    rewrite strict_eq_sym, (Hn b) in E; [discriminate |].
    eapply list_elem_of_lookup_2. exact Hj.
  - apply list_lookup_singleton_Some in Hi as [Hi _].
    apply list_lookup_singleton_Some in Hj as [Hj _]. lia.
Qed.

Section SavedUrls.

Variable JSON_stringify : list SavedStream -> jsstring.

Lemma urls_grow_refl l : urls_grow l l.
Proof. exists []. rewrite app_nil_r. auto. Qed.

Lemma urls_grow_eq l l' : l' = l -> urls_grow l l'.
Proof. intros ->. apply urls_grow_refl. Qed.

Lemma urls_grow_insert l i r r' :
  l !! i = Some r -> rtspUrl r' = rtspUrl r -> urls_grow l (<[i := r']> l).
Proof.
  intros H E. exists []. rewrite app_nil_r.
  split; [eapply urls_insert_same; eassumption | auto].
Qed.

Lemma urls_grow_snoc l r :
  find_saved (rtspUrl r) l = None -> urls_grow l (l ++ [r]).
Proof.
  intros H. exists [rtspUrl r]. rewrite fmap_app. split; [reflexivity |].
  right. exists (rtspUrl r). auto.
Qed.

Lemma urls_grow_upsert url id ml mn now s :
  urls_grow (savedStreams s)
    (savedStreams (upsertSavedStream JSON_stringify url id ml mn now s)).
Proof.
  destruct (find_saved url (savedStreams s)) as [[i r]|] eqn:H.
  - rewrite (savedStreams_upsert_found _ _ _ _ _ _ _ _ _ H).
    apply find_saved_Some in H as [Hl _].
    apply (urls_grow_insert _ _ r); [exact Hl |]. cbn zeta.
    destruct (truthy (JString (sanitizeText ml 60)));
      destruct (truthy (JString (sanitizeText mn 280))); reflexivity.
  - rewrite (savedStreams_upsert_new _ _ _ _ _ _ _ H).
    apply urls_grow_snoc. exact H.
Qed.

Lemma urls_grow_update url l n s :
  urls_grow (savedStreams s)
    (savedStreams (fst (update_saved_stream JSON_stringify url l n s))).
Proof.
  destruct (truthy url) eqn:Hu.
  2:{ unfold update_saved_stream. rewrite Hu. apply urls_grow_refl. }
  destruct (find_saved url (savedStreams s)) as [[i r]|] eqn:H.
  - rewrite (savedStreams_update_found _ _ _ _ _ _ _ Hu H).
    apply find_saved_Some in H as [Hl _].
    apply (urls_grow_insert _ _ r); [exact Hl | reflexivity].
  - rewrite (savedStreams_update_new _ _ _ _ _ Hu H).
    apply urls_grow_snoc. exact H.
Qed.

Lemma urls_grow_addScreenshot url id f now s :
  urls_grow (savedStreams s)
    (savedStreams (addScreenshotRecord JSON_stringify url id f now s)).
Proof.
  destruct (find_saved url (savedStreams s)) as [[i r]|] eqn:H.
  - rewrite (savedStreams_addScreenshot_found _ _ _ _ _ _ _ _ H).
    apply find_saved_Some in H as [Hl _].
    apply (urls_grow_insert _ _ r); [exact Hl | reflexivity].
  - rewrite (savedStreams_addScreenshot_new _ _ _ _ _ _ H).
    apply urls_grow_snoc. exact H.
Qed.

Lemma urls_grow_step e s :
  urls_grow (savedStreams s) (savedStreams (step JSON_stringify e s)).
Proof.
  destruct e as [url l n id' nowMs acc | h now | k' | k' | k' | id'
                | url l n | id' iso | job now | job | w | k'];
    cbn [step].
  - apply urls_grow_eq, (store_savedStreams _ _ (store_start _ _ _ _ _ _ _)).
  - unfold fire_timer.
    destruct (timers s !! h) as [[k|k]|]; [| | apply urls_grow_refl].
    + unfold on_poll. destruct (requests s !! k) as [rq|]; [| apply urls_grow_refl].
      destruct (existsSync (rq_playlistPath rq) s); [| apply urls_grow_refl].
      rewrite (store_savedStreams _ _ (store_finalize _ _ _ _)).
      apply urls_grow_upsert.
    + unfold on_deadline.
      apply urls_grow_eq,
        (store_savedStreams _ _ (store_on_fail _ k (set_timers (delete h) s))).
  - apply urls_grow_eq, (store_savedStreams _ _ (store_write_manifest _ _)).
  - unfold on_error.
    apply urls_grow_eq,
      (store_savedStreams _ _ (store_on_fail _ k' (set_procs _ s))).
  - unfold on_end.
    apply urls_grow_eq,
      (store_savedStreams _ _ (store_on_fail _ k' (set_procs _ s))).
  - apply urls_grow_eq, (store_savedStreams _ _ (store_stop _ _)).
  - apply urls_grow_update.
  - rewrite ctl_screenshot. apply urls_grow_refl.
  - apply urls_grow_addScreenshot.
  - apply urls_grow_refl.
  - apply urls_grow_refl.
  - apply urls_grow_eq, (store_savedStreams _ _ (store_spawn _ _)).
Qed.

(** X1.  No saved record is ever removed, moved or given another URL:
    after any sequence of events the URLs of the saved records are the
    URLs they were, in the same order, followed by those of the records
    made since. *)
Theorem saved_records_are_never_removed (es : list Event) (s : Server) :
  (rtspUrl <$> savedStreams s)
    `prefix_of` (rtspUrl <$> savedStreams (run JSON_stringify es s))
  /\ (length (savedStreams s) <= length (savedStreams (run JSON_stringify es s)))%nat.
Proof.
  assert ((rtspUrl <$> savedStreams s)
            `prefix_of` (rtspUrl <$> savedStreams (run JSON_stringify es s))) as P.
  { induction es as [|e es IH] using rev_ind; [reflexivity |].
    rewrite run_snoc. etransitivity; [exact IH |].
    destruct (urls_grow_step e (run JSON_stringify es s)) as (us & -> & _).
    apply prefix_app_r. reflexivity. }
  split; [exact P |].
  apply prefix_length in P. rewrite !length_fmap in P. exact P.
Qed.

Lemma distinct_urls_step e s :
  distinct_urls (rtspUrl <$> savedStreams s) ->
  distinct_urls (rtspUrl <$> savedStreams (step JSON_stringify e s)).
Proof.
  intros Hd.
  destruct (urls_grow_step e s) as (us & -> & [-> | (u & -> & Hn)]).
  - rewrite app_nil_r. exact Hd.
  - apply distinct_urls_snoc; [exact Hd |]. apply find_saved_None. exact Hn.
Qed.

(** X2.  The saved records stay one per URL.  When no two records have
    [===] URLs, no sequence of events makes two records with [===] URLs.
    [upsertSavedStream], the update handler and [addScreenshotRecord] for
    a URL that has a record go to that record: it is replaced in its place
    by a record with the same URL, no record is added, and it is the only
    record with its URL.  For a URL that has no record they add one record
    with that URL at the end, the update handler when the URL is truthy. *)
Theorem saved_urls_stay_distinct
  (es : list Event) (s : Server) (url : JsValue) (i : nat) (r : SavedStream)
  (id f now : jsstring) (l n : JsValue) :
  distinct_urls (rtspUrl <$> savedStreams s) ->
  distinct_urls (rtspUrl <$> savedStreams (run JSON_stringify es s))
  /\ (find_saved url (savedStreams s) = Some (i, r) ->
      (exists r',
          savedStreams (upsertSavedStream JSON_stringify url id l n now s)
          = <[i := r']> (savedStreams s)
          /\ rtspUrl r' = rtspUrl r)
      /\ (exists r',
             savedStreams (fst (update_saved_stream JSON_stringify url l n s))
             = <[i := r']> (savedStreams s)
             /\ rtspUrl r' = rtspUrl r)
      /\ (exists r',
             savedStreams (addScreenshotRecord JSON_stringify url id f now s)
             = <[i := r']> (savedStreams s)
             /\ rtspUrl r' = rtspUrl r)
      /\ (forall j rj,
             savedStreams s !! j = Some rj ->
             strict_eq (rtspUrl rj) (rtspUrl r) = true -> j = i))
  /\ (find_saved url (savedStreams s) = None ->
      rtspUrl <$> savedStreams (upsertSavedStream JSON_stringify url id l n now s)
      = (rtspUrl <$> savedStreams s) ++ [url]
      /\ (truthy url = true ->
          rtspUrl <$> savedStreams
                        (fst (update_saved_stream JSON_stringify url l n s))
          = (rtspUrl <$> savedStreams s) ++ [url])
      /\ rtspUrl <$> savedStreams
                       (addScreenshotRecord JSON_stringify url id f now s)
         = (rtspUrl <$> savedStreams s) ++ [url]).
Proof.
  intros Hd. split_and!.
  - induction es as [|e es IH] using rev_ind; [exact Hd |].
    rewrite run_snoc. apply distinct_urls_step. exact IH.
  - intros H. pose proof (find_saved_Some _ _ _ _ H) as [Hi _]. split_and!.
    + rewrite (savedStreams_upsert_found _ _ _ _ _ _ _ _ _ H).
      eexists. split; [reflexivity |]. cbn zeta.
      destruct (truthy (JString (sanitizeText l 60)));
        destruct (truthy (JString (sanitizeText n 280))); reflexivity.
    + destruct (truthy url) eqn:Hu.
      * rewrite (savedStreams_update_found _ _ _ _ _ _ _ Hu H).
        eexists. split; reflexivity.
      * exists r. unfold update_saved_stream. rewrite Hu. cbn [negb fst].
        split; [symmetry; apply list_insert_id; exact Hi | reflexivity].
    + rewrite (savedStreams_addScreenshot_found _ _ _ _ _ _ _ _ H).
      eexists. split; reflexivity.
    + intros j rj Hj E. apply (Hd j i (rtspUrl rj) (rtspUrl r)).
      * rewrite list_lookup_fmap, Hj. reflexivity.
      * rewrite list_lookup_fmap, Hi. reflexivity.
      * exact E.
  - intros H. split_and!.
    + rewrite (savedStreams_upsert_new _ _ _ _ _ _ _ H), fmap_app. reflexivity.
    + intros Hu. rewrite (savedStreams_update_new _ _ _ _ _ Hu H), fmap_app.
      reflexivity.
    + rewrite (savedStreams_addScreenshot_new _ _ _ _ _ _ H), fmap_app.
      reflexivity.
Qed.

End SavedUrls.

(** ** The file follows the records *)

Section Persistence.

Variable JSON_stringify : list SavedStream -> jsstring.

Lemma persist_file s :
  savedFile (persistSavedStreams JSON_stringify s)
  = (if diskWritable s then Content (JSON_stringify (savedStreams s))
     else savedFile s)
  /\ diskWritable (persistSavedStreams JSON_stringify s) = diskWritable s.
Proof. unfold persistSavedStreams. destruct (diskWritable s) eqn:E; auto. Qed.

Lemma persisted_upsert url id ml mn now s :
  persisted JSON_stringify s (upsertSavedStream JSON_stringify url id ml mn now s).
Proof.
  unfold persisted, upsertSavedStream.
  rewrite savedStreams_persist.
  match goal with |- context [persistSavedStreams _ ?x] =>
    destruct (persist_file x) as [-> ->] end.
  destruct (find_saved url (savedStreams s)) as [[i r]|]; split; reflexivity.
Qed.

Lemma persisted_addScreenshot url id f now s :
  persisted JSON_stringify s (addScreenshotRecord JSON_stringify url id f now s).
Proof.
  unfold persisted, addScreenshotRecord.
  destruct (find_saved url (savedStreams s)) as [[i r]|];
    rewrite savedStreams_persist;
    match goal with |- context [persistSavedStreams _ ?x] =>
      destruct (persist_file x) as [-> ->] end;
    split; reflexivity.
Qed.

Lemma persisted_update url l n s :
  truthy url = true ->
  persisted JSON_stringify s (fst (update_saved_stream JSON_stringify url l n s)).
Proof.
  intros Hu. unfold persisted, update_saved_stream. rewrite Hu. cbn [negb].
  destruct (find_saved url (savedStreams s)) as [[i r]|]; cbn [fst];
    rewrite savedStreams_persist;
    match goal with |- context [persistSavedStreams _ ?x] =>
      destruct (persist_file x) as [-> ->] end;
    split; reflexivity.
Qed.

Lemma persisted_finalize k st b s s1 :
  persisted JSON_stringify s s1 -> persisted JSON_stringify s (finalize k st b s1).
Proof.
  unfold persisted. pose proof (store_finalize k st b s1) as E.
  unfold store in E. injection E as E1 E2 E3. rewrite E1, E2, E3. tauto.
Qed.

Lemma store_step_unwritten (e : Event) (s : Server) :
  may_write_store e s = false ->
  store (step JSON_stringify e s) = store s.
Proof.
  destruct e as [url l n id' nowMs acc | h now | k' | k' | k' | id'
                | url l n | id' iso | job now | job | w | k'];
    cbn [step may_write_store]; intros Hw; try discriminate.
  - apply store_start.
  - unfold fire_timer. destruct (timers s !! h) as [[k|k]|]; [| | reflexivity].
    + unfold on_poll. destruct (requests s !! k) as [rq|]; [| reflexivity].
      rewrite Hw. reflexivity.
    + apply (store_on_fail _ k (set_timers (delete h) s)).
  - apply store_write_manifest.
  - apply (store_on_fail _ k' (set_procs _ s)).
  - apply (store_on_fail _ k' (set_procs _ s)).
  - apply store_stop.
  - unfold update_saved_stream. rewrite Hw. reflexivity.
  - rewrite ctl_screenshot. reflexivity.
  - reflexivity.
  - apply store_spawn.
Qed.

(** X4.  Only four kinds of event reach the saved records or their file:
    a poll that finds the playlist, a metadata update with a URL, the end
    of an extraction, and a change of the disk.  Every other event, a
    start, a stop, a failure, a timeout, a poll that finds nothing, a
    rejected update, a capture request and a failed extraction among
    them, leaves the records in memory and the file exactly as they
    were. *)
Theorem other_events_leave_store_alone (e : Event) (s : Server) :
  may_write_store e s = false ->
  store (step JSON_stringify e s) = store s.
Proof.
  destruct e as [url l n id' nowMs acc | h now | k' | k' | k' | id'
                | url l n | id' iso | job now | job | w | k'];
    cbn [step may_write_store]; intros Hw; try discriminate.
  - apply store_start.
  - unfold fire_timer. destruct (timers s !! h) as [[k|k]|]; [| | reflexivity].
    + unfold on_poll. destruct (requests s !! k) as [rq|]; [| reflexivity].
      rewrite Hw. reflexivity.
    + apply (store_on_fail _ k (set_timers (delete h) s)).
  - apply store_write_manifest.
  - apply (store_on_fail _ k' (set_procs _ s)).
  - apply (store_on_fail _ k' (set_procs _ s)).
  - apply store_stop.
  - unfold update_saved_stream. rewrite Hw. reflexivity.
  - rewrite ctl_screenshot. reflexivity.
  - reflexivity.
  - apply store_spawn.
Qed.

Lemma savedStreams_upsert_disk b url id ml mn now s :
  savedStreams (upsertSavedStream JSON_stringify url id ml mn now
                  (set_diskWritable b s))
  = savedStreams (upsertSavedStream JSON_stringify url id ml mn now s).
Proof.
  destruct (find_saved url (savedStreams s)) as [[i r]|] eqn:H.
  - rewrite (savedStreams_upsert_found _ _ _ _ _ _ (set_diskWritable b s) i r H),
      (savedStreams_upsert_found _ _ _ _ _ _ s i r H).
    reflexivity.
  - rewrite (savedStreams_upsert_new _ _ _ _ _ _ (set_diskWritable b s) H),
      (savedStreams_upsert_new _ _ _ _ _ _ s H).
    reflexivity.
Qed.

Lemma savedStreams_addScreenshot_disk b url id f now s :
  savedStreams (addScreenshotRecord JSON_stringify url id f now
                  (set_diskWritable b s))
  = savedStreams (addScreenshotRecord JSON_stringify url id f now s).
Proof.
  destruct (find_saved url (savedStreams s)) as [[i r]|] eqn:H.
  - rewrite (savedStreams_addScreenshot_found _ _ _ _ _ (set_diskWritable b s) i r H),
      (savedStreams_addScreenshot_found _ _ _ _ _ s i r H).
    reflexivity.
  - rewrite (savedStreams_addScreenshot_new _ _ _ _ _ (set_diskWritable b s) H),
      (savedStreams_addScreenshot_new _ _ _ _ _ s H).
    reflexivity.
Qed.

Lemma update_disk b url l n s :
  savedStreams (fst (update_saved_stream JSON_stringify url l n
                       (set_diskWritable b s)))
  = savedStreams (fst (update_saved_stream JSON_stringify url l n s))
  /\ snd (update_saved_stream JSON_stringify url l n (set_diskWritable b s))
     = snd (update_saved_stream JSON_stringify url l n s).
Proof.
  unfold update_saved_stream. cbn [savedStreams set_diskWritable].
  destruct (negb (truthy url)); [split; reflexivity |].
  destruct (find_saved url (savedStreams s)) as [[i r]|]; cbn [fst snd];
    rewrite !savedStreams_persist; split; reflexivity.
Qed.

(** Whether the disk takes writes makes no difference to the records a
    step leaves in memory. *)
Lemma savedStreams_step_disk b e s :
  savedStreams (step JSON_stringify e (set_diskWritable b s))
  = savedStreams (step JSON_stringify e s).
Proof.
  assert (may_write_store e (set_diskWritable b s) = may_write_store e s) as Ew
      by (destruct e; reflexivity).
  destruct (may_write_store e s) eqn:Hw.
  2:{ rewrite (store_savedStreams _ _ (store_step_unwritten e _ Ew)),
        (store_savedStreams _ _ (store_step_unwritten e s Hw)).
      reflexivity. }
  clear Ew.
  destruct e as [url l n id' nowMs acc | h now | k' | k' | k' | id'
                | url l n | id' iso | job now | job | w | k'];
    cbn [may_write_store] in Hw; try discriminate; cbn [step].
  - unfold fire_timer. cbn [timers set_diskWritable].
    destruct (timers s !! h) as [[k|k]|]; try discriminate.
    unfold on_poll. cbn [requests set_diskWritable].
    destruct (requests s !! k) as [rq|]; [| discriminate].
    change (existsSync (rq_playlistPath rq) (set_diskWritable b s))
      with (existsSync (rq_playlistPath rq) s).
    rewrite Hw, !(store_savedStreams _ _ (store_finalize _ _ _ _)).
    apply savedStreams_upsert_disk.
  - apply update_disk.
  - cbn [capture_on_end fst]. apply savedStreams_addScreenshot_disk.
  - reflexivity.
Qed.

(** X3.  Every event that writes the saved records writes the file in the
    same callback: when the disk takes the write the file holds what
    [JSON.stringify] makes of the records now in memory, whatever it held
    before.  So a file that holds the records keeps holding them through
    every event while the disk takes writes.  A write the disk refuses
    changes nothing of what the server does next: the records an event
    leaves in memory are the same whether the disk takes writes or not,
    and so is the answer of a metadata update, which reports success
    either way. *)
Theorem file_follows_records
  (e : Event) (s : Server) (b : bool) (url l n : JsValue) :
  (forall w, e <> EvDisk w) ->
  (may_write_store e s = true ->
   diskWritable s = true ->
   synced JSON_stringify (step JSON_stringify e s))
  /\ (synced JSON_stringify s ->
      diskWritable s = true ->
      synced JSON_stringify (step JSON_stringify e s))
  /\ diskWritable (step JSON_stringify e s) = diskWritable s
  /\ savedStreams (step JSON_stringify e (set_diskWritable b s))
     = savedStreams (step JSON_stringify e s)
  /\ snd (update_saved_stream JSON_stringify url l n (set_diskWritable b s))
     = snd (update_saved_stream JSON_stringify url l n s).
Proof.
  intros Hdisk.
  assert (may_write_store e s = true ->
          persisted JSON_stringify s (step JSON_stringify e s)) as Hp.
  { destruct e as [url' l' n' id' nowMs acc | h now | k' | k' | k' | id'
                  | url' l' n' | id' iso | job now | job | w | k'];
      cbn [step may_write_store]; intros Hw; try discriminate.
    - unfold fire_timer. destruct (timers s !! h) as [[k|k]|]; try discriminate.
      unfold on_poll. destruct (requests s !! k) as [rq|]; [| discriminate].
      rewrite Hw. apply persisted_finalize, persisted_upsert.
    - apply persisted_update. exact Hw.
    - apply persisted_addScreenshot.
    - exfalso. eapply Hdisk. reflexivity. }
  assert (savedStreams (step JSON_stringify e (set_diskWritable b s))
          = savedStreams (step JSON_stringify e s)) as Hmem
      by apply savedStreams_step_disk.
  pose proof (proj2 (update_disk b url l n s)) as Hans.
  destruct (may_write_store e s) eqn:Hw.
  - destruct (Hp eq_refl) as [Hd Hf]. unfold synced. split_and!.
    + intros _ W. rewrite Hf, W. reflexivity.
    + intros _ W. rewrite Hf, W. reflexivity.
    + exact Hd.
    + exact Hmem.
    + exact Hans.
  - pose proof (store_step_unwritten e s Hw) as E.
    unfold store in E. injection E as E1 E2 E3. unfold synced. split_and!.
    + discriminate.
    + intros S _. rewrite E2, E1. exact S.
    + exact E3.
    + exact Hmem.
    + exact Hans.
Qed.

End Persistence.

(** ** Loading and starting up *)

Lemma ancestors_self (p : path) : p <> [] -> p ∈ ancestors p.
Proof.
  intros Hp. unfold ancestors. apply list_elem_of_fmap.
  exists (length p). split; [symmetry; apply take_ge; lia |].
  apply elem_of_seq. destruct p; [contradiction | simpl; lia].
Qed.

Lemma ancestors_prefix (p q : path) : q ∈ ancestors p -> q `prefix_of` p.
Proof.
  unfold ancestors. intros H. apply list_elem_of_fmap in H as (n & -> & _).
  apply prefix_take.
Qed.

Lemma ensureDirectoryExists_exists (p : path) (s : Server) :
  p <> [] -> existsSync p (ensureDirectoryExists p s) = true.
Proof.
  intros Hp. unfold ensureDirectoryExists.
  destruct (existsSync p s) eqn:E; cbn [negb]; [exact E |].
  unfold existsSync, mkdirSync. cbn [paths set_paths].
  apply bool_decide_eq_true. apply elem_of_union_r.
  apply elem_of_list_to_set. apply ancestors_self. exact Hp.
Qed.

Lemma ensureDirectoryExists_keeps (p q : path) (s : Server) :
  existsSync q s = true -> existsSync q (ensureDirectoryExists p s) = true.
Proof.
  intros Hq. unfold ensureDirectoryExists.
  destruct (negb (existsSync p s)); [| exact Hq].
  unfold existsSync, mkdirSync in *. cbn [paths set_paths].
  apply bool_decide_eq_true. apply bool_decide_eq_true in Hq.
  apply elem_of_union_l. exact Hq.
Qed.

(** X5.  [ensureDirectoryExists] leaves the directory existing, removes
    nothing, adds nothing but the directory and the directories above it,
    and changes nothing when the directory is there already, so calling it
    twice is calling it once. *)
Theorem ensureDirectoryExists_creates_once (p : path) (s : Server) :
  p <> [] ->
  existsSync p (ensureDirectoryExists p s) = true
  /\ (forall q, existsSync q s = true ->
                existsSync q (ensureDirectoryExists p s) = true)
  /\ (forall q, existsSync q (ensureDirectoryExists p s) = true ->
                existsSync q s = true \/ q `prefix_of` p)
  /\ (existsSync p s = true -> ensureDirectoryExists p s = s)
  /\ ensureDirectoryExists p (ensureDirectoryExists p s)
     = ensureDirectoryExists p s.
Proof.
  intros Hp.
  pose proof (ensureDirectoryExists_exists p s Hp) as Hex.
  assert (forall s', existsSync p s' = true -> ensureDirectoryExists p s' = s')
    as Hid.
  { intros s' E. unfold ensureDirectoryExists. rewrite E. reflexivity. }
  split_and!.
  - exact Hex.
  - intros q. apply ensureDirectoryExists_keeps.
  - intros q. unfold ensureDirectoryExists.
    destruct (negb (existsSync p s)); [| auto].
    unfold existsSync, mkdirSync. cbn [paths set_paths].
    rewrite !bool_decide_eq_true, elem_of_union, elem_of_list_to_set.
    intros [H | H]; [left; exact H | right; apply ancestors_prefix; exact H].
  - apply Hid.
  - apply Hid. exact Hex.
Qed.

Section Loading.

Variable JSON_parse : jsstring -> option JsValue.

Lemma get_field_not_nullish v f :
  is_nullish v = false -> get_field v f = Return (own_field v f).
Proof. destruct v; try discriminate; reflexivity. Qed.

Lemma get_field_nullish v f :
  is_nullish v = true -> get_field v f = Throw TypeError.
Proof. destruct v; try discriminate; reflexivity. Qed.

Lemma js_or_defaulted v : defaulted (js_or v (JString [])).
Proof.
  unfold defaulted, js_or. destruct (truthy v) eqn:E; [left; exact E | right; reflexivity].
Qed.

Lemma load_record_not_nullish v :
  is_nullish v = false ->
  exists r,
    load_record v = Return r
    /\ rtspUrl r = own_field v F_rtspUrl
    /\ lastStreamId r = own_field v F_lastStreamId
    /\ lastStartedAt r = own_field v F_lastStartedAt
    /\ defaulted (label r) /\ defaulted (notes r).
Proof.
  intros H. unfold load_record.
  rewrite !(get_field_not_nullish v) by exact H. cbn.
  eexists. split; [reflexivity |].
  cbn [rtspUrl lastStreamId lastStartedAt label notes].
  split_and!; try reflexivity; apply js_or_defaulted.
Qed.

Lemma load_record_nullish v :
  is_nullish v = true -> load_record v = Throw TypeError.
Proof.
  intros H. unfold load_record. rewrite (get_field_nullish v F_rtspUrl H).
  reflexivity.
Qed.

Lemma map_load_nullish elems :
  existsb is_nullish elems = true ->
  exists e, map_completion load_record elems = Throw e.
Proof.
  induction elems as [|v elems IH]; [discriminate |].
  cbn [existsb map_completion]. intros H.
  destruct (is_nullish v) eqn:Hv.
  - rewrite (load_record_nullish v Hv). cbn. eauto.
  - cbn [orb] in H. destruct (IH H) as [e He].
    destruct (load_record_not_nullish v Hv) as (r & -> & _).
    cbn. rewrite He. cbn. eauto.
Qed.

Lemma map_load_not_nullish elems :
  existsb is_nullish elems = false ->
  exists l,
    map_completion load_record elems = Return l
    /\ rtspUrl <$> l = (fun v => own_field v F_rtspUrl) <$> elems
    /\ Forall (fun r => defaulted (label r) /\ defaulted (notes r)) l.
Proof.
  induction elems as [|v elems IH].
  - intros _. exists []. split_and!; [reflexivity | reflexivity | constructor].
  - cbn [existsb map_completion]. intros H.
    apply orb_false_iff in H as [Hv H].
    destruct (IH H) as (l & El & Eu & Hf).
    destruct (load_record_not_nullish v Hv) as (r & Er & Hu & _ & _ & Hl & Hn).
    exists (r :: l). rewrite Er. cbn. rewrite El. cbn.
    split_and!; [reflexivity | |].
    + change (rtspUrl r :: (rtspUrl <$> l)
              = own_field v F_rtspUrl
                  :: ((fun v => own_field v F_rtspUrl) <$> elems)).
      rewrite Hu, Eu. reflexivity.
    + constructor; [split; assumption | exact Hf].
Qed.

(** X6.  When the file parses to an array, [loadSavedStreams] keeps all of
    it or none of it: if one element is [null] the property access throws
    and the result is the empty array, every other element lost with it;
    otherwise the result has one record per element, in order, with the
    element's own [rtspUrl] (or [undefined]) as its URL and with a label
    and notes that are truthy or the empty string. *)
Theorem load_keeps_all_or_nothing
  (text : jsstring) (a : N) (elems : list JsValue) :
  JSON_parse text = Some (JArray a elems) ->
  (existsb is_nullish elems = true ->
   loadSavedStreams JSON_parse (Content text) = Return [])
  /\ (existsb is_nullish elems = false ->
      exists l,
        loadSavedStreams JSON_parse (Content text) = Return l
        /\ length l = length elems
        /\ rtspUrl <$> l = (fun v => own_field v F_rtspUrl) <$> elems
        /\ Forall (fun r => defaulted (label r) /\ defaulted (notes r)) l).
Proof.
  intros Hp. unfold loadSavedStreams, parse. cbn. rewrite Hp. cbn. split.
  - intros H. destruct (map_load_nullish elems H) as [e ->]. reflexivity.
  - intros H. destruct (map_load_not_nullish elems H) as (l & -> & Eu & Hf).
    exists l. split_and!; try assumption; [reflexivity |].
    rewrite <- (length_fmap rtspUrl l), Eu, length_fmap. reflexivity.
Qed.

Lemma load_returns (file : FileState) :
  exists l, loadSavedStreams JSON_parse file = Return l.
Proof.
  unfold loadSavedStreams. destruct (negb (file_exists file)); [eauto |].
  unfold try_catch.
  match goal with |- context [match ?c with Return _ => _ | Throw _ => _ end] =>
    destruct c end; eauto.
Qed.

(** X7.  Loading the module never fails, whatever the file holds: the
    server comes up with nothing registered, no start request and no timer,
    with the records [loadSavedStreams] returned, with the streams and the
    captures directories existing, and with everything that was on the
    disk still there. *)
Theorem boot_never_fails
  (file : FileState) (writable : bool) (disk : gset (list (list N))) :
  exists s,
    boot JSON_parse file writable disk = Return s
    /\ loadSavedStreams JSON_parse file = Return (savedStreams s)
    /\ activeStreams s = ∅ /\ requests s = [] /\ timers s = ∅
    /\ savedFile s = file
    /\ existsSync streams_root s = true
    /\ existsSync CAPTURES_DIR s = true
    /\ disk ⊆ paths s.
Proof.
  destruct (load_returns file) as [l Hl].
  unfold boot. rewrite Hl. cbn.
  match goal with
  | |- context [ensureDirectoryExists streams_root ?b] => set (base := b)
  end.
  exists (ensureDirectoryExists CAPTURES_DIR (ensureDirectoryExists streams_root base)).
  assert (streams_root <> []) as N1 by discriminate.
  assert (CAPTURES_DIR <> []) as N2 by discriminate.
  pose proof (ensureDirectoryExists_exists streams_root base N1) as E1.
  pose proof (fun q => ensureDirectoryExists_keeps streams_root q base) as K1.
  pose proof (ensureDirectoryExists_exists CAPTURES_DIR
                (ensureDirectoryExists streams_root base) N2) as E2.
  pose proof (fun q => ensureDirectoryExists_keeps CAPTURES_DIR q
                         (ensureDirectoryExists streams_root base)) as K2.
  assert (ctl (ensureDirectoryExists CAPTURES_DIR
                 (ensureDirectoryExists streams_root base)) = ctl base) as E
      by (rewrite !ctl_ensureDirectoryExists; reflexivity).
  split_and!.
  - reflexivity.
  - unfold ensureDirectoryExists.
    repeat match goal with |- context [if ?b then _ else _] => destruct b end;
      reflexivity.
  - unfold ensureDirectoryExists.
    repeat match goal with |- context [if ?b then _ else _] => destruct b end;
      reflexivity.
  - apply (ctl_requests _ _ E).
  - apply (ctl_timers _ _ E).
  - unfold ensureDirectoryExists.
    repeat match goal with |- context [if ?b then _ else _] => destruct b end;
      reflexivity.
  - apply K2. exact E1.
  - exact E2.
  - intros q Hq.
    assert (existsSync q base = true) as Hb
        by (apply bool_decide_eq_true; exact Hq).
    apply K1, K2 in Hb. apply bool_decide_eq_true in Hb. exact Hb.
Qed.

End Loading.

(** ** Cleaning up sessions *)

Lemma kill_not_running p : kill p <> Running.
Proof. destruct p; discriminate. Qed.

Lemma stream_dir_prefix_inj (id id' : jsstring) (q : path) :
  stream_dir id `prefix_of` q -> stream_dir id' `prefix_of` q -> id = id'.
Proof.
  intros [k1 ->] [k2 E]. unfold stream_dir, streams_root in E. cbn in E.
  congruence.
Qed.

Lemma streams_root_prefix (id : jsstring) : streams_root `prefix_of` stream_dir id.
Proof. exists [id]. reflexivity. Qed.

(** What [cleanupStream] does to a path: it is there afterwards when it
    was there before and is not the directory of a registered session or
    below it. *)
Lemma existsSync_cleanup id s q :
  existsSync q (cleanupStream id s)
  = existsSync q s
    && negb (bool_decide (is_Some (activeStreams s !! id))
             && existsSync (stream_dir id) s
             && bool_decide (stream_dir id `prefix_of` q)).
Proof.
  destruct (activeStreams s !! id) as [info|] eqn:H.
  - unfold existsSync at 1. rewrite (paths_cleanup_registered id info s H).
    rewrite (bool_decide_eq_true_2 (is_Some (Some info))) by eauto. cbn [andb].
    destruct (existsSync (stream_dir id) s) eqn:E; cbn [andb negb].
    + unfold existsSync.
      destruct (decide (stream_dir id `prefix_of` q)) as [Hp|Hp].
      * rewrite (bool_decide_eq_true_2 _ Hp). cbn [negb].
        rewrite andb_false_r. apply bool_decide_eq_false.
        rewrite elem_of_filter. tauto.
      * rewrite (bool_decide_eq_false_2 _ Hp). cbn [negb].
        rewrite andb_true_r. apply bool_decide_ext.
        rewrite elem_of_filter. tauto.
    + rewrite andb_true_r. reflexivity.
  - rewrite (cleanup_absent id s H).
    rewrite (bool_decide_eq_false_2 (is_Some None)) by (intros [x Hx]; discriminate).
    cbn. rewrite andb_true_r. reflexivity.
Qed.

Lemma procs_cleanup id s p :
  procs (cleanupStream id s) !! p = procs s !! p
  \/ procs (cleanupStream id s) !! p = kill <$> procs s !! p.
Proof.
  destruct (activeStreams s !! id) as [info|] eqn:H.
  - rewrite (procs_cleanup_registered id info s H).
    destruct (decide (ffmpegProcess info = p)) as [<-|Hne].
    + right. apply lookup_alter_eq.
    + left. apply lookup_alter_ne. exact Hne.
  - rewrite (cleanup_absent id s H). auto.
Qed.

Lemma procs_cleanup_signalled id info s :
  activeStreams s !! id = Some info ->
  procs (cleanupStream id s) !! ffmpegProcess info <> Some Running.
Proof.
  intros H. rewrite (procs_cleanup_registered id info s H), lookup_alter_eq.
  destruct (procs s !! ffmpegProcess info) as [p|]; cbn; [| discriminate].
  intros [= E]. exact (kill_not_running p E).
Qed.

Lemma procs_cleanup_not_running id s p :
  procs s !! p <> Some Running ->
  procs (cleanupStream id s) !! p <> Some Running.
Proof.
  intros H. destruct (procs_cleanup id s p) as [-> | ->]; [exact H |].
  destruct (procs s !! p) as [x|]; cbn; [| discriminate].
  intros [= E]. exact (kill_not_running x E).
Qed.

(** X8.  Stopping or cleaning up one session leaves every other alone:
    they stay registered with what they had, every path that is not the
    stopped session's directory or below it is there afterwards exactly
    when it was there before, only the stopped session's process is
    signalled, and the start requests, the timers and the saved records
    are untouched. *)
Theorem stop_leaves_other_sessions (s : Server) (id id' : jsstring) :
  id' <> id ->
  activeStreams (fst (stop_stream id s)) !! id' = activeStreams s !! id'
  /\ (forall q, stream_dir id' `prefix_of` q ->
                existsSync q (fst (stop_stream id s)) = existsSync q s)
  /\ (forall q, ~ stream_dir id `prefix_of` q ->
                existsSync q (fst (stop_stream id s)) = existsSync q s)
  /\ (forall info p,
         activeStreams s !! id = Some info -> p <> ffmpegProcess info ->
         procs (fst (stop_stream id s)) !! p = procs s !! p)
  /\ ctl (fst (stop_stream id s)) = ctl s
  /\ store (fst (stop_stream id s)) = store s.
Proof.
  intros Hne.
  assert (fst (stop_stream id s) = cleanupStream id s) as ->.
  { unfold stop_stream. destruct (activeStreams s !! id) eqn:E; [reflexivity |].
    symmetry. apply cleanup_absent. exact E. }
  assert (forall q, ~ stream_dir id `prefix_of` q ->
                    existsSync q (cleanupStream id s) = existsSync q s) as Hq.
  { intros q Hn. rewrite existsSync_cleanup.
    rewrite (bool_decide_eq_false_2 _ Hn), andb_false_r. cbn.
    apply andb_true_r. }
  split_and!.
  - rewrite activeStreams_cleanup. apply lookup_delete_ne. congruence.
  - intros q Hp. apply Hq. intros Hp'.
    apply Hne. symmetry. eapply stream_dir_prefix_inj; eassumption.
  - exact Hq.
  - intros info p H Hp. rewrite (procs_cleanup_registered id info s H).
    apply lookup_alter_ne. congruence.
  - apply ctl_cleanup.
  - apply store_cleanup.
Qed.

Section Failures.

Variable JSON_stringify : list SavedStream -> jsstring.




(** X10.  A process event that comes late changes nothing but the state of
    the process: once a start request is answered and its session is no
    longer registered, the error event, the end event and the deadline
    callback of that request leave the registry, the disk, the saved
    records, the timers and every start request as they are, and send no
    response. *)
Theorem late_events_are_noops (s : Server) (k : nat) (rq : StartRequest) :
  requests s !! k = Some rq ->
  responded rq = true ->
  activeStreams s !! rq_streamId rq = None ->
  on_error k s = s /\ on_end k s = s /\ on_deadline k s = s
  /\ step JSON_stringify (EvProcError k) s
     = set_procs (alter (fun _ => Exited) k) s
  /\ step JSON_stringify (EvProcEnd k) s
     = set_procs (alter (fun _ => Exited) k) s.
Proof.
  intros H Hr Ha.
  assert (forall msg s1,
             requests s1 = requests s -> activeStreams s1 = activeStreams s ->
             match requests s1 !! k with
             | Some rq =>
                 finalize k 500 (BError msg) (cleanupStream (rq_streamId rq) s1)
             | None => s1
             end = s1) as G.
  { intros msg s1 E1 E2. rewrite E1, H.
    rewrite cleanup_absent by (rewrite E2; exact Ha).
    apply (finalize_responded _ _ _ _ rq); [rewrite E1; exact H | exact Hr]. }
  split_and!.
  - apply (G _ s); reflexivity.
  - apply (G _ s); reflexivity.
  - apply (G _ s); reflexivity.
  - cbn [step]. apply (G _ (set_procs _ s)); reflexivity.
  - cbn [step]. apply (G _ (set_procs _ s)); reflexivity.
Qed.

End Failures.

(** ** Shutting down *)

Lemma cleanup_all_cons id ids s :
  cleanup_all (id :: ids) s = cleanup_all ids (cleanupStream id s).
Proof. reflexivity. Qed.

Lemma activeStreams_cleanup_all ids s id :
  activeStreams (cleanup_all ids s) !! id
  = if bool_decide (id ∈ ids) then None else activeStreams s !! id.
Proof.
  revert s. induction ids as [|a ids IH]; intros s.
  - rewrite bool_decide_eq_false_2 by apply not_elem_of_nil. reflexivity.
  - rewrite cleanup_all_cons, IH, activeStreams_cleanup.
    destruct (decide (id ∈ ids)) as [Hin|Hin].
    + rewrite !bool_decide_eq_true_2; [reflexivity | | exact Hin].
      apply elem_of_cons. auto.
    + rewrite (bool_decide_eq_false_2 _ Hin).
      destruct (decide (id = a)) as [->|Hne].
      * rewrite bool_decide_eq_true_2 by (apply elem_of_cons; auto).
        apply lookup_delete_eq.
      * rewrite bool_decide_eq_false_2
          by (rewrite elem_of_cons; intros [?|?]; contradiction).
        apply lookup_delete_ne. congruence.
Qed.

Lemma cleanup_all_frames ids s :
  ctl (cleanup_all ids s) = ctl s /\ store (cleanup_all ids s) = store s.
Proof.
  revert s. induction ids as [|a ids IH]; intros s; [split; reflexivity |].
  rewrite cleanup_all_cons. destruct (IH (cleanupStream a s)) as [-> ->].
  split; [apply ctl_cleanup | apply store_cleanup].
Qed.

Lemma existsSync_cleanup_mono id s q :
  existsSync q (cleanupStream id s) = true -> existsSync q s = true.
Proof. rewrite existsSync_cleanup. intros H. apply andb_prop in H as [H _]. exact H. Qed.

Lemma existsSync_cleanup_all_mono ids s q :
  existsSync q (cleanup_all ids s) = true -> existsSync q s = true.
Proof.
  revert s. induction ids as [|a ids IH]; intros s; [tauto |].
  rewrite cleanup_all_cons. intros H. apply IH in H.
  eapply existsSync_cleanup_mono. exact H.
Qed.

Lemma existsSync_cleanup_all_outside ids s q :
  ~ streams_root `prefix_of` q ->
  existsSync q (cleanup_all ids s) = existsSync q s.
Proof.
  intros Hn. revert s. induction ids as [|a ids IH]; intros s; [reflexivity |].
  rewrite cleanup_all_cons, IH, existsSync_cleanup.
  rewrite (bool_decide_eq_false_2 (stream_dir a `prefix_of` q)).
  - rewrite andb_false_r. cbn. apply andb_true_r.
  - intros Hp. apply Hn. etransitivity; [apply streams_root_prefix | exact Hp].
Qed.

Lemma procs_cleanup_all_not_running ids s p :
  procs s !! p <> Some Running ->
  procs (cleanup_all ids s) !! p <> Some Running.
Proof.
  revert s. induction ids as [|a ids IH]; intros s H; [exact H |].
  rewrite cleanup_all_cons. apply IH. apply procs_cleanup_not_running. exact H.
Qed.

Lemma procs_cleanup_all_signalled ids s id info :
  id ∈ ids -> activeStreams s !! id = Some info ->
  procs (cleanup_all ids s) !! ffmpegProcess info <> Some Running.
Proof.
  revert s. induction ids as [|a ids IH]; intros s Hin H.
  - apply elem_of_nil in Hin. contradiction.
  - rewrite cleanup_all_cons. destruct (decide (id = a)) as [->|Hne].
    + apply procs_cleanup_all_not_running, procs_cleanup_signalled. exact H.
    + apply elem_of_cons in Hin as [? | Hin]; [contradiction |].
      apply IH; [exact Hin |].
      rewrite activeStreams_cleanup, lookup_delete_ne by congruence. exact H.
Qed.

Lemma dir_gone_cleanup_all ids s id info :
  id ∈ ids -> activeStreams s !! id = Some info ->
  existsSync (stream_dir id) (cleanup_all ids s) = false.
Proof.
  revert s. induction ids as [|a ids IH]; intros s Hin H.
  - apply elem_of_nil in Hin. contradiction.
  - rewrite cleanup_all_cons. destruct (decide (id = a)) as [->|Hne].
    + destruct (existsSync (stream_dir a) (cleanup_all ids (cleanupStream a s)))
        eqn:E; [| reflexivity].
      apply existsSync_cleanup_all_mono in E.
      rewrite (cleanup_removes_dir a info s H) in E. discriminate.
    + apply elem_of_cons in Hin as [? | Hin]; [contradiction |].
      apply (IH _ Hin).
      rewrite activeStreams_cleanup, lookup_delete_ne by congruence. exact H.
Qed.

Lemma on_sigint_sessions ids s :
  activeStreams (on_sigint ids s) = activeStreams (cleanup_all ids s)
  /\ procs (on_sigint ids s) = procs (cleanup_all ids s)
  /\ ctl (on_sigint ids s) = ctl (cleanup_all ids s)
  /\ store (on_sigint ids s) = store (cleanup_all ids s)
  /\ (forall q,
         existsSync q (on_sigint ids s)
         = existsSync q (cleanup_all ids s)
           && negb (existsSync streams_root (cleanup_all ids s)
                    && bool_decide (streams_root `prefix_of` q))).
Proof.
  unfold on_sigint. destruct (existsSync streams_root (cleanup_all ids s)) eqn:E.
  - split_and!; try reflexivity. intros q. cbn [andb].
    unfold existsSync, rmSync. cbn [paths set_paths].
    destruct (decide (streams_root `prefix_of` q)) as [Hp|Hp].
    + rewrite (bool_decide_eq_true_2 _ Hp). cbn [negb]. rewrite andb_false_r.
      apply bool_decide_eq_false. rewrite elem_of_filter. tauto.
    + rewrite (bool_decide_eq_false_2 _ Hp). cbn [negb]. rewrite andb_true_r.
      apply bool_decide_ext. rewrite elem_of_filter. tauto.
  - split_and!; try reflexivity. intros q. cbn. rewrite andb_true_r. reflexivity.
Qed.

(** X11.  The shutdown handler, whatever the order in which the registry
    yields its ids: afterwards no session is registered, the streams
    directory and the directory of every session that was registered are
    gone, no process of a registered session is left running, every path
    outside the streams directory is there exactly when it was before, and
    the saved records, their file, the start requests and the timers are
    as they were. *)
Theorem sigint_cleans_every_session (ids : list jsstring) (s : Server) :
  (forall id, is_Some (activeStreams s !! id) -> id ∈ ids) ->
  activeStreams (on_sigint ids s) = ∅
  /\ existsSync streams_root (on_sigint ids s) = false
  /\ (forall id info,
         activeStreams s !! id = Some info ->
         existsSync (stream_dir id) (on_sigint ids s) = false
         /\ procs (on_sigint ids s) !! ffmpegProcess info <> Some Running)
  /\ (forall q, ~ streams_root `prefix_of` q ->
                existsSync q (on_sigint ids s) = existsSync q s)
  /\ store (on_sigint ids s) = store s
  /\ ctl (on_sigint ids s) = ctl s.
Proof.
  intros Hall. destruct (cleanup_all_frames ids s) as [Ec Es].
  destruct (on_sigint_sessions ids s) as (Ea & Ep & Ec' & Es' & Eq).
  split_and!.
  - rewrite Ea. apply map_eq. intros id.
    rewrite activeStreams_cleanup_all, lookup_empty.
    destruct (decide (id ∈ ids)) as [Hin|Hin].
    + rewrite bool_decide_eq_true_2 by exact Hin. reflexivity.
    + rewrite bool_decide_eq_false_2 by exact Hin.
      destruct (activeStreams s !! id) eqn:E; [| reflexivity].
      exfalso. apply Hin, Hall. rewrite E. eauto.
  - rewrite Eq. rewrite (bool_decide_eq_true_2 (streams_root `prefix_of` streams_root))
      by reflexivity.
    destruct (existsSync streams_root (cleanup_all ids s)); reflexivity.
  - intros id info H.
    assert (id ∈ ids) as Hin by (apply Hall; rewrite H; eauto).
    split.
    + rewrite Eq, (dir_gone_cleanup_all ids s id info Hin H). reflexivity.
    + rewrite Ep. eapply procs_cleanup_all_signalled; eassumption.
  - intros q Hn. rewrite Eq, (bool_decide_eq_false_2 _ Hn), andb_false_r.
    cbn. rewrite andb_true_r. apply existsSync_cleanup_all_outside. exact Hn.
  - rewrite Es'. exact Es.
  - rewrite Ec'. exact Ec.
Qed.

(** ** Becoming ready *)

Section Ready.

Variable JSON_stringify : list SavedStream -> jsstring.

Lemma find_saved_after_upsert url id ml mn now s :
  strict_eq url url = true ->
  exists i r,
    find_saved url
      (savedStreams (upsertSavedStream JSON_stringify url id ml mn now s))
    = Some (i, r)
    /\ lastStreamId r = JString id /\ lastStartedAt r = JString now
    /\ (sanitizeText ml 60 <> [] -> label r = JString (sanitizeText ml 60))
    /\ (sanitizeText mn 280 <> [] -> notes r = JString (sanitizeText mn 280))
    /\ (forall r0 i0, find_saved url (savedStreams s) = Some (i0, r0) ->
          i = i0 /\ screenshots r = screenshots r0
          /\ (sanitizeText ml 60 = [] -> label r = label r0)
          /\ (sanitizeText mn 280 = [] -> notes r = notes r0))
    /\ (find_saved url (savedStreams s) = None ->
          i = length (savedStreams s) /\ screenshots r = []
          /\ label r = JString (sanitizeText ml 60)
          /\ notes r = JString (sanitizeText mn 280)).
Proof.
  intros Hu. destruct (find_saved url (savedStreams s)) as [[i r]|] eqn:H.
  - rewrite (savedStreams_upsert_found _ _ _ _ _ _ _ _ _ H).
    exists i. eexists. split.
    { apply find_saved_insert with (r := r); [exact H |]. cbn zeta.
      destruct (truthy (JString (sanitizeText ml 60)));
        destruct (truthy (JString (sanitizeText mn 280))); reflexivity. }
    cbn zeta. cbn [truthy].
    destruct (sanitizeText ml 60) as [|c1 l1] eqn:El;
      destruct (sanitizeText mn 280) as [|c2 l2] eqn:En;
      (rewrite ?bool_decide_eq_true_2 by reflexivity);
      (rewrite ?bool_decide_eq_false_2 by discriminate);
      cbn [negb];
      (split_and!;
       [ reflexivity | reflexivity
       | intros ?; try reflexivity; congruence
       | intros ?; try reflexivity; congruence
       | intros r0 i0 [= <- <-]; split_and!;
         [reflexivity | reflexivity | intros ?; try reflexivity; congruence
         | intros ?; try reflexivity; congruence]
       | discriminate ]).
  - rewrite (savedStreams_upsert_new _ _ _ _ _ _ _ H).
    eexists. eexists. split.
    { apply find_saved_snoc; [exact H | exact Hu]. }
    split_and!; try reflexivity; try discriminate.
    intros _. split_and!; reflexivity.
Qed.

(** X12.  When the poll of an unanswered start request finds the playlist,
    the session stays as it is (registered, with its directory, its
    process not signalled), the request is answered 200 with the
    sanitized label and notes, both of its timers are cancelled, and the
    saved records hold a record for its URL whose last session is this one
    and whose last start is now; a label or notes that sanitizes to a
    non-empty string is stored, an empty one leaves what the record
    had. *)
Theorem ready_keeps_session_and_records_it
  (s : Server) (k h : nat) (rq : StartRequest) (now : jsstring) :
  requests s !! k = Some rq ->
  responded rq = false ->
  timers s !! h = Some (PollOf k) ->
  existsSync (rq_playlistPath rq) s = true ->
  truthy (rq_rtspUrl rq) = true ->
  sessions (step JSON_stringify (EvTimer h now) s) = sessions s
  /\ requests (step JSON_stringify (EvTimer h now) s) !! k
     = Some (send {| status := 200;
                     body := BStarted (rq_streamId rq)
                               (sanitizeText (rq_label rq) 60)
                               (sanitizeText (rq_notes rq) 280) |}
               (mark_responded rq))
  /\ (forall h', pollTimer rq = Some h' \/ timeoutTimer rq = Some h' ->
                 timers (step JSON_stringify (EvTimer h now) s) !! h' = None)
  /\ (exists i r,
         find_saved (rq_rtspUrl rq)
           (savedStreams (step JSON_stringify (EvTimer h now) s)) = Some (i, r)
         /\ lastStreamId r = JString (rq_streamId rq)
         /\ lastStartedAt r = JString now
         /\ (sanitizeText (rq_label rq) 60 <> [] ->
             label r = JString (sanitizeText (rq_label rq) 60))
         /\ (sanitizeText (rq_notes rq) 280 <> [] ->
             notes r = JString (sanitizeText (rq_notes rq) 280))
         /\ (forall r0 i0,
                find_saved (rq_rtspUrl rq) (savedStreams s) = Some (i0, r0) ->
                i = i0 /\ screenshots r = screenshots r0
                /\ (sanitizeText (rq_label rq) 60 = [] -> label r = label r0)
                /\ (sanitizeText (rq_notes rq) 280 = [] -> notes r = notes r0))).
Proof.
  intros H Hr Ht He Hu.
  assert (step JSON_stringify (EvTimer h now) s
          = finalize k 200
              (BStarted (rq_streamId rq) (sanitizeText (rq_label rq) 60)
                 (sanitizeText (rq_notes rq) 280))
              (upsertSavedStream JSON_stringify (rq_rtspUrl rq) (rq_streamId rq)
                 (rq_label rq) (rq_notes rq) now s)) as ->.
  { cbn [step]. unfold fire_timer. rewrite Ht. unfold on_poll. rewrite H, He.
    reflexivity. }
  set (s1 := upsertSavedStream JSON_stringify (rq_rtspUrl rq) (rq_streamId rq)
               (rq_label rq) (rq_notes rq) now s).
  assert (requests s1 !! k = Some rq) as H1.
  { unfold s1. rewrite (ctl_requests _ _ (ctl_upsert _ _ _ _ _ _ _)). exact H. }
  split_and!.
  - rewrite sessions_finalize. apply sessions_upsert.
  - rewrite (finalize_lookup k _ _ _ k rq H1).
    rewrite bool_decide_eq_true_2 by reflexivity. rewrite Hr. reflexivity.
  - intros h' Hh. eapply finalize_pending_clears; eassumption.
  - rewrite (store_savedStreams _ _ (store_finalize _ _ _ _)).
    destruct (find_saved_after_upsert (rq_rtspUrl rq) (rq_streamId rq)
                (rq_label rq) (rq_notes rq) now s
                (truthy_strict_eq_refl _ Hu))
      as (i & r & Hf & A & B & C & D & E & _).
    exists i, r. split_and!; assumption.
Qed.

End Ready.

(** ** Processes and timers belong to their start request *)

Section Ownership.

Variable JSON_stringify : list SavedStream -> jsstring.

(** A step changes of a start request only whether it is answered and
    what was sent. *)
Lemma step_lookup_same k e s rq :
  requests s !! k = Some rq ->
  exists rq',
    requests (step JSON_stringify e s) !! k = Some rq'
    /\ rq_streamId rq' = rq_streamId rq /\ rq_rtspUrl rq' = rq_rtspUrl rq
    /\ pollTimer rq' = pollTimer rq /\ timeoutTimer rq' = timeoutTimer rq
    /\ (responded rq = true -> rq' = rq).
Proof.
  intros H. pose proof (step_lookup JSON_stringify k e s rq H) as L.
  destruct (trigger k e s) as [o|].
  - destruct L as (r & _ & L). rewrite L.
    destruct (responded rq) eqn:Hr; eexists; (split; [reflexivity |]);
      split_and!; try reflexivity. discriminate.
  - rewrite L. exists rq. split_and!; reflexivity.
Qed.

Lemma owns_process_step e s :
  owns_process s -> owns_process (step JSON_stringify e s).
Proof.
  intros Hinv id info H.
  apply step_activeStreams in H as [H | (url & l & n & now & acc & -> & Hs & ->)].
  - destruct (Hinv id info H) as (rq & Hk & Hid & Hurl).
    destruct (step_lookup_same _ e s rq Hk) as (rq' & Hk' & E1 & E2 & _).
    exists rq'. split_and!; [exact Hk' | congruence | congruence].
  - cbn [step ffmpegProcess info_rtspUrl].
    rewrite (requests_start _ _ _ _ _ _ _ Hs).
    eexists. split; [apply list_lookup_middle; reflexivity |].
    split; reflexivity.
Qed.

(** X13.  Every registered session holds the process that the start
    request for its id and its URL spawned, in every state reached from
    one where that holds (an empty registry, say); so no two registered
    sessions ever hold the same process. *)
Theorem sessions_own_their_process (es : list Event) (s : Server) :
  owns_process s ->
  owns_process (run JSON_stringify es s)
  /\ (forall id1 id2 info1 info2,
         activeStreams (run JSON_stringify es s) !! id1 = Some info1 ->
         activeStreams (run JSON_stringify es s) !! id2 = Some info2 ->
         ffmpegProcess info1 = ffmpegProcess info2 -> id1 = id2).
Proof.
  intros Hinv.
  assert (owns_process (run JSON_stringify es s)) as Hr.
  { induction es as [|e es IH] using rev_ind; [exact Hinv |].
    rewrite run_snoc. apply owns_process_step. exact IH. }
  split; [exact Hr |].
  intros id1 id2 info1 info2 H1 H2 E.
  destruct (Hr id1 info1 H1) as (rq1 & K1 & <- & _).
  destruct (Hr id2 info2 H2) as (rq2 & K2 & <- & _).
  congruence.
Qed.

Lemma finalize_timers_Some k st b s h cb :
  timers (finalize k st b s) !! h = Some cb -> timers s !! h = Some cb.
Proof.
  destruct (requests s !! k) as [rq|] eqn:H.
  - destruct (responded rq) eqn:Hr.
    + rewrite (finalize_responded _ _ _ _ _ H Hr). tauto.
    + destruct (finalize_pending k st b s rq H Hr) as (_ & _ & Et).
      intros E. apply Et in E. tauto.
  - rewrite (finalize_absent _ _ _ _ H). tauto.
Qed.

(** A live timer was live before the step, unless the step is the start
    request that set it. *)
Lemma step_timers_Some e s h cb :
  timers (step JSON_stringify e s) !! h = Some cb ->
  timers s !! h = Some cb
  \/ (exists url l n id now acc,
         e = EvStart url l n id now acc
         /\ truthy url && takes_input url acc = true
         /\ ((h = nextTimer s /\ cb = PollOf (length (requests s)))
             \/ (h = S (nextTimer s) /\ cb = DeadlineOf (length (requests s))))).
Proof.
  destruct e as [url l n id' nowMs acc | h0 now | k' | k' | k' | id'
                | url l n | id' iso | job now | job | w | k'];
    cbn [step].
  - start_cases url acc Hu Hs.
    + rewrite (timers_start _ _ _ _ _ _ _ Hs).
      rewrite lookup_insert_Some. intros [[<- <-] | [_ H]].
      { right. exists url, l, n, id', nowMs, acc. auto. }
      apply lookup_insert_Some in H as [[<- <-] | [_ H]]; [| auto].
      right. exists url, l, n, id', nowMs, acc. auto.
    + rewrite (ctl_timers _ _ (ctl_start_none _ l n id' nowMs _ s Hs)). auto.
  - unfold fire_timer. destruct (timers s !! h0) as [[k|k]|] eqn:Ht; [| | auto].
    + unfold on_poll. destruct (requests s !! k) as [rq|]; [| auto].
      destruct (existsSync (rq_playlistPath rq) s); [| auto].
      intros H. apply finalize_timers_Some in H.
      rewrite (ctl_timers _ _ (ctl_upsert _ _ _ _ _ _ _)) in H. auto.
    + unfold on_deadline. cbn [requests set_timers].
      destruct (requests s !! k) as [rq|].
      * intros H. apply finalize_timers_Some in H.
        rewrite (ctl_timers _ _ (ctl_cleanup _ _)) in H.
        cbn [timers set_timers] in H. apply lookup_delete_Some in H. tauto.
      * cbn [timers set_timers]. rewrite lookup_delete_Some. tauto.
  - rewrite (ctl_timers _ _ (ctl_write_manifest _ _)). auto.
  - unfold on_error. cbn [requests set_procs].
    destruct (requests s !! k') as [rq|]; [| auto].
    intros H. apply finalize_timers_Some in H.
    rewrite (ctl_timers _ _ (ctl_cleanup _ _)) in H. auto.
  - unfold on_end. cbn [requests set_procs].
    destruct (requests s !! k') as [rq|]; [| auto].
    intros H. apply finalize_timers_Some in H.
    rewrite (ctl_timers _ _ (ctl_cleanup _ _)) in H. auto.
  - rewrite (ctl_timers _ _ (ctl_stop _ _)). auto.
  - rewrite (ctl_timers _ _ (ctl_update JSON_stringify _ _ _ _)). auto.
  - rewrite ctl_screenshot. auto.
  - cbn [capture_on_end fst].
    rewrite (ctl_timers _ _ (ctl_addScreenshot JSON_stringify _ _ _ _ _)). auto.
  - auto.
  - auto.
  - rewrite (ctl_timers _ _ (ctl_spawn _ _)). auto.
Qed.

Lemma timers_owned_step e s :
  timers_owned s -> timers_owned (step JSON_stringify e s).
Proof.
  intros Hinv h cb H.
  apply step_timers_Some in H
    as [H | (url & l & n & id & now & acc & -> & Hs & [[-> ->] | [-> ->]])].
  - destruct (Hinv h cb H) as (rq & Hk & Hh).
    destruct (step_lookup_same _ e s rq Hk) as (rq' & Hk' & _ & _ & E1 & E2 & _).
    exists rq'. split; [exact Hk' |]. destruct cb; congruence.
  - cbn [step owner]. rewrite (requests_start _ _ _ _ _ _ _ Hs).
    eexists. split; [apply list_lookup_middle; reflexivity | reflexivity].
  - cbn [step owner]. rewrite (requests_start _ _ _ _ _ _ _ Hs).
    eexists. split; [apply list_lookup_middle; reflexivity | reflexivity].
Qed.

Lemma nextTimer_step e s :
  (nextTimer s <= nextTimer (step JSON_stringify e s))%nat.
Proof.
  destruct e as [url l n id' nowMs acc | h0 now | k' | k' | k' | id'
                | url l n | id' iso | job now | job | w | k'];
    cbn [step].
  - start_cases url acc Hu Hs.
    + rewrite (nextTimer_start _ _ _ _ _ _ _ Hs). lia.
    + rewrite (ctl_nextTimer _ _ (ctl_start_none _ l n id' nowMs _ s Hs)).
      reflexivity.
  - unfold fire_timer. destruct (timers s !! h0) as [[k|k]|]; [| | reflexivity].
    + unfold on_poll. destruct (requests s !! k) as [rq|]; [| reflexivity].
      destruct (existsSync (rq_playlistPath rq) s); [| reflexivity].
      rewrite finalize_nextTimer, (ctl_nextTimer _ _ (ctl_upsert _ _ _ _ _ _ _)).
      reflexivity.
    + unfold on_deadline. cbn [requests set_timers].
      destruct (requests s !! k) as [rq|]; [| reflexivity].
      rewrite finalize_nextTimer, (ctl_nextTimer _ _ (ctl_cleanup _ _)).
      reflexivity.
  - rewrite (ctl_nextTimer _ _ (ctl_write_manifest _ _)). reflexivity.
  - unfold on_error. cbn [requests set_procs].
    destruct (requests s !! k') as [rq|]; [| reflexivity].
    rewrite finalize_nextTimer, (ctl_nextTimer _ _ (ctl_cleanup _ _)).
    reflexivity.
  - unfold on_end. cbn [requests set_procs].
    destruct (requests s !! k') as [rq|]; [| reflexivity].
    rewrite finalize_nextTimer, (ctl_nextTimer _ _ (ctl_cleanup _ _)).
    reflexivity.
  - rewrite (ctl_nextTimer _ _ (ctl_stop _ _)). reflexivity.
  - rewrite (ctl_nextTimer _ _ (ctl_update JSON_stringify _ _ _ _)). reflexivity.
  - rewrite ctl_screenshot. reflexivity.
  - cbn [capture_on_end fst].
    rewrite (ctl_nextTimer _ _ (ctl_addScreenshot JSON_stringify _ _ _ _ _)).
    reflexivity.
  - reflexivity.
  - reflexivity.
  - rewrite (ctl_nextTimer _ _ (ctl_spawn _ _)). reflexivity.
Qed.

End Ownership.

Section Released.

Variable JSON_stringify : list SavedStream -> jsstring.

Lemma step_requests_cases e s :
  length (requests (step JSON_stringify e s)) = length (requests s)
  \/ exists url l n id now acc,
      e = EvStart url l n id now acc /\ truthy url && takes_input url acc = true.
Proof.
  destruct e as [url l n id' nowMs acc | h now | k' | k' | k' | id'
                | url l n | id' iso | job now | job | w | k'];
    cbn [step].
  - start_cases url acc Hu Hs; [right; eauto 10 |].
    left. rewrite (ctl_requests _ _ (ctl_start_none _ l n id' nowMs _ s Hs)).
    reflexivity.
  - left. apply fire_timer_length.
  - left. rewrite (ctl_requests _ _ (ctl_write_manifest k' s)). reflexivity.
  - left. apply (on_fail_length _ k' (set_procs _ s)).
  - left. apply (on_fail_length _ k' (set_procs _ s)).
  - left. rewrite (ctl_requests _ _ (ctl_stop id' s)). reflexivity.
  - left. rewrite (ctl_requests _ _ (ctl_update JSON_stringify url l n s)).
    reflexivity.
  - left. rewrite ctl_screenshot. reflexivity.
  - left. cbn [capture_on_end fst].
    rewrite (ctl_requests _ _ (ctl_addScreenshot JSON_stringify _ _ _ _ s)).
    reflexivity.
  - left. reflexivity.
  - left. reflexivity.
  - left. rewrite (ctl_requests _ _ (ctl_spawn _ _)). reflexivity.
Qed.

Lemma step_new_handles k e s rq :
  requests s !! k = None ->
  requests (step JSON_stringify e s) !! k = Some rq ->
  responded rq = false
  /\ pollTimer rq = Some (nextTimer s)
  /\ timeoutTimer rq = Some (S (nextTimer s))
  /\ nextTimer (step JSON_stringify e s) = S (S (nextTimer s)).
Proof.
  intros Hnone H. apply lookup_ge_None in Hnone.
  destruct (step_requests_cases e s)
    as [Hlen | (url & l & n & id & now & acc & -> & Hs)].
  - apply lookup_lt_Some in H. lia.
  - cbn [step] in *. rewrite (requests_start _ _ _ _ _ _ _ Hs) in H.
    rewrite (nextTimer_start _ _ _ _ _ _ _ Hs).
    apply lookup_app_Some in H as [H | [_ H]].
    + apply lookup_lt_Some in H. lia.
    + apply list_lookup_singleton_Some in H as [_ <-]. split_and!; reflexivity.
Qed.

Lemma finalize_answer_clears k' st b s1 k rq rq' h :
  requests s1 !! k = Some rq -> responded rq = false ->
  requests (finalize k' st b s1) !! k = Some rq' -> responded rq' = true ->
  pollTimer rq = Some h \/ timeoutTimer rq = Some h ->
  timers (finalize k' st b s1) !! h = None.
Proof.
  intros H Hr H' Hr' Hh. rewrite (finalize_lookup k' st b s1 k rq H) in H'.
  destruct (decide (k' = k)) as [->|Hne].
  - eapply finalize_pending_clears; eassumption.
  - rewrite bool_decide_eq_false_2 in H' by exact Hne. cbn [andb] in H'.
    injection H' as <-. congruence.
Qed.

Lemma on_fail_answer_clears msg k' s1 k rq rq' h :
  requests s1 !! k = Some rq -> responded rq = false ->
  requests
    (match requests s1 !! k' with
     | Some rq0 => finalize k' 500 (BError msg) (cleanupStream (rq_streamId rq0) s1)
     | None => s1
     end) !! k = Some rq' ->
  responded rq' = true ->
  pollTimer rq = Some h \/ timeoutTimer rq = Some h ->
  timers
    (match requests s1 !! k' with
     | Some rq0 => finalize k' 500 (BError msg) (cleanupStream (rq_streamId rq0) s1)
     | None => s1
     end) !! h = None.
Proof.
  intros H Hr. destruct (requests s1 !! k') as [rq0|].
  - apply finalize_answer_clears.
    + rewrite (ctl_requests _ _ (ctl_cleanup _ _)). exact H.
    + exact Hr.
  - intros H' Hr'. congruence.
Qed.

(** The step that answers a start request cancels both of its timers. *)
Lemma step_answer_clears e s k rq rq' h :
  requests s !! k = Some rq -> responded rq = false ->
  requests (step JSON_stringify e s) !! k = Some rq' -> responded rq' = true ->
  pollTimer rq = Some h \/ timeoutTimer rq = Some h ->
  timers (step JSON_stringify e s) !! h = None.
Proof.
  intros H Hr.
  destruct e as [url l n id' nowMs acc | h0 now | k' | k' | k' | id'
                | url l n | id' iso | job now | job | w | k'];
    cbn [step].
  - start_cases url acc Hu Hs.
    + rewrite (requests_start _ _ _ _ _ _ _ Hs).
      rewrite (lookup_app_l_Some _ _ _ _ H). congruence.
    + rewrite (ctl_requests _ _ (ctl_start_none _ l n id' nowMs _ s Hs)).
      congruence.
  - unfold fire_timer. destruct (timers s !! h0) as [[k0|k0]|]; [| | congruence].
    + unfold on_poll. destruct (requests s !! k0) as [rq0|]; [| congruence].
      destruct (existsSync (rq_playlistPath rq0) s); [| congruence].
      apply finalize_answer_clears.
      * rewrite (ctl_requests _ _ (ctl_upsert _ _ _ _ _ _ _)). exact H.
      * exact Hr.
    + apply (on_fail_answer_clears _ k0 (set_timers (delete h0) s));
        assumption.
  - rewrite (ctl_requests _ _ (ctl_write_manifest _ _)). congruence.
  - apply (on_fail_answer_clears _ k' (set_procs _ s)); assumption.
  - apply (on_fail_answer_clears _ k' (set_procs _ s)); assumption.
  - rewrite (ctl_requests _ _ (ctl_stop _ _)). congruence.
  - rewrite (ctl_requests _ _ (ctl_update JSON_stringify _ _ _ _)). congruence.
  - rewrite ctl_screenshot. congruence.
  - cbn [capture_on_end fst].
    rewrite (ctl_requests _ _ (ctl_addScreenshot JSON_stringify _ _ _ _ _)).
    congruence.
  - cbn [capture_on_error fst]. congruence.
  - cbn [requests set_diskWritable]. congruence.
  - rewrite (ctl_requests _ _ (ctl_spawn _ _)). congruence.
Qed.

Lemma step_timers_None e s h :
  timers s !! h = None -> (h < nextTimer s)%nat ->
  timers (step JSON_stringify e s) !! h = None.
Proof.
  intros Hn Hlt.
  destruct (timers (step JSON_stringify e s) !! h) as [cb|] eqn:E; [| reflexivity].
  apply step_timers_Some in E
    as [E | (url & l & n & id & now & acc & _ & _ & [[-> _] | [-> _]])];
    [congruence | lia | lia].
Qed.

Lemma timers_released_step e s :
  timers_released s -> timers_released (step JSON_stringify e s).
Proof.
  intros Hinv k rq' H'.
  pose proof (nextTimer_step JSON_stringify e s) as Hmono.
  destruct (requests s !! k) as [rq|] eqn:H.
  - destruct (Hinv k rq H) as (h1 & h2 & Hp & Ht & L1 & L2 & Hrel).
    destruct (step_lookup_same JSON_stringify k e s rq H)
      as (rq1 & H1 & _ & _ & Ep & Et & Hsame).
    rewrite H1 in H'. injection H' as <-.
    exists h1, h2. split_and!; [congruence | congruence | lia | lia |].
    intros Hr'. destruct (responded rq) eqn:Hr.
    + destruct (Hrel eq_refl) as [N1 N2].
      split; apply step_timers_None; assumption.
    + split; eapply (step_answer_clears e s k rq rq1); eauto.
  - destruct (step_new_handles k e s rq' H H') as (Hr & Hp & Ht & Hn).
    exists (nextTimer s), (S (nextTimer s)).
    split_and!; [exact Hp | exact Ht | lia | lia |]. congruence.
Qed.

(** X14.  No timer outlives its start request.  From a server with no
    start request and no timer, after any sequence of events: once a start
    request is answered neither its poll timer nor its deadline timer is
    live; and every live timer is the poll or the deadline timer of a start
    request that is still unanswered. *)
Theorem no_timer_outlives_its_request (s0 : Server) (es : list Event) :
  requests s0 = [] ->
  timers s0 = ∅ ->
  (forall k rq h,
      requests (run JSON_stringify es s0) !! k = Some rq ->
      responded rq = true ->
      pollTimer rq = Some h \/ timeoutTimer rq = Some h ->
      timers (run JSON_stringify es s0) !! h = None)
  /\ (forall h cb,
         timers (run JSON_stringify es s0) !! h = Some cb ->
         pending (owner cb) (run JSON_stringify es s0) = true
         /\ exists rq,
             requests (run JSON_stringify es s0) !! owner cb = Some rq
             /\ (pollTimer rq = Some h \/ timeoutTimer rq = Some h)).
Proof.
  intros H0 T0.
  assert (timers_released (run JSON_stringify es s0)
          /\ timers_owned (run JSON_stringify es s0)) as [Hrel Hown].
  { induction es as [|e es [IH1 IH2]] using rev_ind.
    - split.
      + intros k rq. cbn. rewrite H0, lookup_nil. discriminate.
      + intros h cb. cbn. rewrite T0, lookup_empty. discriminate.
    - rewrite run_snoc. split;
        [apply timers_released_step | apply timers_owned_step]; assumption. }
  assert (forall k rq h,
             requests (run JSON_stringify es s0) !! k = Some rq ->
             responded rq = true ->
             pollTimer rq = Some h \/ timeoutTimer rq = Some h ->
             timers (run JSON_stringify es s0) !! h = None) as Hgone.
  { intros k rq h H Hr Hh.
    destruct (Hrel k rq H) as (h1 & h2 & Hp & Ht & _ & _ & Hn).
    destruct (Hn Hr) as [N1 N2]. destruct Hh; congruence. }
  split; [exact Hgone |].
  intros h cb H. destruct (Hown h cb H) as (rq & Hk & Hh).
  assert (pollTimer rq = Some h \/ timeoutTimer rq = Some h) as Hh'
      by (destruct cb; auto).
  split; [| eauto].
  unfold pending. rewrite Hk.
  destruct (responded rq) eqn:Hr; [| reflexivity].
  rewrite (Hgone _ rq h Hk Hr Hh') in H. discriminate.
Qed.

End Released.

(** ** Sanitizing what was sanitized *)

Lemma trimStart_id (s : jsstring) :
  (forall c, head s = Some c -> is_whitespace c = false) -> trimStart s = s.
Proof.
  destruct s as [|c s]; [reflexivity |]. intros H. cbn [trimStart].
  rewrite (H c eq_refl). reflexivity.
Qed.

Lemma head_rev_last {A} (l : list A) : head (rev l) = last l.
Proof. rewrite <- (rev_involutive l) at 2. symmetry. apply last_rev_head. Qed.

Lemma trimEnd_id (s : jsstring) :
  (forall c, last s = Some c -> is_whitespace c = false) -> trimEnd s = s.
Proof.
  intros H. unfold trimEnd. rewrite trimStart_id; [apply rev_involutive |].
  intros c. rewrite head_rev_last. apply H.
Qed.

Lemma trimEnd_prefix (s : jsstring) : trimEnd s `prefix_of` s.
Proof.
  induction s as [|c s IH]; [reflexivity |].
  rewrite trimEnd_cons. destruct (forallb is_whitespace s).
  - destruct (is_whitespace c); [apply prefix_nil |].
    exists s. reflexivity.
  - apply prefix_cons. exact IH.
Qed.

Lemma sanitizeText_head (v : JsValue) (n : nat) (c : N) :
  head (sanitizeText v n) = Some c -> is_whitespace c = false.
Proof.
  destruct v; try discriminate. rewrite sanitizeText_string. intros H.
  apply head_take in H. eapply trim_head. exact H.
Qed.

(** X15.  Sanitizing a sanitized value again never adds anything: the
    result is a prefix of the value.  It is the value itself when the
    value does not end with whitespace, in particular when the trimmed
    input was within the bound, so that a label or notes read back from
    the server and sent again is stored unchanged. *)
Theorem sanitize_again_is_stable (v : JsValue) (n : nat) :
  sanitizeText (JString (sanitizeText v n)) n `prefix_of` sanitizeText v n
  /\ (surrounding_whitespace (sanitizeText v n) = false ->
      sanitizeText (JString (sanitizeText v n)) n = sanitizeText v n)
  /\ (forall t, v = JString t -> (length (trim t) <= n)%nat ->
      sanitizeText (JString (sanitizeText v n)) n = sanitizeText v n).
Proof.
  set (x := sanitizeText v n).
  assert (trimStart x = x) as Hs
      by (apply trimStart_id, (sanitizeText_head v n)).
  assert (surrounding_whitespace x = false ->
          sanitizeText (JString x) n = x) as Hstable.
  { intros Hw. rewrite sanitizeText_string. unfold trim. rewrite Hs.
    rewrite trimEnd_id; [apply take_ge, sanitizeText_length |].
    intros c Hc. unfold surrounding_whitespace in Hw. rewrite Hc in Hw.
    destruct (head x) as [a|] eqn:Ha.
    - apply orb_false_iff in Hw as [_ Hw]. exact Hw.
    - apply head_None in Ha. rewrite Ha in Hc. discriminate. }
  split_and!.
  - rewrite sanitizeText_string. unfold trim. rewrite Hs.
    etransitivity; [apply prefix_take | apply trimEnd_prefix].
  - exact Hstable.
  - intros t -> Hlen. apply Hstable. unfold x.
    rewrite sanitizeText_string, take_ge by exact Hlen.
    unfold surrounding_whitespace.
    destruct (head (trim t)) as [a|] eqn:Ha; [| reflexivity].
    destruct (last (trim t)) as [b|] eqn:Hb; [| reflexivity].
    rewrite (trim_head _ _ Ha), (trim_last _ _ Hb). reflexivity.
Qed.

(** ** The listing *)

(** X16.  [GET /streams] lists exactly the registered sessions, each once,
    with the URL and the start time the registry holds and with the time
    since then as uptime.  A session is listed from the moment the handler
    of its start request returns, before it is ready, when the URL was
    truthy and fluent-ffmpeg took it; a start request that is rejected or
    throws adds nothing to the listing. *)
Theorem listing_shows_registered_sessions
  (nowMs : Z) (s : Server)
  (url l n : JsValue) (id : jsstring) (startMs : Z) (acc : bool) :
  (forall e,
      e ∈ list_streams nowMs s <->
      exists info,
        activeStreams s !! entry_streamId e = Some info
        /\ entry_rtspUrl e = info_rtspUrl info
        /\ entry_startTime e = startTime info
        /\ entry_uptime e = (nowMs - startTime info)%Z)
  /\ NoDup (entry_streamId <$> list_streams nowMs s)
  /\ length (list_streams nowMs s) = size (activeStreams s)
  /\ (truthy url && takes_input url acc = true ->
      {| entry_streamId := id; entry_rtspUrl := url; entry_startTime := startMs;
         entry_uptime := nowMs - startMs |}
        ∈ list_streams nowMs (fst (start_stream url l n id startMs acc s)))
  /\ (truthy url && takes_input url acc = false ->
      list_streams nowMs (fst (start_stream url l n id startMs acc s))
      = list_streams nowMs s).
Proof.
  assert (forall s' e,
      e ∈ list_streams nowMs s' <->
      exists info,
        activeStreams s' !! entry_streamId e = Some info
        /\ entry_rtspUrl e = info_rtspUrl info
        /\ entry_startTime e = startTime info
        /\ entry_uptime e = (nowMs - startTime info)%Z) as Hin.
  { intros s' e. unfold list_streams. rewrite list_elem_of_fmap. split.
    - intros ([i info] & -> & H). apply elem_of_map_to_list in H.
      exists info. cbn. auto.
    - intros (info & H & E1 & E2 & E3). exists (entry_streamId e, info).
      split; [| apply elem_of_map_to_list; exact H].
      destruct e. cbn in *. subst. reflexivity. }
  split_and!.
  - apply Hin.
  - unfold list_streams. rewrite <- list_fmap_compose.
    apply NoDup_fst_map_to_list.
  - unfold list_streams. rewrite length_fmap. apply length_map_to_list.
  - intros Hs. apply Hin. cbn [entry_streamId entry_rtspUrl entry_startTime
                                entry_uptime].
    rewrite (activeStreams_start _ _ _ _ _ _ _ Hs), lookup_insert_eq.
    eexists. split; [reflexivity |]. split_and!; reflexivity.
  - intros Hs. unfold list_streams.
    rewrite (activeStreams_start_none _ _ _ _ _ _ _ Hs). reflexivity.
Qed.

(** ** Capture requests, starts and updates *)

Lemma fs_safe_spec (iso : jsstring) :
  length (fs_safe iso) = length iso
  /\ (58%N ∉ fs_safe iso) /\ (46%N ∉ fs_safe iso)
  /\ (forall i c, iso !! i = Some c -> c <> 58%N -> c <> 46%N ->
                  fs_safe iso !! i = Some c).
Proof.
  unfold fs_safe. split_and!.
  - apply length_fmap.
  - intros H. apply list_elem_of_fmap in H as (c & Hc & _).
    destruct ((c =? 58)%N || (c =? 46)%N) eqn:E; [discriminate |].
    apply orb_false_iff in E as [E _]. apply N.eqb_neq in E. congruence.
  - intros H. apply list_elem_of_fmap in H as (c & Hc & _).
    destruct ((c =? 58)%N || (c =? 46)%N) eqn:E; [discriminate |].
    apply orb_false_iff in E as [_ E]. apply N.eqb_neq in E. congruence.
  - intros i c H H1 H2. rewrite list_lookup_fmap, H. cbn.
    apply N.eqb_neq in H1, H2. rewrite H1, H2. reflexivity.
Qed.

(** X17.  A capture request for a registered session whose playlist exists
    changes nothing and starts an extraction that writes to the file named
    by the session id, a dash, the time and [.jpg], where the time has a
    dash in the place of every colon and period and is otherwise the ISO
    string; the extraction keeps the session's registry entry, so its URL,
    whatever happens to the session before the extraction ends. *)
Theorem capture_request_names_the_file
  (s : Server) (id iso : jsstring) (info : StreamInfo) :
  activeStreams s !! id = Some info ->
  existsSync (playlistPath info) s = true ->
  screenshot id iso s
  = (s, inr {| cap_streamInfo := info; cap_streamId := id;
               cap_fileName := id ++ js "-" ++ fs_safe iso ++ js ".jpg" |})
  /\ length (fs_safe iso) = length iso
  /\ (58%N ∉ fs_safe iso) /\ (46%N ∉ fs_safe iso)
  /\ (forall i c, iso !! i = Some c -> c <> 58%N -> c <> 46%N ->
                  fs_safe iso !! i = Some c).
Proof.
  intros H He. split; [| apply fs_safe_spec].
  unfold screenshot. rewrite H, He. reflexivity.
Qed.

(** X18.  A start request without a URL is answered 400 and allocates
    nothing: the state is what it was.  One whose URL fluent-ffmpeg does
    not take, a number, a boolean or an array among them, makes the
    handler throw after the directory of the new id was made: Express
    answers 500, nothing is registered, no closure and no timer is left,
    the saved records are untouched, and the directory stays, owned by no
    session.  One whose URL is taken, as every string is, is not answered
    by the handler; when the handler returns the session is registered
    under the new id with the sanitized label and notes, its directory
    exists, the handler has put no process into the table (the child is
    spawned by fluent-ffmpeg, in a step of its own), its request is
    unanswered with a live poll timer and a live deadline timer, nothing
    that was on the disk is gone, and the saved records are untouched: a
    source is recorded when its stream becomes ready, not when it is
    started. *)
Theorem start_allocates_or_rejects
  (s : Server) (url l n : JsValue) (id : jsstring) (nowMs : Z) (acc : bool) :
  (truthy url = false ->
   start_stream url l n id nowMs acc s
   = (s, Some {| status := 400; body := BError (js "RTSP URL is required") |}))
  /\ (truthy url = true -> takes_input url acc = false ->
      snd (start_stream url l n id nowMs acc s)
      = Some {| status := 500; body := BUncaught |}
      /\ activeStreams (fst (start_stream url l n id nowMs acc s))
         = activeStreams s
      /\ ctl (fst (start_stream url l n id nowMs acc s)) = ctl s
      /\ procs (fst (start_stream url l n id nowMs acc s)) = procs s
      /\ store (fst (start_stream url l n id nowMs acc s)) = store s
      /\ existsSync (stream_dir id) (fst (start_stream url l n id nowMs acc s))
         = true
      /\ (forall q, existsSync q s = true ->
                    existsSync q (fst (start_stream url l n id nowMs acc s))
                    = true))
  /\ (truthy url = true -> takes_input url acc = true ->
      snd (start_stream url l n id nowMs acc s) = None
      /\ activeStreams (fst (start_stream url l n id nowMs acc s)) !! id
         = Some {| info_rtspUrl := url;
                   info_label := sanitizeText l 60;
                   info_notes := sanitizeText n 280;
                   ffmpegProcess := length (requests s);
                   streamDir := stream_dir id;
                   playlistPath := stream_dir id ++ [js "playlist.m3u8"];
                   startTime := nowMs |}
      /\ existsSync (stream_dir id) (fst (start_stream url l n id nowMs acc s))
         = true
      /\ (forall q, existsSync q s = true ->
                    existsSync q (fst (start_stream url l n id nowMs acc s))
                    = true)
      /\ procs (fst (start_stream url l n id nowMs acc s)) = procs s
      /\ pending (length (requests s))
           (fst (start_stream url l n id nowMs acc s)) = true
      /\ timers (fst (start_stream url l n id nowMs acc s)) !! nextTimer s
         = Some (PollOf (length (requests s)))
      /\ timers (fst (start_stream url l n id nowMs acc s)) !! S (nextTimer s)
         = Some (DeadlineOf (length (requests s)))
      /\ store (fst (start_stream url l n id nowMs acc s)) = store s)
  /\ (forall t, takes_input (JString t) acc = true)
  /\ (forall bits b x elems,
         takes_input (JNumber bits) acc = false
         /\ takes_input (JBool b) acc = false
         /\ takes_input (JArray x elems) acc = false).
Proof.
  assert (stream_dir id <> []) as Hne by discriminate.
  pose proof (ensureDirectoryExists_exists (stream_dir id) s Hne) as Hex.
  pose proof (fun q => ensureDirectoryExists_keeps (stream_dir id) q s) as Hkeep.
  assert (forall s', procs (ensureDirectoryExists (stream_dir id) s') = procs s')
    as Eprocs.
  { intros s'. unfold ensureDirectoryExists.
    destruct (negb (existsSync (stream_dir id) s')); reflexivity. }
  split_and!.
  - apply start_rejected.
  - intros Hu Ht. rewrite (start_thrown _ l n id nowMs _ s Hu Ht). cbn [fst snd].
    split_and!.
    + reflexivity.
    + unfold ensureDirectoryExists.
      destruct (negb (existsSync (stream_dir id) s)); reflexivity.
    + apply ctl_ensureDirectoryExists.
    + apply Eprocs.
    + unfold ensureDirectoryExists.
      destruct (negb (existsSync (stream_dir id) s)); reflexivity.
    + exact Hex.
    + exact Hkeep.
  - intros Hu Ht.
    assert (truthy url && takes_input url acc = true) as Hs
        by (rewrite Hu, Ht; reflexivity).
    assert (paths (fst (start_stream url l n id nowMs acc s))
            = paths (ensureDirectoryExists (stream_dir id) s)) as Ep.
    { unfold start_stream. rewrite Hu, Ht. reflexivity. }
    split_and!.
    + unfold start_stream. rewrite Hu, Ht. reflexivity.
    + rewrite (activeStreams_start _ _ _ _ _ _ _ Hs). apply lookup_insert_eq.
    + unfold existsSync. rewrite Ep. exact Hex.
    + intros q Hq. unfold existsSync. rewrite Ep. apply Hkeep. exact Hq.
    + unfold start_stream. rewrite Hu, Ht. cbn [negb fst].
      cbn [procs set_requests set_nextTimer set_timers set_activeStreams].
      apply Eprocs.
    + unfold pending. rewrite (requests_start _ _ _ _ _ _ _ Hs).
      rewrite list_lookup_middle by reflexivity. reflexivity.
    + rewrite (timers_start _ _ _ _ _ _ _ Hs).
      rewrite lookup_insert_ne by lia. apply lookup_insert_eq.
    + rewrite (timers_start _ _ _ _ _ _ _ Hs). apply lookup_insert_eq.
    + apply store_start.
  - reflexivity.
  - intros bits b x elems. split_and!; reflexivity.
Qed.

Section OneRecord.

Variable JSON_stringify : list SavedStream -> jsstring.

Lemma lookup_other_insert (l : list SavedStream) url i r r' j rj :
  find_saved url l = Some (i, r) ->
  l !! j = Some rj -> strict_eq (rtspUrl rj) url = false ->
  <[i := r']> l !! j = Some rj.
Proof.
  intros Hf Hj Hn. apply find_saved_Some in Hf as [Hi Hu].
  rewrite list_lookup_insert_ne; [exact Hj |].
  intros ->. rewrite Hi in Hj. injection Hj as <-. congruence.
Qed.

(** X19.  A start, a metadata update and a capture for one URL never
    change the record of another: every saved record whose URL is not
    [===] the call's URL is in its place, unchanged, after
    [upsertSavedStream], after the update handler and after
    [addScreenshotRecord]. *)
Theorem other_records_are_untouched
  (s : Server) (url : JsValue) (j : nat) (rj : SavedStream)
  (id f now : jsstring) (l n : JsValue) :
  savedStreams s !! j = Some rj ->
  strict_eq (rtspUrl rj) url = false ->
  savedStreams (upsertSavedStream JSON_stringify url id l n now s) !! j = Some rj
  /\ savedStreams (fst (update_saved_stream JSON_stringify url l n s)) !! j
     = Some rj
  /\ savedStreams (addScreenshotRecord JSON_stringify url id f now s) !! j
     = Some rj.
Proof.
  intros Hj Hn.
  destruct (find_saved url (savedStreams s)) as [[i r]|] eqn:H; split_and!.
  - rewrite (savedStreams_upsert_found _ _ _ _ _ _ _ _ _ H).
    eapply lookup_other_insert; eassumption.
  - destruct (truthy url) eqn:Hu.
    + rewrite (savedStreams_update_found _ _ _ _ _ _ _ Hu H).
      eapply lookup_other_insert; eassumption.
    + unfold update_saved_stream. rewrite Hu. exact Hj.
  - rewrite (savedStreams_addScreenshot_found _ _ _ _ _ _ _ _ H).
    eapply lookup_other_insert; eassumption.
  - rewrite (savedStreams_upsert_new _ _ _ _ _ _ _ H).
    apply lookup_app_l_Some. exact Hj.
  - destruct (truthy url) eqn:Hu.
    + rewrite (savedStreams_update_new _ _ _ _ _ Hu H).
      apply lookup_app_l_Some. exact Hj.
    + unfold update_saved_stream. rewrite Hu. exact Hj.
  - rewrite (savedStreams_addScreenshot_new _ _ _ _ _ _ H).
    apply lookup_app_l_Some. exact Hj.
Qed.

(** X20.  The metadata update answers with the record as it is stored:
    with a URL that passes the check the answer is 200 and carries the
    record [find] now yields for the URL, whose label and notes are the
    sanitized inputs; a record that existed keeps its place, its
    screenshots and its last session, a new one is added at the end with
    no screenshots and no last session.  Without a usable URL the answer is
    400 and nothing changes. *)
Theorem update_answers_with_stored_record
  (s : Server) (url l n : JsValue) :
  (truthy url = false ->
   update_saved_stream JSON_stringify url l n s
   = (s, {| status := 400; body := BError (js "RTSP URL is required") |}))
  /\ (truthy url = true ->
      exists i r,
        snd (update_saved_stream JSON_stringify url l n s)
        = {| status := 200; body := BSaved r |}
        /\ find_saved url
             (savedStreams (fst (update_saved_stream JSON_stringify url l n s)))
           = Some (i, r)
        /\ label r = JString (sanitizeText l 60)
        /\ notes r = JString (sanitizeText n 280)
        /\ (forall i0 r0,
               find_saved url (savedStreams s) = Some (i0, r0) ->
               i = i0 /\ screenshots r = screenshots r0
               /\ lastStreamId r = lastStreamId r0
               /\ lastStartedAt r = lastStartedAt r0
               /\ length (savedStreams
                            (fst (update_saved_stream JSON_stringify url l n s)))
                  = length (savedStreams s))
        /\ (find_saved url (savedStreams s) = None ->
            i = length (savedStreams s) /\ screenshots r = []
            /\ lastStreamId r = JNull /\ lastStartedAt r = JNull)).
Proof.
  split.
  - intros Hu. unfold update_saved_stream. rewrite Hu. reflexivity.
  - intros Hu. destruct (find_saved url (savedStreams s)) as [[i r]|] eqn:H.
    + exists i, (with_notes (JString (sanitizeText n 280))
                   (with_label (JString (sanitizeText l 60)) r)).
      rewrite (savedStreams_update_found _ _ _ _ _ _ _ Hu H).
      split_and!; try reflexivity.
      * unfold update_saved_stream. rewrite Hu, H. reflexivity.
      * apply find_saved_insert with (r := r); [exact H | reflexivity].
      * intros i0 r0 [= <- <-]. split_and!; try reflexivity.
        apply length_insert.
      * discriminate.
    + eexists. eexists.
      rewrite (savedStreams_update_new _ _ _ _ _ Hu H).
      split_and!.
      * unfold update_saved_stream. rewrite Hu, H. reflexivity.
      * apply find_saved_snoc; [exact H |].
        apply truthy_strict_eq_refl. exact Hu.
      * reflexivity.
      * reflexivity.
      * discriminate.
      * intros _. split_and!; reflexivity.
Qed.

End OneRecord.

(** ** What is stored of label and notes *)

Section StoredText.

Variable JSON_stringify : list SavedStream -> jsstring.

(** Any property of a label and of notes that sanitized texts have. *)
Variables L N : JsValue -> Prop.
Hypothesis L_sanitized : forall v, L (JString (sanitizeText v 60)).
Hypothesis N_sanitized : forall v, N (JString (sanitizeText v 280)).

Lemma record_has_upsert url id ml mn now s :
  Forall (record_has L N) (savedStreams s) ->
  Forall (record_has L N)
    (savedStreams (upsertSavedStream JSON_stringify url id ml mn now s)).
Proof using L_sanitized N_sanitized.
  intros Hb. destruct (find_saved url (savedStreams s)) as [[i r]|] eqn:H.
  - rewrite (savedStreams_upsert_found _ _ _ _ _ _ _ _ _ H).
    apply Forall_insert; [exact Hb |].
    apply find_saved_Some in H as [Hl _].
    pose proof (Forall_lookup_1 _ _ _ _ Hb Hl) as [Bl Bn].
    cbn zeta. unfold record_has.
    destruct (truthy (JString (sanitizeText ml 60)));
      destruct (truthy (JString (sanitizeText mn 280)));
      split; cbn [label notes with_start with_label with_notes];
      first [assumption | apply L_sanitized | apply N_sanitized].
  - rewrite (savedStreams_upsert_new _ _ _ _ _ _ _ H).
    apply Forall_app. split; [exact Hb |].
    apply Forall_singleton. split; [apply L_sanitized | apply N_sanitized].
Qed.

Lemma record_has_update url l n s :
  Forall (record_has L N) (savedStreams s) ->
  Forall (record_has L N)
    (savedStreams (fst (update_saved_stream JSON_stringify url l n s))).
Proof using L_sanitized N_sanitized.
  intros Hb. destruct (truthy url) eqn:Hu.
  2:{ unfold update_saved_stream. rewrite Hu. exact Hb. }
  destruct (find_saved url (savedStreams s)) as [[i r]|] eqn:H.
  - rewrite (savedStreams_update_found _ _ _ _ _ _ _ Hu H).
    apply Forall_insert; [exact Hb |].
    split; [apply L_sanitized | apply N_sanitized].
  - rewrite (savedStreams_update_new _ _ _ _ _ Hu H).
    apply Forall_app. split; [exact Hb |].
    apply Forall_singleton. split; [apply L_sanitized | apply N_sanitized].
Qed.

Lemma record_has_addScreenshot url id f now s :
  Forall (record_has L N) (savedStreams s) ->
  Forall (record_has L N)
    (savedStreams (addScreenshotRecord JSON_stringify url id f now s)).
Proof using L_sanitized N_sanitized.
  intros Hb. destruct (find_saved url (savedStreams s)) as [[i r]|] eqn:H.
  - rewrite (savedStreams_addScreenshot_found _ _ _ _ _ _ _ _ H).
    apply Forall_insert; [exact Hb |].
    apply find_saved_Some in H as [Hl _].
    exact (Forall_lookup_1 _ _ _ _ Hb Hl).
  - rewrite (savedStreams_addScreenshot_new _ _ _ _ _ _ H).
    apply Forall_app. split; [exact Hb |].
    apply Forall_singleton.
    split; [exact (L_sanitized JNull) | exact (N_sanitized JNull)].
Qed.

Lemma record_has_step e s :
  Forall (record_has L N) (savedStreams s) ->
  Forall (record_has L N) (savedStreams (step JSON_stringify e s)).
Proof using L_sanitized N_sanitized.
  intros Hb.
  destruct (may_write_store e s) eqn:Hw.
  2:{ rewrite (store_savedStreams _ _ (store_step_unwritten JSON_stringify e s Hw)).
      exact Hb. }
  destruct e as [url l n id' nowMs acc | h now | k' | k' | k' | id'
                | url l n | id' iso | job now | job | w | k'];
    cbn [may_write_store] in Hw; try discriminate; cbn [step].
  - unfold fire_timer. destruct (timers s !! h) as [[k|k]|]; try discriminate.
    unfold on_poll. destruct (requests s !! k) as [rq|]; [| discriminate].
    rewrite Hw, (store_savedStreams _ _ (store_finalize _ _ _ _)).
    apply record_has_upsert. exact Hb.
  - apply record_has_update. exact Hb.
  - apply record_has_addScreenshot. exact Hb.
  - exact Hb.
Qed.

End StoredText.

Section Stored.

Variable JSON_stringify : list SavedStream -> jsstring.

Lemma tidy_sanitize (v : JsValue) (n : nat) : tidy n (sanitizeText v n).
Proof.
  split; [apply sanitizeText_length |].
  split; [apply sanitizeText_head |].
  destruct v; try (left; discriminate).
  rewrite sanitizeText_string.
  destruct (decide (length (trim s) <= n)%nat) as [Hle | Hgt].
  - left. rewrite take_ge by exact Hle. apply trim_last.
  - right. rewrite length_take. lia.
Qed.

Lemma tidy_value_sanitize (v : JsValue) (n : nat) :
  tidy_value n (JString (sanitizeText v n)).
Proof. eexists. split; [reflexivity | apply tidy_sanitize]. Qed.

Lemma store_tidy_step e s :
  store_tidy s -> store_tidy (step JSON_stringify e s).
Proof.
  intros [Hb Hr]. split.
  - apply (record_has_step JSON_stringify (tidy_value 60) (tidy_value 280));
      [intros v; apply tidy_value_sanitize | intros v; apply tidy_value_sanitize
      | exact Hb].
  - intros id info H.
    apply step_activeStreams in H as [H | (url & l & n & now & acc & _ & _ & ->)].
    + apply (Hr id). exact H.
    + split; apply tidy_sanitize.
Qed.

Lemma store_tidy_run es s :
  store_tidy s -> store_tidy (run JSON_stringify es s).
Proof.
  intros Hinv. induction es as [|e es IH] using rev_ind; [exact Hinv |].
  rewrite run_snoc. apply store_tidy_step. exact IH.
Qed.

Lemma store_bounded_upsert url id l n now s :
  store_bounded s ->
  store_bounded (upsertSavedStream JSON_stringify url id l n now s).
Proof.
  intros [Hb Hr]. split; [apply bounded_upsert; exact Hb |].
  rewrite (sessions_activeStreams _ _ (sessions_upsert JSON_stringify _ _ _ _ _ _)).
  exact Hr.
Qed.

Lemma load_record_label (a : N) (props : list (jsstring * JsValue)) :
  exists r,
    load_record (JObject a props) = Return r
    /\ label r = js_or (lookup_prop (js "label") props) (JString [])
    /\ notes r = js_or (lookup_prop (js "notes") props) (JString []).
Proof. eexists. split; [reflexivity |]. split; reflexivity. Qed.

(** C8, as the code has it.  [sanitizeText] cuts a text to the bound it is
    given: the first 60 code units of the trimmed label, the first 280 of
    the trimmed notes.  Label and notes never decide whether an operation
    is accepted: the answer of a start request is the same for every label
    and notes, a start whose URL is taken goes on to register the session,
    and a metadata update with a URL answers 200.  What the operations
    store is the cut text: the registry entry of a start holds it, the
    record of a metadata update holds it, and the record of
    [upsertSavedStream] holds it where it is not empty and keeps what it
    had where it is empty.  So from a store whose labels and notes are
    within 60 and 280 code units, as that of a server that starts without
    its file, they are within them after any sequence of events and after
    each operation.  [loadSavedStreams] takes the label and the notes of
    a record of the file unsanitized, [stream.label || ''] and
    [stream.notes || '']. *)
Theorem long_text_is_cut_where_it_is_stored
  (s : Server) (es : list Event) (url l n l' n' : JsValue)
  (id now : jsstring) (nowMs : Z) (acc : bool)
  (a : N) (props : list (jsstring * JsValue)) :
  store_bounded s ->
  truthy url = true ->
  (forall v m, (length (sanitizeText v m) <= m)%nat)
  /\ (forall t m, sanitizeText (JString t) m = take m (trim t))
  /\ snd (start_stream url l n id nowMs acc s)
     = snd (start_stream url l' n' id nowMs acc s)
  /\ (takes_input url acc = true ->
      snd (start_stream url l n id nowMs acc s) = None
      /\ exists info,
          activeStreams (fst (start_stream url l n id nowMs acc s)) !! id
          = Some info
          /\ info_label info = sanitizeText l 60
          /\ info_notes info = sanitizeText n 280)
  /\ status (snd (update_saved_stream JSON_stringify url l n s)) = 200%nat
  /\ (exists i r,
         find_saved url
           (savedStreams (fst (update_saved_stream JSON_stringify url l n s)))
         = Some (i, r)
         /\ label r = JString (sanitizeText l 60)
         /\ notes r = JString (sanitizeText n 280))
  /\ (exists i r,
         find_saved url
           (savedStreams (upsertSavedStream JSON_stringify url id l n now s))
         = Some (i, r)
         /\ (sanitizeText l 60 <> [] -> label r = JString (sanitizeText l 60))
         /\ (sanitizeText n 280 <> [] -> notes r = JString (sanitizeText n 280))
         /\ (find_saved url (savedStreams s) = None ->
             label r = JString (sanitizeText l 60)
             /\ notes r = JString (sanitizeText n 280))
         /\ (forall i0 r0,
                find_saved url (savedStreams s) = Some (i0, r0) ->
                (sanitizeText l 60 = [] -> label r = label r0)
                /\ (sanitizeText n 280 = [] -> notes r = notes r0)))
  /\ store_bounded (run JSON_stringify es s)
  /\ store_bounded (fst (start_stream url l n id nowMs acc s))
  /\ store_bounded (fst (update_saved_stream JSON_stringify url l n s))
  /\ store_bounded (upsertSavedStream JSON_stringify url id l n now s)
  /\ (forall parse writable disk s',
         boot parse Missing writable disk = Return s' -> store_bounded s')
  /\ (exists r',
         load_record (JObject a props) = Return r'
         /\ label r' = js_or (lookup_prop (js "label") props) (JString [])
         /\ notes r' = js_or (lookup_prop (js "notes") props) (JString [])).
Proof.
  intros Hb Hu. split_and!.
  - apply sanitizeText_length.
  - apply sanitizeText_string.
  - unfold start_stream. rewrite Hu. cbn [negb].
    destruct (takes_input url acc); reflexivity.
  - intros Ht.
    assert (truthy url && takes_input url acc = true) as Hs
        by (rewrite Hu, Ht; reflexivity).
    split; [unfold start_stream; rewrite Hu, Ht; reflexivity |].
    rewrite (activeStreams_start _ _ _ _ _ _ _ Hs), lookup_insert_eq.
    eexists. split; [reflexivity |]. split; reflexivity.
  - unfold update_saved_stream. rewrite Hu. cbn [negb].
    destruct (find_saved url _) as [[i r]|]; reflexivity.
  - apply find_saved_after_update. exact Hu.
  - destruct (find_saved_after_upsert JSON_stringify url id l n now s
                (truthy_strict_eq_refl url Hu))
      as (i & r & Hf & _ & _ & Hl & Hn & Hold & Hnew).
    exists i, r. split_and!; [exact Hf | exact Hl | exact Hn | |].
    + intros H. destruct (Hnew H) as (_ & _ & El & En). split; assumption.
    + intros i0 r0 H. destruct (Hold r0 i0 H) as (_ & _ & El & En).
      split; assumption.
  - apply store_bounded_run. exact Hb.
  - apply (store_bounded_step JSON_stringify (EvStart url l n id nowMs acc)).
    exact Hb.
  - apply (store_bounded_step JSON_stringify (EvUpdate url l n)). exact Hb.
  - apply store_bounded_upsert. exact Hb.
  - intros parse writable disk s' [= <-].
    assert (forall p s0, savedStreams (ensureDirectoryExists p s0) = savedStreams s0
                         /\ activeStreams (ensureDirectoryExists p s0)
                            = activeStreams s0) as E.
    { intros p s0. unfold ensureDirectoryExists.
      destruct (negb (existsSync p s0)); split; reflexivity. }
    split.
    + rewrite !(proj1 (E _ _)). constructor.
    + intros id0 info. rewrite !(proj2 (E _ _)). cbn [activeStreams].
      rewrite lookup_empty. discriminate.
  - apply load_record_label.
Qed.

(** C10, as the code has it.  [sanitizeText] turns every value that is not
    a string into the empty string, and a string into the first
    [maxLength] code units of the trimmed string.  The result never starts
    with whitespace, and does not end with whitespace when the trimmed
    string is within the bound; a string of whitespace only becomes the
    empty string, which [upsertSavedStream] does not write over the stored
    label or notes.  The sanitized text is what the operations store: the
    record of a metadata update holds it, the record of
    [upsertSavedStream] holds it where it is not empty, the registry entry
    of a start holds it.  So from a store whose labels and notes are within
    the bound, do not start with whitespace and end with whitespace only
    at the bound, as an empty store, every stored label and notes is so
    after any sequence of events.  [loadSavedStreams] takes the label and
    the notes of a record of the file unsanitized, [stream.label || '']
    and [stream.notes || '']. *)
Theorem sanitize_trims_then_cuts
  (v vn l n : JsValue) (t : jsstring) (m : nat)
  (s : Server) (es : list Event) (url : JsValue) (id now : jsstring) (nowMs : Z)
  (acc : bool)
  (i : nat) (r : SavedStream) (a : N) (props : list (jsstring * JsValue)) :
  store_tidy s ->
  ((forall t', v <> JString t') -> sanitizeText v m = [])
  /\ sanitizeText (JString t) m = take m (trim t)
  /\ (forall c, head (sanitizeText (JString t) m) = Some c -> is_whitespace c = false)
  /\ ((length (trim t) <= m)%nat ->
      surrounding_whitespace (sanitizeText (JString t) m) = false)
  /\ (forallb is_whitespace t = true -> sanitizeText (JString t) m = [])
  /\ (find_saved url (savedStreams s) = Some (i, r) ->
      blank v = true -> blank vn = true ->
      savedStreams (upsertSavedStream JSON_stringify url id v vn now s)
      = <[i := with_start (JString id) (JString now) r]> (savedStreams s))
  /\ tidy m (sanitizeText v m)
  /\ (truthy url = true ->
      (exists i' r',
          find_saved url
            (savedStreams (fst (update_saved_stream JSON_stringify url l n s)))
          = Some (i', r')
          /\ label r' = JString (sanitizeText l 60)
          /\ notes r' = JString (sanitizeText n 280))
      /\ (exists i' r',
             find_saved url
               (savedStreams (upsertSavedStream JSON_stringify url id l n now s))
             = Some (i', r')
             /\ (sanitizeText l 60 <> [] -> label r' = JString (sanitizeText l 60))
             /\ (sanitizeText n 280 <> [] ->
                 notes r' = JString (sanitizeText n 280)))
      /\ (takes_input url acc = true ->
          exists info,
            activeStreams (fst (start_stream url l n id nowMs acc s)) !! id
            = Some info
            /\ info_label info = sanitizeText l 60
            /\ info_notes info = sanitizeText n 280))
  /\ store_tidy (run JSON_stringify es s)
  /\ (exists r',
         load_record (JObject a props) = Return r'
         /\ label r' = js_or (lookup_prop (js "label") props) (JString [])
         /\ notes r' = js_or (lookup_prop (js "notes") props) (JString [])).
Proof.
  intros Ht. split_and!.
  - intros Hv. destruct v; try reflexivity. exfalso. eapply Hv. reflexivity.
  - apply sanitizeText_string.
  - intros c. rewrite sanitizeText_string. intros H.
    apply head_take in H. eapply trim_head. exact H.
  - intros Hlen. rewrite sanitizeText_string, take_ge by exact Hlen.
    unfold surrounding_whitespace.
    destruct (head (trim t)) as [x|] eqn:Hx; [| reflexivity].
    destruct (last (trim t)) as [y|] eqn:Hy; [| reflexivity].
    rewrite (trim_head _ _ Hx), (trim_last _ _ Hy). reflexivity.
  - intros Hw. apply (sanitizeText_blank (JString t)). exact Hw.
  - intros H Hv Hvn. rewrite (savedStreams_upsert_found _ _ _ _ _ _ _ _ _ H).
    rewrite (sanitizeText_blank v 60 Hv), (sanitizeText_blank vn 280 Hvn).
    reflexivity.
  - apply tidy_sanitize.
  - intros Hu. split_and!.
    + apply find_saved_after_update. exact Hu.
    + destruct (find_saved_after_upsert JSON_stringify url id l n now s
                  (truthy_strict_eq_refl url Hu))
        as (i' & r' & Hf & _ & _ & Hl & Hn & _).
      exists i', r'. split_and!; assumption.
    + intros Hta.
      assert (truthy url && takes_input url acc = true) as Hs
          by (rewrite Hu, Hta; reflexivity).
      rewrite (activeStreams_start _ _ _ _ _ _ _ Hs), lookup_insert_eq.
      eexists. split; [reflexivity |]. split; reflexivity.
  - apply store_tidy_run. exact Ht.
  - apply load_record_label.
Qed.

End Stored.

(** C8, as the claim has it, fails: [loadSavedStreams] keeps the label of
    the file, so a label of 61 code units in the file is stored with its
    61 code units, and stays when the source is started again without a
    label. *)
Lemma loaded_label_is_kept_uncut :
  long_file_parse long_file_text
  = Some (JArray 1 [JObject 2 [(js "rtspUrl", cam1);
                               (js "label", JString (replicate 61 97%N))]])
  /\ (s ← boot long_file_parse (Content long_file_text) true ∅;
      Return (label <$> savedStreams s))
     = Return [JString (replicate 61 97%N)]
  /\ (s ← boot long_file_parse (Content long_file_text) true ∅;
      Return (label <$> savedStreams
                          (run no_stringify
                             [EvStart cam1 JUndefined JUndefined id1 0 true;
                              EvManifest 0; EvTimer 0 t0] s)))
     = Return [JString (replicate 61 97%N)]
  /\ length (replicate 61 97%N) = 61%nat.
Proof. split_and!; vm_compute; reflexivity. Qed.

(** ** The further properties at sample inputs *)

Lemma owns_process_empty : owns_process empty_server.
Proof. intros id info. cbn. rewrite lookup_empty. discriminate. Qed.

Lemma sample_started_registry :
  forall id, is_Some (activeStreams sample_started !! id) -> id ∈ [id1].
Proof.
  intros id [info H].
  assert (activeStreams sample_started = <[id1 := sample_info]> ∅) as E
      by (vm_compute; reflexivity).
  rewrite E in H. apply lookup_insert_Some in H as [[<- _] | [_ H]].
  - apply list_elem_of_singleton. reflexivity.
  - rewrite lookup_empty in H. discriminate.
Qed.

Lemma sample_two_saved_distinct :
  distinct_urls (rtspUrl <$> savedStreams sample_two_saved).
Proof.
  change (distinct_urls (([] ++ [cam1]) ++ [other_cam])).
  apply distinct_urls_snoc; [apply distinct_urls_snoc; [apply distinct_urls_nil |] |].
  - intros a Ha. apply elem_of_nil in Ha. contradiction.
  - intros a Ha. apply list_elem_of_singleton in Ha as ->. reflexivity.
Qed.

Lemma saved_urls_stay_distinct_witness :
  distinct_urls (rtspUrl <$> savedStreams sample_two_saved)
  /\ rtspUrl <$> savedStreams sample_two_saved = [cam1; other_cam]
  /\ rtspUrl <$> savedStreams (run no_stringify sample_store_trace sample_two_saved)
     = [cam1; other_cam; third_cam]
  /\ distinct_urls
       (rtspUrl <$> savedStreams
                      (run no_stringify sample_store_trace sample_two_saved))
  /\ find_saved other_cam (savedStreams sample_two_saved) = Some (1%nat, other_record)
  /\ (exists r',
         savedStreams (upsertSavedStream no_stringify other_cam id2 long_label
                         JUndefined t0 sample_two_saved)
         = <[1%nat := r']> (savedStreams sample_two_saved)
         /\ rtspUrl r' = other_cam)
  /\ find_saved third_cam (savedStreams sample_two_saved) = None
  /\ rtspUrl <$> savedStreams
                   (addScreenshotRecord no_stringify third_cam id2 (js "a.jpg") t0
                      sample_two_saved)
     = [cam1; other_cam; third_cam].
Proof.
  assert (find_saved other_cam (savedStreams sample_two_saved)
          = Some (1%nat, other_record)) as Hf by (vm_compute; reflexivity).
  assert (find_saved third_cam (savedStreams sample_two_saved) = None) as Hn
      by (vm_compute; reflexivity).
  destruct (saved_urls_stay_distinct no_stringify sample_store_trace sample_two_saved
              other_cam 1 other_record id2 (js "a.jpg") t0 long_label JUndefined
              sample_two_saved_distinct) as (Hd & Hfound & _).
  destruct (Hfound Hf) as ((r' & E & Eu) & _).
  destruct (saved_urls_stay_distinct no_stringify sample_store_trace sample_two_saved
              third_cam 1 other_record id2 (js "a.jpg") t0 long_label JUndefined
              sample_two_saved_distinct) as (_ & _ & Hnew).
  destruct (Hnew Hn) as (_ & _ & Ea).
  split_and!;
    [exact sample_two_saved_distinct | reflexivity | vm_compute; reflexivity
    | exact Hd | exact Hf | | exact Hn | exact Ea].
  exists r'. split; [exact E | exact Eu].
Defined.

Lemma file_follows_records_witness :
  (forall w, EvUpdate cam1 long_label JUndefined <> EvDisk w)
  /\ may_write_store (EvUpdate cam1 long_label JUndefined) empty_server = true
  /\ diskWritable empty_server = true
  /\ synced no_stringify
       (step no_stringify (EvUpdate cam1 long_label JUndefined) empty_server)
  /\ savedStreams (step no_stringify (EvUpdate cam1 long_label JUndefined)
                     (set_diskWritable false empty_server))
     = savedStreams (step no_stringify (EvUpdate cam1 long_label JUndefined)
                       empty_server)
  /\ label <$> savedStreams (step no_stringify (EvUpdate cam1 long_label JUndefined)
                               (set_diskWritable false empty_server))
     = [JString (sanitizeText long_label 60)].
Proof.
  assert (forall w, EvUpdate cam1 long_label JUndefined <> EvDisk w) as Hd
      by (intros w; discriminate).
  destruct (file_follows_records no_stringify
              (EvUpdate cam1 long_label JUndefined) empty_server false
              cam1 long_label JUndefined Hd)
    as (Hw & _ & _ & Hmem & _).
  split_and!;
    [exact Hd | reflexivity | reflexivity | exact (Hw eq_refl eq_refl) | exact Hmem
    | vm_compute; reflexivity].
Defined.

Lemma other_events_leave_store_alone_witness :
  may_write_store (EvStop id1) sample_started = false
  /\ store (step no_stringify (EvStop id1) sample_started) = store sample_started.
Proof.
  split; [reflexivity |].
  exact (other_events_leave_store_alone no_stringify (EvStop id1) sample_started
           eq_refl).
Defined.

Lemma ensureDirectoryExists_creates_once_witness :
  [js "streams"; id1] <> []
  /\ existsSync [js "streams"; id1]
       (ensureDirectoryExists [js "streams"; id1] empty_server) = true
  /\ ensureDirectoryExists [js "streams"; id1]
       (ensureDirectoryExists [js "streams"; id1] empty_server)
     = ensureDirectoryExists [js "streams"; id1] empty_server.
Proof.
  assert ([js "streams"; id1] <> []) as Hne by discriminate.
  destruct (ensureDirectoryExists_creates_once [js "streams"; id1] empty_server Hne)
    as (Hex & _ & _ & _ & Hidem).
  split_and!; [exact Hne | exact Hex | exact Hidem].
Defined.

Lemma load_keeps_all_or_nothing_witness :
  sample_parse (js "[{},null]") = Some (JArray 1 [JObject 2 []; JNull])
  /\ existsb is_nullish [JObject 2 []; JNull] = true
  /\ loadSavedStreams sample_parse (Content (js "[{},null]")) = Return []
  /\ sample_parse (js "[{},7]")
     = Some (JArray 1 [JObject 2 [(js "rtspUrl", cam1); (js "label", JNumber 0)];
                       JNumber 7])
  /\ (exists l,
         loadSavedStreams sample_parse (Content (js "[{},7]")) = Return l
         /\ length l = 2%nat
         /\ rtspUrl <$> l = [cam1; JUndefined]).
Proof.
  assert (sample_parse (js "[{},null]") = Some (JArray 1 [JObject 2 []; JNull]))
    as P1 by (vm_compute; reflexivity).
  assert (sample_parse (js "[{},7]")
          = Some (JArray 1 [JObject 2 [(js "rtspUrl", cam1); (js "label", JNumber 0)];
                            JNumber 7])) as P2 by (vm_compute; reflexivity).
  destruct (load_keeps_all_or_nothing sample_parse _ _ _ P1) as [Hnull _].
  destruct (load_keeps_all_or_nothing sample_parse _ _ _ P2) as [_ Hall].
  destruct (Hall eq_refl) as (l & El & Hlen & Hu & _).
  split_and!; [exact P1 | reflexivity | exact (Hnull eq_refl) | exact P2 |].
  exists l. split_and!; [exact El | exact Hlen |].
  rewrite Hu. vm_compute. reflexivity.
Defined.

Lemma stop_leaves_other_sessions_witness :
  id2 <> id1
  /\ activeStreams sample_two_sessions !! id1 = Some sample_info
  /\ activeStreams sample_two_sessions !! id2 = Some other_info
  /\ existsSync (stream_dir id2) sample_two_sessions = true
  /\ procs sample_two_sessions !! 1%nat = Some Running
  /\ activeStreams (fst (stop_stream id1 sample_two_sessions)) !! id1 = None
  /\ activeStreams (fst (stop_stream id1 sample_two_sessions)) !! id2
     = Some other_info
  /\ existsSync (stream_dir id2) (fst (stop_stream id1 sample_two_sessions)) = true
  /\ procs (fst (stop_stream id1 sample_two_sessions)) !! 1%nat = Some Running
  /\ store (fst (stop_stream id1 sample_two_sessions)) = store sample_two_sessions.
Proof.
  assert (id2 <> id1) as Hne by (vm_compute; discriminate).
  assert (activeStreams sample_two_sessions !! id1 = Some sample_info) as H1
      by (vm_compute; reflexivity).
  assert (activeStreams sample_two_sessions !! id2 = Some other_info) as H2
      by (vm_compute; reflexivity).
  assert (existsSync (stream_dir id2) sample_two_sessions = true) as Hd
      by (vm_compute; reflexivity).
  assert (procs sample_two_sessions !! 1%nat = Some Running) as Hp
      by (vm_compute; reflexivity).
  destruct (stop_leaves_other_sessions sample_two_sessions id1 id2 Hne)
    as (Ha & Hq & _ & Hpr & _ & Hs).
  split_and!;
    [exact Hne | exact H1 | exact H2 | exact Hd | exact Hp
    | vm_compute; reflexivity | | | | exact Hs].
  - rewrite Ha. exact H2.
  - rewrite (Hq (stream_dir id2)) by reflexivity. exact Hd.
  - rewrite (Hpr sample_info 1%nat H1) by (cbn; lia). exact Hp.
Defined.


Lemma late_events_are_noops_witness :
  requests sample_stopped !! 0%nat = Some sample_answered
  /\ responded sample_answered = true
  /\ activeStreams sample_stopped !! rq_streamId sample_answered = None
  /\ on_end 0 sample_stopped = sample_stopped
  /\ step no_stringify (EvProcError 0) sample_stopped
     = set_procs (alter (fun _ => Exited) 0%nat) sample_stopped.
Proof.
  assert (requests sample_stopped !! 0%nat = Some sample_answered) as Hk
      by (vm_compute; reflexivity).
  assert (activeStreams sample_stopped !! rq_streamId sample_answered = None) as Ha
      by (vm_compute; reflexivity).
  destruct (late_events_are_noops no_stringify sample_stopped 0 sample_answered
              Hk eq_refl Ha) as (_ & He & _ & Hs & _).
  split_and!; [exact Hk | reflexivity | exact Ha | exact He | exact Hs].
Defined.

Lemma sigint_cleans_every_session_witness :
  (forall id, is_Some (activeStreams sample_started !! id) -> id ∈ [id1])
  /\ activeStreams (on_sigint [id1] sample_started) = ∅
  /\ existsSync streams_root (on_sigint [id1] sample_started) = false
  /\ store (on_sigint [id1] sample_started) = store sample_started.
Proof.
  destruct (sigint_cleans_every_session [id1] sample_started
              sample_started_registry) as (Ha & Hr & _ & _ & Hs & _).
  split_and!; [exact sample_started_registry | exact Ha | exact Hr | exact Hs].
Defined.

Lemma ready_keeps_session_and_records_it_witness :
  requests sample_written !! 0%nat = Some sample_request
  /\ responded sample_request = false
  /\ timers sample_written !! 0%nat = Some (PollOf 0)
  /\ existsSync (rq_playlistPath sample_request) sample_written = true
  /\ truthy (rq_rtspUrl sample_request) = true
  /\ sessions (step no_stringify (EvTimer 0 t0) sample_written)
     = sessions sample_written
  /\ timers (step no_stringify (EvTimer 0 t0) sample_written) !! 1%nat = None
  /\ (exists i r,
         find_saved cam1
           (savedStreams (step no_stringify (EvTimer 0 t0) sample_written))
         = Some (i, r)
         /\ lastStreamId r = JString id1 /\ lastStartedAt r = JString t0).
Proof.
  assert (requests sample_written !! 0%nat = Some sample_request) as Hk
      by (vm_compute; reflexivity).
  assert (timers sample_written !! 0%nat = Some (PollOf 0)) as Ht
      by (vm_compute; reflexivity).
  assert (existsSync (rq_playlistPath sample_request) sample_written = true) as He
      by (vm_compute; reflexivity).
  destruct (ready_keeps_session_and_records_it no_stringify sample_written 0 0
              sample_request t0 Hk eq_refl Ht He eq_refl)
    as (Hs & _ & Hc & (i & r & Hf & Hi & Hn & _)).
  split_and!;
    [exact Hk | reflexivity | exact Ht | exact He | reflexivity | exact Hs
    | exact (Hc 1%nat (or_intror eq_refl)) |].
  exists i, r. split_and!; assumption.
Defined.

Lemma sessions_own_their_process_witness :
  owns_process empty_server
  /\ owns_process (run no_stringify [sample_start] empty_server).
Proof.
  destruct (sessions_own_their_process no_stringify [sample_start] empty_server
              owns_process_empty) as [H _].
  split; [exact owns_process_empty | exact H].
Defined.

Lemma no_timer_outlives_its_request_witness :
  requests empty_server = []
  /\ timers empty_server = ∅
  /\ requests (run no_stringify sample_trace empty_server) !! 0%nat
     = Some sample_answered
  /\ responded sample_answered = true
  /\ timeoutTimer sample_answered = Some 1%nat
  /\ timers (run no_stringify sample_trace empty_server) !! 1%nat = None.
Proof.
  assert (requests (run no_stringify sample_trace empty_server) !! 0%nat
          = Some sample_answered) as Hk by (vm_compute; reflexivity).
  destruct (no_timer_outlives_its_request no_stringify empty_server sample_trace
              eq_refl eq_refl) as [Hgone _].
  split_and!;
    [reflexivity | reflexivity | exact Hk | reflexivity | reflexivity
    | exact (Hgone 0%nat sample_answered 1%nat Hk eq_refl (or_intror eq_refl))].
Defined.

Lemma capture_request_names_the_file_witness :
  activeStreams sample_written !! id1 = Some sample_info
  /\ existsSync (playlistPath sample_info) sample_written = true
  /\ screenshot id1 t0 sample_written = (sample_written, inr sample_job)
  /\ (58%N ∉ fs_safe t0).
Proof.
  assert (activeStreams sample_written !! id1 = Some sample_info) as Ha
      by (vm_compute; reflexivity).
  assert (existsSync (playlistPath sample_info) sample_written = true) as He
      by (vm_compute; reflexivity).
  destruct (capture_request_names_the_file sample_written id1 t0 sample_info Ha He)
    as (Hs & _ & Hc & _).
  split_and!; [exact Ha | exact He | exact Hs | exact Hc].
Defined.

Lemma listing_shows_registered_sessions_witness :
  truthy cam1 && takes_input cam1 false = true
  /\ {| entry_streamId := id1; entry_rtspUrl := cam1; entry_startTime := 0;
        entry_uptime := 9 - 0 |}
       ∈ list_streams 9 (fst (start_stream cam1 JUndefined JUndefined id1 0 false
                                empty_server))
  /\ truthy five && takes_input five true = false
  /\ list_streams 9 (fst (start_stream five JUndefined JUndefined (js "3f2a-0003")
                            0 true sample_two_sessions))
     = list_streams 9 sample_two_sessions
  /\ length (list_streams 9 sample_two_sessions) = 2%nat.
Proof.
  destruct (listing_shows_registered_sessions 9 empty_server cam1 JUndefined
              JUndefined id1 0 false) as (_ & _ & _ & Hin & _).
  destruct (listing_shows_registered_sessions 9 sample_two_sessions five JUndefined
              JUndefined (js "3f2a-0003") 0 true) as (_ & _ & Hlen & _ & Hout).
  split_and!;
    [reflexivity | exact (Hin eq_refl) | reflexivity | exact (Hout eq_refl) |].
  rewrite Hlen. vm_compute. reflexivity.
Defined.

Lemma start_allocates_or_rejects_witness :
  truthy (JString []) = false
  /\ start_stream (JString []) JUndefined JUndefined id1 0 true empty_server
     = (empty_server,
        Some {| status := 400; body := BError (js "RTSP URL is required") |})
  /\ truthy five = true
  /\ takes_input five true = false
  /\ snd (start_stream five JUndefined JUndefined id1 0 true empty_server)
     = Some {| status := 500; body := BUncaught |}
  /\ activeStreams (fst (start_stream five JUndefined JUndefined id1 0 true
                           empty_server)) = ∅
  /\ existsSync (stream_dir id1)
       (fst (start_stream five JUndefined JUndefined id1 0 true empty_server))
     = true
  /\ truthy bare_object = true
  /\ takes_input bare_object true = false
  /\ ctl (fst (start_stream bare_object JUndefined JUndefined id1 0 true
                 empty_server)) = ctl empty_server
  /\ truthy cam1 = true
  /\ takes_input cam1 false = true
  /\ existsSync (stream_dir id1)
       (fst (start_stream cam1 long_label JUndefined id1 0 false empty_server))
     = true
  /\ pending 0 (fst (start_stream cam1 long_label JUndefined id1 0 false
                       empty_server)) = true.
Proof.
  destruct (start_allocates_or_rejects empty_server (JString []) JUndefined
              JUndefined id1 0 true) as (Hrej & _).
  destruct (start_allocates_or_rejects empty_server five JUndefined JUndefined
              id1 0 true) as (_ & Hthrow & _).
  destruct (Hthrow eq_refl eq_refl) as (Hs & Ha & _ & _ & _ & Hd' & _).
  destruct (start_allocates_or_rejects empty_server bare_object JUndefined
              JUndefined id1 0 true) as (_ & Hthrow' & _).
  destruct (Hthrow' eq_refl eq_refl) as (_ & _ & Hc & _).
  destruct (start_allocates_or_rejects empty_server cam1 long_label JUndefined
              id1 0 false) as (_ & _ & Hacc & _).
  destruct (Hacc eq_refl eq_refl) as (_ & _ & Hd & _ & _ & Hp & _).
  split_and!;
    [reflexivity | exact (Hrej eq_refl) | reflexivity | reflexivity | exact Hs
    | exact Ha | exact Hd' | reflexivity | reflexivity | exact Hc | reflexivity
    | reflexivity | exact Hd | exact Hp].
Defined.

Lemma other_records_are_untouched_witness :
  savedStreams sample_saved !! 0%nat = Some sample_record
  /\ strict_eq (rtspUrl sample_record) other_cam = false
  /\ savedStreams
       (upsertSavedStream no_stringify other_cam id1 long_label JUndefined t0
          sample_saved) !! 0%nat = Some sample_record
  /\ savedStreams
       (addScreenshotRecord no_stringify other_cam id1 (js "a.jpg") t0
          sample_saved) !! 0%nat = Some sample_record.
Proof.
  assert (strict_eq (rtspUrl sample_record) other_cam = false) as Hn
      by (vm_compute; reflexivity).
  destruct (other_records_are_untouched no_stringify sample_saved other_cam 0
              sample_record id1 (js "a.jpg") t0 long_label JUndefined
              eq_refl Hn) as (Hu & _ & Ha).
  split_and!; [reflexivity | exact Hn | exact Hu | exact Ha].
Defined.

Lemma update_answers_with_stored_record_witness :
  truthy cam1 = true
  /\ (exists i r,
         snd (update_saved_stream no_stringify cam1 long_label JUndefined
                sample_saved) = {| status := 200; body := BSaved r |}
         /\ find_saved cam1
              (savedStreams
                 (fst (update_saved_stream no_stringify cam1 long_label JUndefined
                         sample_saved))) = Some (i, r)
         /\ label r = JString (sanitizeText long_label 60)).
Proof.
  destruct (update_answers_with_stored_record no_stringify sample_saved cam1
              long_label JUndefined) as [_ Hok].
  destruct (Hok eq_refl) as (i & r & Hb & Hf & Hl & _).
  split; [reflexivity |]. exists i, r. split_and!; assumption.
Defined.

Lemma store_tidy_empty : store_tidy empty_server.
Proof.
  split; [constructor |]. intros id info. cbn. rewrite lookup_empty. discriminate.
Qed.

Lemma long_text_is_cut_where_it_is_stored_witness :
  store_bounded empty_server
  /\ truthy cam1 = true
  /\ snd (start_stream cam1 long_label JUndefined id1 0 true empty_server) = None
  /\ (exists info,
         activeStreams (fst (start_stream cam1 long_label JUndefined id1 0 true
                               empty_server)) !! id1 = Some info
         /\ info_label info = replicate 59 97%N ++ [32%N])
  /\ status (snd (update_saved_stream no_stringify cam1 long_label JUndefined
                    empty_server)) = 200%nat
  /\ (exists i r,
         find_saved cam1
           (savedStreams (upsertSavedStream no_stringify cam1 id1 long_label
                            JUndefined t0 empty_server)) = Some (i, r)
         /\ label r = JString (replicate 59 97%N ++ [32%N]))
  /\ store_bounded (run no_stringify sample_store_trace empty_server).
Proof.
  destruct (long_text_is_cut_where_it_is_stored no_stringify empty_server
              sample_store_trace cam1 long_label JUndefined JUndefined JUndefined
              id1 t0 0 true 2 [] store_bounded_empty eq_refl)
    as (_ & _ & _ & Hstart & Hu & _ & (i & r & Hf & Hr & _) & Hrun & _).
  destruct (Hstart eq_refl) as (Hs & info & Ha & Hl & _).
  split_and!;
    [exact store_bounded_empty | reflexivity | exact Hs | | exact Hu | | exact Hrun].
  - exists info. split; [exact Ha |]. rewrite Hl. vm_compute. reflexivity.
  - exists i, r. split; [exact Hf |].
    rewrite Hr by (vm_compute; discriminate). vm_compute. reflexivity.
Defined.

Lemma sanitize_trims_then_cuts_witness :
  store_tidy empty_server
  /\ (length (trim (js "  front door ")) <= 60)%nat
  /\ surrounding_whitespace (sanitizeText (JString (js "  front door ")) 60) = false
  /\ sanitizeText JNull 60 = []
  /\ forallb is_whitespace (js "   ") = true
  /\ sanitizeText (JString (js "   ")) 60 = []
  /\ store_tidy (run no_stringify sample_store_trace empty_server).
Proof.
  pose proof (sanitize_trims_then_cuts no_stringify JNull JNull long_label JUndefined
                (js "  front door ") 60 empty_server sample_store_trace cam1 id1 t1 0
                true 0 sample_record 2 [] store_tidy_empty)
    as (Hn & _ & _ & Hw & _ & _ & _ & _ & Hrun & _).
  pose proof (sanitize_trims_then_cuts no_stringify JNull JNull long_label JUndefined
                (js "   ") 60 empty_server sample_store_trace cam1 id1 t1 0
                true 0 sample_record 2 [] store_tidy_empty)
    as (_ & _ & _ & _ & Hb & _).
  assert (length (trim (js "  front door ")) <= 60)%nat as Hlen
      by (vm_compute; lia).
  split_and!;
    [exact store_tidy_empty | exact Hlen | exact (Hw Hlen) | | reflexivity
    | exact (Hb eq_refl) | exact Hrun].
  apply Hn. intros t'. discriminate.
Defined.
